(** * FileForge: job dispatch and execution, checked against its specification

    A shallow embedding of the submission endpoint
    ([backend/app/api/files.py]), the queue router
    ([backend/app/services/rabbitmq.py]) and the four worker runtimes
    ([workers/*/worker.py]), followed by the properties of the
    specification that concern them.

    Conventions.
    - Rows, tables, the object store, the worker's temporary directory and
      the broker are explicit state ([World]); Python code that threads
      them is written in a state-and-exception monad ([M]).
    - A SQLAlchemy session is the pair of the committed database [db] and
      the session's working copy [session]; [db_commit] publishes the
      working copy, [db_rollback] discards it.
    - External libraries (Pillow, ffmpeg, ClamAV, Fernet, Gemini, zipfile)
      and the Python builtins whose behaviour depends on Unicode tables are
      interfaces (type classes); nothing is assumed of them unless a lemma
      says so. *)

From stdpp Require Import gmap strings list fin_maps pretty sorting.
From Stdlib Require Import Strings.Byte Strings.Ascii ZArith.

Open Scope string_scope.
Open Scope list_scope.

Set Warnings "-register-all".

(** ** Python values *)

Abbreviation bytes := (list byte).

#[global] Instance byte_eq_dec : EqDecision byte := Byte.byte_eq_dec.

(** A decoded JSON document, as [json.loads] returns it (floats are not
    needed by any request of this system and are left out). *)
Inductive json :=
| JNull
| JBool (b : bool)
| JNum (z : Z)
| JStr (s : string)
| JArr (l : list json)
| JObj (l : list (string * json)).

(** Python truthiness: [if x:]. *)
Definition truthy (v : json) : bool :=
  match v with
  | JNull => false
  | JBool b => b
  | JNum z => negb (z =? 0)%Z
  | JStr s => negb (String.eqb s "")
  | JArr l => negb (Nat.eqb (length l) 0)
  | JObj l => negb (Nat.eqb (length l) 0)
  end.

Definition str_truthy (s : string) : bool := negb (String.eqb s "").

Definition opt_str_truthy (o : option string) : bool :=
  match o with Some s => str_truthy s | None => false end.

(** [d.get(k, default)] on a decoded JSON object. *)
Fixpoint assoc_get (k : string) (l : list (string * json)) : option json :=
  match l with
  | [] => None
  | (k', v) :: l' => if String.eqb k k' then Some v else assoc_get k l'
  end.

(** Later duplicates of a key win when Python builds the dict; the decoded
    object is kept in the order [dict] would iterate it, without
    duplicates, so the first match is the value. *)
Definition dict_get (k : string) (d : list (string * json)) (dflt : json) : json :=
  default dflt (assoc_get k d).

(** A Python exception: its class and [str(e)]. *)
Record PyExc := Exc { exc_class : string; exc_str : string }.

(** ** Strings and paths *)

Definition chars (s : string) : list ascii := String.list_ascii_of_string s.
Definition of_chars (l : list ascii) : string := String.string_of_list_ascii l.

(** [s.endswith(suffix)] *)
Definition endswith (s suffix : string) : bool :=
  let n := String.length s in
  let k := String.length suffix in
  (k <=? n)%nat && String.eqb (String.substring (n - k) k s) suffix.

(** [s[:-k]] for [0 < k] *)
Definition drop_right (k : nat) (s : string) : string :=
  String.substring 0 (String.length s - k) s.

(** [s.split(sep)] for a one-character separator. *)
Fixpoint split_chars (sep : ascii) (cur : list ascii) (l : list ascii) : list string :=
  match l with
  | [] => [of_chars (rev cur)]
  | c :: l' =>
      if Ascii.eqb c sep then of_chars (rev cur) :: split_chars sep [] l'
      else split_chars sep (c :: cur) l'
  end.

Definition split (sep : ascii) (s : string) : list string :=
  split_chars sep [] (chars s).

(** Index of the last occurrence of [c], as [str.rfind] ([None] for -1). *)
Fixpoint rfind_from (c : ascii) (i : nat) (l : list ascii) : option nat :=
  match l with
  | [] => None
  | x :: l' =>
      match rfind_from c (S i) l' with
      | Some j => Some j
      | None => if Ascii.eqb x c then Some i else None
      end
  end.

Definition rfind (c : ascii) (s : string) : option nat := rfind_from c 0 (chars s).

Module Path.
(** [pathlib.PurePosixPath]: the parts are the components between
    slashes, empty ones and ["."] dropped. *)
Definition parts (p : string) : list string :=
  List.filter (fun x => negb (String.eqb x "") && negb (String.eqb x ".")) (split "/" p).

Definition name (p : string) : string := List.last (parts p) "".

(** [i = name.rfind('.')]; a suffix exists when [0 < i < len(name) - 1]. *)
Definition suffix_index (p : string) : option nat :=
  let n := name p in
  match rfind "." n with
  | Some i => if (0 <? i)%nat && (i <? String.length n - 1)%nat then Some i else None
  | None => None
  end.

Definition suffix (p : string) : string :=
  let n := name p in
  match suffix_index p with
  | Some i => String.substring i (String.length n - i) n
  | None => ""
  end.

Definition stem (p : string) : string :=
  let n := name p in
  match suffix_index p with
  | Some i => String.substring 0 i n
  | None => n
  end.
End Path.

(** [bytes.strip()]: ASCII whitespace is space, tab, newline, vertical tab,
    form feed and carriage return. *)
Definition is_space (b : byte) : bool :=
  match b with
  | x20 | x09 | x0a | x0b | x0c | x0d => true
  | _ => false
  end.

Fixpoint lstrip (l : bytes) : bytes :=
  match l with
  | b :: l' => if is_space b then lstrip l' else l
  | [] => []
  end.

Definition strip (l : bytes) : bytes := rev (lstrip (rev (lstrip l))).

(** [f.readline()] on a binary file positioned at the start: the bytes up
    to and including the first newline, and what is left to read. *)
Fixpoint readline (l : bytes) : bytes * bytes :=
  match l with
  | [] => ([], [])
  | b :: l' =>
      if Byte.eqb b x0a then ([b], l')
      else let '(line, rest) := readline l' in (b :: line, rest)
  end.

(** The text methods of [str] are the same on the ASCII range. *)
Definition is_space_ascii (c : ascii) : bool := is_space (byte_of_ascii c).

Fixpoint lstrip_chars (l : list ascii) : list ascii :=
  match l with
  | c :: l' => if is_space_ascii c then lstrip_chars l' else l
  | [] => []
  end.

Definition str_strip (s : string) : string :=
  of_chars (rev (lstrip_chars (rev (lstrip_chars (chars s))))).

(** ** The persisted schema ([app/db/models.py], repeated in each worker) *)

Module JobStatus.
Inductive t := QUEUED | RUNNING | COMPLETED | FAILED.
#[global] Instance eq_dec : EqDecision t.
Proof. solve_decision. Defined.
End JobStatus.

Module FileStatus.
Inductive t := UPLOADED | PROCESSING | READY | FAILED.
#[global] Instance eq_dec : EqDecision t.
Proof. solve_decision. Defined.
End FileStatus.

Module JobType.
Inductive t :=
| IMAGE_CONVERT | THUMBNAIL | IMAGE_COMPRESS
| VIDEO_CONVERT | VIDEO_PREVIEW | VIDEO_THUMBNAIL
| COMPRESS | METADATA
| ENCRYPT | DECRYPT | VIRUS_SCAN
| AI_TAG.

Definition value (x : t) : string :=
  match x with
  | IMAGE_CONVERT => "image_convert"
  | THUMBNAIL => "thumbnail"
  | IMAGE_COMPRESS => "image_compress"
  | VIDEO_CONVERT => "video_convert"
  | VIDEO_PREVIEW => "video_preview"
  | VIDEO_THUMBNAIL => "video_thumbnail"
  | COMPRESS => "compress"
  | METADATA => "metadata"
  | ENCRYPT => "encrypt"
  | DECRYPT => "decrypt"
  | VIRUS_SCAN => "virus_scan"
  | AI_TAG => "ai_tag"
  end.

Definition members : list t :=
  [IMAGE_CONVERT; THUMBNAIL; IMAGE_COMPRESS; VIDEO_CONVERT; VIDEO_PREVIEW;
   VIDEO_THUMBNAIL; COMPRESS; METADATA; ENCRYPT; DECRYPT; VIRUS_SCAN; AI_TAG].

(** [JobType(s)]: the member whose value is [s]; [None] stands for the
    [ValueError] of the enum lookup. *)
Definition of_value (s : string) : option t :=
  List.find (fun x => String.eqb (value x) s) members.
End JobType.

Module Job.
Record t := mk {
  id : string;
  file_id : string;
  pipeline_id : option string;
  type : JobType.t;
  status : JobStatus.t;
  created_at : nat;
  updated_at : nat;
  result_file_id : option string;
  error_message : option string;
  params : list (string * json)
}.

Definition set_status (s : JobStatus.t) (j : t) : t :=
  mk (id j) (file_id j) (pipeline_id j) (type j) s (created_at j)
     (updated_at j) (result_file_id j) (error_message j) (params j).
Definition set_updated_at (n : nat) (j : t) : t :=
  mk (id j) (file_id j) (pipeline_id j) (type j) (status j) (created_at j)
     n (result_file_id j) (error_message j) (params j).
Definition set_error_message (m : string) (j : t) : t :=
  mk (id j) (file_id j) (pipeline_id j) (type j) (status j) (created_at j)
     (updated_at j) (result_file_id j) (Some m) (params j).
Definition set_result_file_id (r : string) (j : t) : t :=
  mk (id j) (file_id j) (pipeline_id j) (type j) (status j) (created_at j)
     (updated_at j) (Some r) (error_message j) (params j).
End Job.

Module File.
Record t := mk {
  id : string;
  owner_id : string;
  original_name : string;
  storage_bucket : string;
  storage_key : string;
  size_bytes : nat;
  mime_type : option string;
  status : FileStatus.t;
  created_at : nat;
  is_processed_output : bool;
  parent_file_id : option string
}.

Definition set_status (s : FileStatus.t) (f : t) : t :=
  mk (id f) (owner_id f) (original_name f) (storage_bucket f) (storage_key f)
     (size_bytes f) (mime_type f) s (created_at f) (is_processed_output f)
     (parent_file_id f).
End File.

Module Pipeline.
Record t := mk {
  id : string;
  file_id : string;
  name : string;
  steps : list json;
  created_at : nat
}.
End Pipeline.

Module FileMetadata.
Record t := mk {
  id : string;
  file_id : string;
  ai_tags : option (list string);
  created_at : nat;
  updated_at : nat
}.
End FileMetadata.

(** The tables, keyed by primary key; [file_metadata] is keyed by its
    unique [file_id] column. *)
Record DB := mkDB {
  jobs : gmap string Job.t;
  files : gmap string File.t;
  pipelines : gmap string Pipeline.t;
  file_metadata : gmap string FileMetadata.t
}.

Definition with_jobs (x : gmap string Job.t) (d : DB) : DB :=
  mkDB x (files d) (pipelines d) (file_metadata d).
Definition with_files (x : gmap string File.t) (d : DB) : DB :=
  mkDB (jobs d) x (pipelines d) (file_metadata d).
Definition with_pipelines (x : gmap string Pipeline.t) (d : DB) : DB :=
  mkDB (jobs d) (files d) x (file_metadata d).
Definition with_file_metadata (x : gmap string FileMetadata.t) (d : DB) : DB :=
  mkDB (jobs d) (files d) (pipelines d) x.

(** ** The wire envelope (spec 4.D) *)

Record Envelope := mkEnvelope {
  env_job_id : string;
  env_file_id : string;
  env_bucket : string;
  env_key : string;
  env_type : string;
  env_params : list (string * json)
}.

(** ** The world a request handler or a worker runs in *)

(** What an observer of the database, the broker and the object store sees,
    in order. *)
Inductive Event :=
| EvCommit (d : DB)
| EvPublish (queue : string) (m : Envelope)
| EvPutObject (bucket key : string)
| EvDeleteObject (bucket key : string).

Record World := mkWorld {
  db : DB;                                  (* committed rows *)
  session : DB;                             (* the open session's view *)
  tx_failed : bool;                         (* a statement failed; only rollback helps *)
  tx_deleted : list string;                 (* File ids deleted since the last commit *)
  objects : gmap (string * string) bytes;   (* (bucket, key) -> blob *)
  tmpfs : gmap string bytes;                (* local temporary files *)
  broker : list (string * Envelope);        (* published, oldest first *)
  events : list Event;                      (* oldest first *)
  clock : nat;
  entropy : nat
}.

Definition with_db (x : DB) (w : World) : World :=
  mkWorld x (session w) (tx_failed w) (tx_deleted w) (objects w) (tmpfs w) (broker w) (events w) (clock w) (entropy w).
Definition with_session (x : DB) (w : World) : World :=
  mkWorld (db w) x (tx_failed w) (tx_deleted w) (objects w) (tmpfs w) (broker w) (events w) (clock w) (entropy w).
Definition with_tx_failed (x : bool) (w : World) : World :=
  mkWorld (db w) (session w) x (tx_deleted w) (objects w) (tmpfs w) (broker w) (events w) (clock w) (entropy w).
Definition with_tx_deleted (x : list string) (w : World) : World :=
  mkWorld (db w) (session w) (tx_failed w) x (objects w) (tmpfs w) (broker w) (events w) (clock w) (entropy w).
Definition with_objects (x : gmap (string * string) bytes) (w : World) : World :=
  mkWorld (db w) (session w) (tx_failed w) (tx_deleted w) x (tmpfs w) (broker w) (events w) (clock w) (entropy w).
Definition with_tmpfs (x : gmap string bytes) (w : World) : World :=
  mkWorld (db w) (session w) (tx_failed w) (tx_deleted w) (objects w) x (broker w) (events w) (clock w) (entropy w).
Definition with_broker (x : list (string * Envelope)) (w : World) : World :=
  mkWorld (db w) (session w) (tx_failed w) (tx_deleted w) (objects w) (tmpfs w) x (events w) (clock w) (entropy w).
Definition with_events (x : list Event) (w : World) : World :=
  mkWorld (db w) (session w) (tx_failed w) (tx_deleted w) (objects w) (tmpfs w) (broker w) x (clock w) (entropy w).
Definition with_clock (x : nat) (w : World) : World :=
  mkWorld (db w) (session w) (tx_failed w) (tx_deleted w) (objects w) (tmpfs w) (broker w) (events w) x (entropy w).
Definition with_entropy (x : nat) (w : World) : World :=
  mkWorld (db w) (session w) (tx_failed w) (tx_deleted w) (objects w) (tmpfs w) (broker w) (events w) (clock w) x.

(** ** State and exceptions *)

Inductive outcome (A : Type) :=
| Ret (a : A)
| Raise (e : PyExc).
Arguments Ret {A} a.
Arguments Raise {A} e.

Definition M (A : Type) : Type := World -> outcome A * World.

Definition ret {A} (a : A) : M A := fun w => (Ret a, w).
Definition raise {A} (e : PyExc) : M A := fun w => (Raise e, w).
Definition bind {A B} (m : M A) (k : A -> M B) : M B :=
  fun w => match m w with
           | (Ret a, w') => k a w'
           | (Raise e, w') => (Raise e, w')
           end.
(** [try: body  except Exception as e: handler(e)] *)
Definition try_except {A} (body : M A) (handler : PyExc -> M A) : M A :=
  fun w => match body w with
           | (Ret a, w') => (Ret a, w')
           | (Raise e, w') => handler e w'
           end.
(** [try: body  finally: cleanup] *)
Definition try_finally {A} (body : M A) (cleanup : M unit) : M A :=
  fun w => match body w with
           | (r, w') =>
               match cleanup w' with
               | (Ret _, w'') => (r, w'')
               | (Raise e, w'') => (Raise e, w'')
               end
           end.
Definition get : M World := fun w => (Ret w, w).
Definition modify (f : World -> World) : M unit := fun w => (Ret tt, f w).
Definition lift {A} (r : PyExc + A) : M A :=
  match r with inl e => raise e | inr a => ret a end.

Declare Scope py_scope.
Delimit Scope py_scope with py.
Notation "x <- m ;; k" := (bind m (fun x => k))
  (at level 100, m at next level, right associativity) : py_scope.
Notation "m ;; k" := (bind m (fun _ => k))
  (at level 100, right associativity) : py_scope.
Open Scope py_scope.

Definition when (b : bool) (m : M unit) : M unit := if b then m else ret tt.

Fixpoint for_each {A} (l : list A) (body : A -> M unit) : M unit :=
  match l with
  | [] => ret tt
  | x :: l' => body x ;; for_each l' body
  end.

(** ** Interfaces of what the code calls but does not contain *)

(** The Python runtime: sources of randomness, and builtins that are not
    re-implemented here.  [decode_envelope] is [json.loads(body)] followed
    by the five subscript reads at the top of every [process_*_job]. *)
Class Python := {
  uuid4 : nat -> string;
  tmp_random : nat -> string;
  py_int : string -> PyExc + Z;
  py_upper : string -> string;
  py_lower : string -> string;
  py_str : json -> string;
  sha256 : bytes -> bytes;
  json_loads : string -> PyExc + json;
  decode_envelope : bytes -> PyExc + Envelope
}.

(** Pillow, as the three image handlers use it. *)
Class Pillow := {
  pil_thumbnail : bytes -> Z * Z -> PyExc + bytes;
  pil_convert : bytes -> string -> json -> PyExc + bytes;
  pil_compress : bytes -> json -> PyExc + bytes
}.

(** [subprocess.run(cmd, check=True, capture_output=True)] for an ffmpeg
    command line: the bytes written to the output path. *)
Class FFmpeg := {
  ffmpeg_run : list json -> bytes -> PyExc + bytes
}.

(** [pyclamd]: what [ClamdUnixSocket()], [ping()] and [scan_file()] do. *)
Inductive ClamResult :=
| ClamError (e : PyExc)
| ClamNoPing
| ClamNone
| ClamFound (repr : string).

Class ClamAV := {
  clamd_scan : string -> bytes -> ClamResult
}.

(** [cryptography.fernet]. *)
Class Fernet := {
  generate_key : nat -> bytes;
  fernet_encrypt : bytes -> nat -> bytes -> PyExc + bytes;
  fernet_decrypt : bytes -> bytes -> PyExc + bytes
}.

Class Zipfile := {
  zip_deflated : string -> bytes -> bytes
}.

(** The vision model and the environment variable that enables it. *)
Class Gemini := {
  GEMINI_API_KEY : string;
  generate_content : bytes -> PyExc + string
}.

(** ** Primitive effects *)

Definition utcnow : M nat :=
  fun w => (Ret (clock w), with_clock (S (clock w)) w).

Definition draw : M nat :=
  fun w => (Ret (entropy w), with_entropy (S (entropy w)) w).

Definition emit (e : Event) : M unit :=
  modify (fun w => with_events (events w ++ [e]) w).

(** *** The SQLAlchemy session *)

Definition reset_session (w : World) : World :=
  with_tx_deleted [] (with_tx_failed false (with_session (db w) w)).

Definition SessionLocal : M unit := modify reset_session.
Definition db_rollback : M unit := modify reset_session.
Definition db_close : M unit := modify reset_session.

(** A statement failed: the transaction is aborted and the exception
    propagates. *)
Definition db_fail {A} (e : PyExc) : M A :=
  modify (with_tx_failed true) ;; raise e.

(** Every statement on an aborted transaction fails. *)
Definition db_guard : M unit :=
  w <- get ;;
  if tx_failed w
  then raise (Exc "PendingRollbackError" "Can't reconnect until invalid transaction is rolled back.")
  else ret tt.

Definition db_view : M DB := db_guard ;; w <- get ;; ret (session w).
Definition db_update (f : DB -> DB) : M unit :=
  db_guard ;; modify (fun w => with_session (f (session w)) w).

(** Rows that still point at a File deleted in this transaction
    (foreign keys [files.parent_file_id] and [jobs.result_file_id]; the
    other references are removed by the ORM cascade of [db_delete_file]). *)
Definition references_file (d : DB) (fid : string) : bool :=
  bool_decide (map_Exists (fun _ f => File.parent_file_id f = Some fid) (files d))
  || bool_decide (map_Exists (fun _ j => Job.result_file_id j = Some fid) (jobs d)).

Definition db_commit : M unit :=
  db_guard ;;
  w <- get ;;
  if existsb (references_file (session w)) (tx_deleted w)
  then db_fail (Exc "IntegrityError" "update or delete on table files violates foreign key constraint")
  else
    modify (fun w => with_tx_deleted [] (with_db (session w) w)) ;;
    emit (EvCommit (session w)).

Definition sql_literal_ok (s : string) : bool :=
  negb (existsb (Ascii.eqb "'"%char) (chars s)).

(** *** The object store and the local temporary directory *)

Definition no_such_key : PyExc :=
  Exc "ClientError" "An error occurred (404) when calling the HeadObject operation: Not Found".

Definition file_not_found (path : string) : PyExc :=
  Exc "FileNotFoundError" ("[Errno 2] No such file or directory: '" +:+ path +:+ "'").

Definition read_file (path : string) : M bytes :=
  w <- get ;;
  match tmpfs w !! path with
  | Some data => ret data
  | None => raise (file_not_found path)
  end.

Definition write_file (path : string) (data : bytes) : M unit :=
  modify (fun w => with_tmpfs (<[path := data]> (tmpfs w)) w).

Definition tmp_path `{Python} (n : nat) (suffix : string) : string :=
  "/tmp/tmp" +:+ tmp_random n +:+ suffix.

(** [tempfile.NamedTemporaryFile(delete=False, suffix=...)]: the file
    exists, empty, when the [with] body starts. *)
Definition NamedTemporaryFile `{Python} (suffix : string) : M string :=
  n <- draw ;;
  write_file (tmp_path n suffix) [] ;;
  ret (tmp_path n suffix).

Definition mktemp `{Python} (suffix : string) : M string :=
  n <- draw ;; ret (tmp_path n suffix).

Definition os_path_exists (path : string) : M bool :=
  w <- get ;; ret (bool_decide (is_Some (tmpfs w !! path))).

Definition os_unlink (path : string) : M unit :=
  w <- get ;;
  match tmpfs w !! path with
  | Some _ => modify (fun w => with_tmpfs (delete path (tmpfs w)) w)
  | None => raise (file_not_found path)
  end.

Definition os_path_getsize (path : string) : M nat :=
  data <- read_file path ;; ret (length data).

Definition s3_download_file (bucket key path : string) : M unit :=
  w <- get ;;
  match objects w !! (bucket, key) with
  | Some data => write_file path data
  | None => raise no_such_key
  end.

Definition s3_upload_file (path bucket key : string) : M unit :=
  data <- read_file path ;;
  modify (fun w => with_objects (<[(bucket, key) := data]> (objects w)) w) ;;
  emit (EvPutObject bucket key).

Definition s3_delete_object (bucket key : string) : M unit :=
  modify (fun w => with_objects (delete (bucket, key) (objects w)) w) ;;
  emit (EvDeleteObject bucket key).

(** ** [backend/app/services/rabbitmq.py] *)

Module RabbitMQService.
(** The dict literal of [get_queue_for_job_type]. *)
Definition mapping : gmap string string :=
  list_to_map [
    ("image_convert", "image_queue");
    ("thumbnail", "image_queue");
    ("image_compress", "image_queue");
    ("video_convert", "video_queue");
    ("video_preview", "video_queue");
    ("video_thumbnail", "video_queue");
    ("compress", "security_queue");
    ("metadata", "image_queue");
    ("encrypt", "security_queue");
    ("decrypt", "security_queue");
    ("virus_scan", "security_queue");
    ("ai_tag", "ai_queue")
  ].

(** [mapping.get(job_type, 'image_queue')] *)
Definition get_queue_for_job_type (job_type : string) : string :=
  default "image_queue" (mapping !! job_type).

(** [basic_publish] on the default exchange with [routing_key=queue]; the
    connection is assumed up (a closed one is reopened first). *)
Definition publish_job (queue : string) (message : Envelope) : M unit :=
  modify (fun w => with_broker (broker w ++ [(queue, message)]) w) ;;
  emit (EvPublish queue message).
End RabbitMQService.

(** ** [backend/app/services/minio.py] *)

Module MinIOService.
Definition upload_file (file_path bucket key : string) : M unit :=
  s3_upload_file file_path bucket key.
Definition delete_file (bucket key : string) : M unit :=
  s3_delete_object bucket key.
End MinIOService.

(** ** [backend/app/api/files.py] *)

Module Files.
Section Api.
Context `{Python}.

(** Modelled from the spec: [app/db/database.py] is not among the
    sources.  By section 4.B a request's writes commit atomically or not
    at all, so the session a handler receives starts from the committed
    rows and is closed, dropping what is uncommitted, when the handler
    returns or raises. *)
Definition get_db {A} (handler : M A) : M A :=
  SessionLocal ;; try_finally handler db_close.

Definition type_name (v : json) : string :=
  match v with
  | JNull => "NoneType"
  | JBool _ => "bool"
  | JNum _ => "int"
  | JStr _ => "str"
  | JArr _ => "list"
  | JObj _ => "dict"
  end.

(** [for x in v]: the elements of a list, the characters of a string,
    the keys of a dict; anything else is not iterable. *)
Definition iterate (v : json) : PyExc + list json :=
  match v with
  | JArr l => inr l
  | JStr s => inr (List.map (fun c => JStr (String c "")) (chars s))
  | JObj l => inr (List.map (fun kv => JStr (fst kv)) l)
  | _ => inl (Exc "TypeError" ("'" +:+ type_name v +:+ "' object is not iterable"))
  end.

(** [JobType(action)] *)
Definition JobType_of (action : json) : PyExc + JobType.t :=
  match action with
  | JStr s =>
      match JobType.of_value s with
      | Some t => inr t
      | None => inl (Exc "ValueError" ("'" +:+ s +:+ "' is not a valid JobType"))
      end
  | _ => inl (Exc "ValueError" (py_str action +:+ " is not a valid JobType"))
  end.

(** A string key of the routing dict; a value of another type is not a
    key of it. *)
Definition queue_for (action : json) : string :=
  match action with
  | JStr s => RabbitMQService.get_queue_for_job_type s
  | _ => "image_queue"
  end.

(** [db.add(row); db.flush()]: the INSERT, with the column defaults. *)
Definition add_file (f : File.t) : M unit :=
  d <- db_view ;;
  match files d !! File.id f with
  | Some _ => db_fail (Exc "IntegrityError" "duplicate key value violates unique constraint files_pkey")
  | None => db_update (fun d => with_files (<[File.id f := f]> (files d)) d)
  end.

Definition add_pipeline (file_id : string) (name : string) (steps : list json) : M Pipeline.t :=
  n <- draw ;;
  now <- utcnow ;;
  let p := Pipeline.mk (uuid4 n) file_id name steps now in
  d <- db_view ;;
  match pipelines d !! Pipeline.id p with
  | Some _ => db_fail (Exc "IntegrityError" "duplicate key value violates unique constraint pipelines_pkey")
  | None => db_update (fun d => with_pipelines (<[Pipeline.id p := p]> (pipelines d)) d) ;; ret p
  end.

Definition add_job (file_id pipeline_id : string) (type : JobType.t) : M Job.t :=
  n <- draw ;;
  created <- utcnow ;;
  updated <- utcnow ;;
  let j := Job.mk (uuid4 n) file_id (Some pipeline_id) type JobStatus.QUEUED
                  created updated None None [] in
  d <- db_view ;;
  match jobs d !! Job.id j with
  | Some _ => db_fail (Exc "IntegrityError" "duplicate key value violates unique constraint jobs_pkey")
  | None => db_update (fun d => with_jobs (<[Job.id j := j]> (jobs d)) d) ;; ret j
  end.

Definition set_file_status (file_id : string) (s : FileStatus.t) : M unit :=
  db_update (fun d => with_files (alter (File.set_status s) file_id (files d)) d).

(** The body of [upload_file] inside its [try]. *)
Definition upload_body (temp_path user_id file_id storage_key filename : string)
    (content : bytes) (content_type : option string)
    (pipeline_actions : option string) : M string :=
  MinIOService.upload_file temp_path "raw" storage_key ;;
  created <- utcnow ;;
  let new_file :=
    File.mk file_id user_id filename "raw" storage_key (length content)
            (Some (if opt_str_truthy content_type
                   then default "" content_type
                   else "application/octet-stream"))
            FileStatus.UPLOADED created false None in
  add_file new_file ;;
  actions <- (if opt_str_truthy pipeline_actions
              then lift (json_loads (default "" pipeline_actions))
              else ret (JArr [])) ;;
  (if truthy actions then
     steps <- lift (iterate actions) ;;
     pipeline <- add_pipeline file_id "Auto Pipeline"
                   (List.map (fun a => JObj [("type", a)]) steps) ;;
     items <- lift (iterate actions) ;;
     for_each items (fun action =>
       type <- lift (JobType_of action) ;;
       job <- add_job file_id (Pipeline.id pipeline) type ;;
       let queue := queue_for action in
       let message :=
         mkEnvelope (Job.id job) file_id "raw" storage_key
                    (match action with JStr s => s | _ => py_str action end) [] in
       RabbitMQService.publish_job queue message) ;;
     set_file_status file_id FileStatus.PROCESSING
   else ret tt) ;;
  db_commit ;;
  ret file_id.

(** [POST /files/upload].  The result is the [file_id] of the success
    body. *)
Definition upload_file (filename : string) (content : bytes)
    (content_type : option string) (pipeline_actions : option string)
    (user_id : string) : M string :=
  get_db (
    n <- draw ;;
    let file_id := uuid4 n in
    let storage_key := user_id +:+ "/" +:+ file_id +:+ "_" +:+ filename in
    temp_path <- NamedTemporaryFile "" ;;
    write_file temp_path content ;;
    try_finally
      (upload_body temp_path user_id file_id storage_key filename content
                   content_type pipeline_actions)
      (e <- os_path_exists temp_path ;; when e (os_unlink temp_path))).

(** [db.delete(job)] *)
Definition db_delete_job (job_id : string) : M unit :=
  db_update (fun d => with_jobs (delete job_id (jobs d)) d).

Definition pipeline_of_file (d : DB) (fid : string) (pid : option string) : bool :=
  match pid with
  | Some p =>
      match pipelines d !! p with
      | Some pl => bool_decide (Pipeline.file_id pl = fid)
      | None => false
      end
  | None => false
  end.

(** The rows the ORM deletes with a File: [File.jobs], [File.pipelines]
    and, through them, [Pipeline.jobs], and [File.file_metadata] all
    carry [cascade="all, delete-orphan"]. *)
Definition job_cascaded (d : DB) (fid : string) (j : Job.t) : bool :=
  bool_decide (Job.file_id j = fid) || pipeline_of_file d fid (Job.pipeline_id j).

(** [db.delete(file)] *)
Definition db_delete_file (fid : string) : M unit :=
  db_update (fun d =>
    mkDB (filter (fun kv => job_cascaded d fid kv.2 = false) (jobs d))
         (delete fid (files d))
         (filter (fun kv => Pipeline.file_id kv.2 <> fid) (pipelines d))
         (delete fid (file_metadata d))) ;;
  modify (fun w => with_tx_deleted (fid :: tx_deleted w) w).

Definition db_delete_file_metadata (fid : string) : M unit :=
  db_update (fun d => with_file_metadata (delete fid (file_metadata d)) d).

Definition http_404 : PyExc := Exc "HTTPException" "404: File not found".

(** [(Job.file_id == file_id) | (Job.result_file_id.in_(processed_file_ids))] *)
Definition job_selected (file_id : string) (processed_file_ids : list string) (j : Job.t) : bool :=
  bool_decide (Job.file_id j = file_id)
  || match Job.result_file_id j with
     | Some r => bool_decide (r ∈ processed_file_ids)
     | None => false
     end.

(** [DELETE /files/{file_id}].  A loaded row is a pair of its primary key
    (the key of the table) and its columns; [db.delete(row)] deletes by
    that key. *)
Definition delete_file (file_id user_id : string) : M unit :=
  get_db (
    d <- db_view ;;
    match files d !! file_id with
    | Some file =>
        if bool_decide (File.owner_id file = user_id) then
          (* Get processed output files *)
          let processed_files :=
            map_to_list (filter (fun kv => File.parent_file_id kv.2 = Some file_id) (files d)) in
          let processed_file_ids := processed_files.*1 in
          (* Delete all jobs associated with this file *)
          let jobs :=
            map_to_list (filter (fun kv => job_selected file_id processed_file_ids kv.2 = true)
                                (jobs d)) in
          for_each jobs (fun job => db_delete_job job.1) ;;
          db_commit ;;
          (* Now delete processed output files *)
          for_each processed_files (fun pf =>
            try_except
              (MinIOService.delete_file (File.storage_bucket pf.2) (File.storage_key pf.2))
              (fun _ => ret tt) ;;
            db_delete_file pf.1) ;;
          db_commit ;;
          (* Delete from MinIO; the expired [file] is loaded again *)
          d <- db_view ;;
          match files d !! file_id with
          | Some file =>
              try_except
                (MinIOService.delete_file (File.storage_bucket file) (File.storage_key file))
                (fun _ => ret tt) ;;
              (if bool_decide (is_Some (file_metadata d !! file_id))
               then db_delete_file_metadata file_id else ret tt) ;;
              db_delete_file file_id ;;
              db_commit
          | None =>
              raise (Exc "ObjectDeletedError" "Instance has been deleted, or its row is otherwise not present.")
          end
        else raise http_404
    | None => raise http_404
    end).
End Api.
End Files.

(** ** What the four [worker.py] files have in common *)

Inductive Delivery := Ack | Nack (requeue : bool).

Module Worker.
Section Runtime.
Context `{Python}.

(** [update_job_status(db, job_id, status, error_message, result_file_id)]:
    the same text in the image, video and security workers; the AI
    worker's has no [result_file_id] parameter and is this one at
    [None].  The commit fails on [jobs.result_file_id -> files.id] when
    the result row is not there. *)
Definition update_job_status (job_id : string) (status : JobStatus.t)
    (error_message result_file_id : option string) : M unit :=
  d <- db_view ;;
  match jobs d !! job_id with
  | Some job =>
      let job := Job.set_status status job in
      now <- utcnow ;;
      let job := Job.set_updated_at now job in
      let job := if opt_str_truthy error_message
                 then Job.set_error_message (default "" error_message) job
                 else job in
      let job := if opt_str_truthy result_file_id
                 then Job.set_result_file_id (default "" result_file_id) job
                 else job in
      db_update (fun d => with_jobs (<[job_id := job]> (jobs d)) d) ;;
      if opt_str_truthy result_file_id
         && negb (bool_decide (is_Some (files d !! default "" result_file_id)))
      then db_fail (Exc "IntegrityError" "insert or update on table jobs violates foreign key constraint")
      else db_commit
  | None => ret tt
  end.

(** The string-built statement
    [INSERT INTO files (...) SELECT '<id>', owner_id, '<name>', '<bucket>',
     '<key>', <size>, '<mime>', 'READY', true, '<file_id>', NOW()
     FROM files WHERE id = '<file_id>'].
    A quote inside an interpolated value ends the literal early and the
    statement is rejected; values chosen to form another valid statement
    are outside this model. *)
Definition insert_derived_file (result_file_id original_name output_bucket output_key : string)
    (output_size : nat) (mime_type file_id : string) : M unit :=
  db_guard ;;
  if forallb sql_literal_ok
       [result_file_id; original_name; output_bucket; output_key; mime_type; file_id]
  then
    d <- db_view ;;
    match files d !! file_id with
    | Some parent =>
        match files d !! result_file_id with
        | Some _ => db_fail (Exc "IntegrityError" "duplicate key value violates unique constraint files_pkey")
        | None =>
            now <- utcnow ;;
            db_update (fun d =>
              with_files
                (<[result_file_id :=
                     File.mk result_file_id (File.owner_id parent) original_name
                             output_bucket output_key output_size (Some mime_type)
                             FileStatus.READY now true (Some file_id)]> (files d)) d)
        end
    | None => ret tt
    end
  else db_fail (Exc "ProgrammingError" "syntax error in SQL statement").

(** [file = db.query(File).filter(File.id == file_id).first()] *)
Definition query_file (file_id : string) : M (option File.t) :=
  d <- db_view ;; ret (files d !! file_id).

(** [if file: file.status = FileStatus.READY; db.commit()] *)
Definition mark_file_ready (file_id : string) : M unit :=
  file <- query_file file_id ;;
  match file with
  | Some file =>
      db_update (fun d => with_files (<[file_id := File.set_status FileStatus.READY file]> (files d)) d) ;;
      db_commit
  | None => ret tt
  end.

(** [if output_path and output_bucket and output_key] *)
Definition have_output (output_path output_bucket output_key : option string) : bool :=
  opt_str_truthy output_path && opt_str_truthy output_bucket && opt_str_truthy output_key.

(** [os.unlink(input_path)
     if output_path and os.path.exists(output_path): os.unlink(output_path)] *)
Definition cleanup (input_path : string) (output_path : option string) : M unit :=
  os_unlink input_path ;;
  if opt_str_truthy output_path then
    e <- os_path_exists (default "" output_path) ;;
    when e (os_unlink (default "" output_path))
  else ret tt.

(** [callback(ch, method, properties, body)] *)
Definition callback (process_job : Envelope -> M unit) (body : bytes) : M Delivery :=
  try_except
    (message <- lift (decode_envelope body) ;;
     process_job message ;;
     ret Ack)
    (fun _ => ret (Nack false)).

Definition type_name : json -> string := Files.type_name.

Definition no_attribute {A} (v : json) (attr : string) : M A :=
  raise (Exc "AttributeError"
             ("'" +:+ type_name v +:+ "' object has no attribute '" +:+ attr +:+ "'")).
End Runtime.
End Worker.

(** ** [workers/image_processor/worker.py] *)

Module ImageWorker.
Section Handlers.
Context `{Python, Pillow}.

Definition update_job_status := Worker.update_job_status.

Definition create_thumbnail (input_path output_path : string) (size : Z * Z) : M unit :=
  img <- read_file input_path ;;
  out <- lift (pil_thumbnail img size) ;;
  write_file output_path out.

Definition convert_image (input_path output_path target_format : string) (quality : json) : M unit :=
  img <- read_file input_path ;;
  out <- lift (pil_convert img target_format quality) ;;
  write_file output_path out.

Definition compress_image (input_path output_path : string) (quality : json) : M unit :=
  img <- read_file input_path ;;
  out <- lift (pil_compress img quality) ;;
  write_file output_path out.

(** [width, height = map(int, size.split('x'))] *)
Definition parse_size (size : string) : M (Z * Z) :=
  match split "x" size with
  | [a] =>
      _ <- lift (py_int a) ;;
      raise (Exc "ValueError" "not enough values to unpack (expected 2, got 1)")
  | [a; b] =>
      width <- lift (py_int a) ;;
      height <- lift (py_int b) ;;
      ret (width, height)
  | a :: b :: c :: _ =>
      _ <- lift (py_int a) ;;
      _ <- lift (py_int b) ;;
      _ <- lift (py_int c) ;;
      raise (Exc "ValueError" "too many values to unpack (expected 2)")
  | [] => raise (Exc "ValueError" "not enough values to unpack (expected 2, got 0)")
  end.

(** The [if]/[elif] chain on [job_type]: the three output variables. *)
Definition run_handler (job_type : string) (params : list (string * json))
    (input_path base_name : string) : M (option string * option string * option string) :=
  if String.eqb job_type "thumbnail" then
    match dict_get "size" params (JStr "256x256") with
    | JStr size =>
        wh <- parse_size size ;;
        output_path <- mktemp ".jpg" ;;
        create_thumbnail input_path output_path wh ;;
        ret (Some output_path, Some "thumbnails",
             Some (base_name +:+ "_thumb_" +:+ size +:+ ".jpg"))
    | v => Worker.no_attribute v "split"
    end
  else if String.eqb job_type "image_convert" then
    match dict_get "target_format" params (JStr "WEBP") with
    | JStr fmt =>
        let target_format := py_upper fmt in
        let quality := dict_get "quality" params (JNum 85) in
        let ext := py_lower target_format in
        let ext := if String.eqb ext "jpg" then "jpeg" else ext in
        output_path <- mktemp ("." +:+ ext) ;;
        convert_image input_path output_path target_format quality ;;
        ret (Some output_path, Some "processed",
             Some (base_name +:+ "_converted." +:+ ext))
    | v => Worker.no_attribute v "upper"
    end
  else if String.eqb job_type "image_compress" then
    let quality := dict_get "quality" params (JNum 60) in
    output_path <- mktemp ".jpg" ;;
    compress_image input_path output_path quality ;;
    ret (Some output_path, Some "processed",
         Some (base_name +:+ "_compressed.jpg"))
  else ret (None, None, None).

Definition process_image_job (job_data : Envelope) : M unit :=
  let job_id := env_job_id job_data in
  let file_id := env_file_id job_data in
  let bucket := env_bucket job_data in
  let key := env_key job_data in
  let job_type := env_type job_data in
  let params := env_params job_data in
  SessionLocal ;;
  try_finally
    (try_except
       ((* Update job status to running *)
        update_job_status job_id JobStatus.RUNNING None None ;;
        (* Download file from MinIO *)
        input_path <- NamedTemporaryFile (Path.suffix key) ;;
        s3_download_file bucket key input_path ;;
        (* Get original filename for output naming *)
        file_obj <- Worker.query_file file_id ;;
        let original_name :=
          match file_obj with Some f => File.original_name f | None => "file" end in
        let base_name := Path.stem original_name in
        out <- run_handler job_type params input_path base_name ;;
        let '(output_path, output_bucket, output_key) := out in
        (if Worker.have_output output_path output_bucket output_key then
           let output_path := default "" output_path in
           let output_bucket := default "" output_bucket in
           let output_key := default "" output_key in
           s3_upload_file output_path output_bucket output_key ;;
           output_size <- os_path_getsize output_path ;;
           n <- draw ;;
           let result_file_id := uuid4 n in
           Worker.insert_derived_file result_file_id output_key output_bucket output_key
                                      output_size "image/jpeg" file_id ;;
           db_commit ;;
           update_job_status job_id JobStatus.COMPLETED None (Some result_file_id) ;;
           Worker.mark_file_ready file_id
         else
           update_job_status job_id JobStatus.COMPLETED None None ;;
           Worker.mark_file_ready file_id) ;;
        Worker.cleanup input_path output_path)
       (fun e =>
          db_rollback ;;
          update_job_status job_id JobStatus.FAILED (Some (exc_str e)) None))
    db_close.

Definition callback : bytes -> M Delivery := Worker.callback process_image_job.
End Handlers.
End ImageWorker.

(** ** [workers/video_processor/worker.py] *)

Module VideoWorker.
Section Handlers.
Context `{Python, FFmpeg}.

Definition update_job_status := Worker.update_job_status.

(** [subprocess.run(cmd, check=True, capture_output=True)]: ffmpeg reads
    the path after [-i] and writes the last argument. *)
Definition subprocess_run (cmd : list json) (input_path output_path : string) : M unit :=
  video <- read_file input_path ;;
  out <- lift (ffmpeg_run cmd video) ;;
  write_file output_path out.

Definition create_video_thumbnail (input_path output_path : string) (time : json) : M unit :=
  let cmd := [JStr "ffmpeg"; JStr "-i"; JStr input_path; JStr "-ss"; time;
              JStr "-vframes"; JStr "1"; JStr "-vf"; JStr "scale=640:-1";
              JStr "-y"; JStr output_path] in
  subprocess_run cmd input_path output_path.

Definition create_video_preview (input_path output_path : string) (duration : json) : M unit :=
  let cmd := [JStr "ffmpeg"; JStr "-i"; JStr input_path; JStr "-t"; JStr (py_str duration);
              JStr "-c:v"; JStr "libx264"; JStr "-c:a"; JStr "aac";
              JStr "-b:v"; JStr "1M"; JStr "-b:a"; JStr "128k";
              JStr "-y"; JStr output_path] in
  subprocess_run cmd input_path output_path.

(** [height_map.get(resolution, '720')]; a list or a dict is not
    hashable. *)
Definition height_of (resolution : json) : PyExc + string :=
  match resolution with
  | JStr "480p" => inr "480"
  | JStr "720p" => inr "720"
  | JStr "1080p" => inr "1080"
  | JArr _ => inl (Exc "TypeError" "unhashable type: 'list'")
  | JObj _ => inl (Exc "TypeError" "unhashable type: 'dict'")
  | _ => inr "720"
  end.

Definition convert_video (input_path output_path : string) (resolution format : json) : M unit :=
  height <- lift (height_of resolution) ;;
  let cmd := [JStr "ffmpeg"; JStr "-i"; JStr input_path;
              JStr "-vf"; JStr ("scale=-2:" +:+ height);
              JStr "-c:v"; JStr "libx264"; JStr "-c:a"; JStr "aac";
              JStr "-b:v"; JStr "2M"; JStr "-b:a"; JStr "192k";
              JStr "-y"; JStr output_path] in
  subprocess_run cmd input_path output_path.

(** The [if]/[elif] chain on [job_type]: output path, bucket, key and
    file name. *)
Definition run_handler (job_type : string) (params : list (string * json))
    (input_path file_id base_name : string)
  : M (option string * option string * option string * option string) :=
  if String.eqb job_type "video_thumbnail" then
    let time := dict_get "time" params (JStr "00:00:01") in
    output_path <- mktemp ".jpg" ;;
    create_video_thumbnail input_path output_path time ;;
    ret (Some output_path, Some "thumbnails",
         Some (file_id +:+ "_video_thumb.jpg"),
         Some (base_name +:+ "_thumb.jpg"))
  else if String.eqb job_type "video_preview" then
    let duration := dict_get "duration" params (JNum 10) in
    output_path <- mktemp ".mp4" ;;
    create_video_preview input_path output_path duration ;;
    ret (Some output_path, Some "processed",
         Some (file_id +:+ "_preview.mp4"),
         Some (base_name +:+ "_preview.mp4"))
  else if String.eqb job_type "video_convert" then
    let resolution := dict_get "resolution" params (JStr "720p") in
    let format := dict_get "format" params (JStr "mp4") in
    output_path <- mktemp ("." +:+ py_str format) ;;
    convert_video input_path output_path resolution format ;;
    ret (Some output_path, Some "processed",
         Some (file_id +:+ "_converted_" +:+ py_str resolution +:+ "." +:+ py_str format),
         Some (base_name +:+ "_converted_" +:+ py_str resolution +:+ "." +:+ py_str format))
  else ret (None, None, None, None).

Definition process_video_job (job_data : Envelope) : M unit :=
  let job_id := env_job_id job_data in
  let file_id := env_file_id job_data in
  let bucket := env_bucket job_data in
  let key := env_key job_data in
  let job_type := env_type job_data in
  let params := env_params job_data in
  SessionLocal ;;
  try_finally
    (try_except
       ((* Update job status to running *)
        update_job_status job_id JobStatus.RUNNING None None ;;
        (* Get original filename *)
        file <- Worker.query_file file_id ;;
        match file with
        | None => raise (Exc "Exception" ("File " +:+ file_id +:+ " not found"))
        | Some file =>
            let original_name := File.original_name file in
            let base_name := Path.stem original_name in
            (* Download file from MinIO *)
            input_path <- NamedTemporaryFile (Path.suffix key) ;;
            s3_download_file bucket key input_path ;;
            out <- run_handler job_type params input_path file_id base_name ;;
            let '(output_path, output_bucket, output_key, output_filename) := out in
            (if Worker.have_output output_path output_bucket output_key then
               let output_path := default "" output_path in
               let output_bucket := default "" output_bucket in
               let output_key := default "" output_key in
               let output_filename := default "" output_filename in
               s3_upload_file output_path output_bucket output_key ;;
               output_size <- os_path_getsize output_path ;;
               n <- draw ;;
               let result_file_id := uuid4 n in
               let mime_type :=
                 if negb (String.eqb job_type "video_thumbnail")
                 then "video/mp4" else "image/jpeg" in
               Worker.insert_derived_file result_file_id output_filename output_bucket
                                          output_key output_size mime_type file_id ;;
               db_commit ;;
               update_job_status job_id JobStatus.COMPLETED None (Some result_file_id) ;;
               Worker.mark_file_ready file_id
             else
               update_job_status job_id JobStatus.COMPLETED None None ;;
               Worker.mark_file_ready file_id) ;;
            Worker.cleanup input_path output_path
        end)
       (fun e => update_job_status job_id JobStatus.FAILED (Some (exc_str e)) None))
    db_close.

Definition callback : bytes -> M Delivery := Worker.callback process_video_job.
End Handlers.
End VideoWorker.

(** ** [workers/security/worker.py] *)

Module SecurityWorker.
Section Handlers.
Context `{Python, ClamAV, Fernet, Zipfile}.

Definition update_job_status := Worker.update_job_status.

(** [scan_file_for_virus(file_path)]: [(is_clean, message)] *)
Definition scan_file_for_virus (file_path : string) : M (bool * string) :=
  w <- get ;;
  match clamd_scan file_path (default [] (tmpfs w !! file_path)) with
  | ClamNoPing => ret (true, "ClamAV not available")
  | ClamNone => ret (true, "Clean")
  | ClamFound result => ret (false, "Virus detected: " +:+ result)
  | ClamError e => ret (true, "Scan error: " +:+ exc_str e)
  end.

(** [password.encode()] *)
Definition encode (password : json) : M bytes :=
  match password with
  | JStr s => ret (List.map byte_of_ascii (chars s))
  | v => Worker.no_attribute v "encode"
  end.

Definition encrypt_file (input_path output_path : string) (password : json) : M unit :=
  (* Derive key from password *)
  pw <- encode password ;;
  let key := sha256 pw in
  n <- draw ;;
  let key_b64 := generate_key n in
  data <- read_file input_path ;;
  r <- draw ;;
  encrypted <- lift (fernet_encrypt key_b64 r data) ;;
  write_file output_path (key_b64 ++ [x0a] ++ encrypted).

Definition decrypt_file (input_path output_path : string) (password : json) : M unit :=
  content <- read_file input_path ;;
  let '(line, encrypted) := readline content in
  let key_b64 := strip line in
  decrypted <- lift (fernet_decrypt key_b64 encrypted) ;;
  write_file output_path decrypted.

(** [UPDATE files SET status = 'FAILED' WHERE id = '<file_id>'] *)
Definition mark_file_failed (file_id : string) : M unit :=
  db_guard ;;
  if sql_literal_ok file_id then
    db_update (fun d => with_files (alter (File.set_status FileStatus.FAILED) file_id (files d)) d) ;;
    db_commit
  else db_fail (Exc "ProgrammingError" "syntax error in SQL statement").

Definition original_name_of (file_id : string) : M string :=
  file_obj <- Worker.query_file file_id ;;
  ret (match file_obj with Some f => File.original_name f | None => "file" end).

(** The [if]/[elif] chain on [job_type]: the three output variables. *)
Definition run_handler (job_id file_id job_type : string) (params : list (string * json))
    (input_path : string) : M (option string * option string * option string) :=
  if String.eqb job_type "virus_scan" then
    r <- scan_file_for_virus input_path ;;
    let '(is_clean, scan_result) := r in
    (if is_clean then
       update_job_status job_id JobStatus.COMPLETED
         (Some "✓ No virus found - File is clean") None ;;
       Worker.mark_file_ready file_id
     else
       mark_file_failed file_id ;;
       update_job_status job_id JobStatus.FAILED
         (Some ("⚠ Virus detected: " +:+ scan_result)) None) ;;
    ret (None, None, None)
  else if String.eqb job_type "encrypt" then
    let password := dict_get "password" params (JStr "default_password") in
    original_name <- original_name_of file_id ;;
    let base_name := Path.stem original_name in
    let original_ext := Path.suffix original_name in
    output_path <- mktemp ".enc" ;;
    encrypt_file input_path output_path password ;;
    ret (Some output_path, Some "encrypted",
         Some (base_name +:+ "_encrypted" +:+ original_ext +:+ ".enc"))
  else if String.eqb job_type "decrypt" then
    let password := dict_get "password" params (JStr "default_password") in
    original_name <- original_name_of file_id ;;
    let original_name :=
      if endswith original_name ".enc" then drop_right 4 original_name
      else original_name in
    let base_name := Path.stem original_name in
    let original_ext := Path.suffix original_name in
    output_path <- mktemp original_ext ;;
    decrypt_file input_path output_path password ;;
    ret (Some output_path, Some "processed",
         Some (base_name +:+ "_decrypted" +:+ original_ext))
  else if String.eqb job_type "compress" then
    output_path <- mktemp ".zip" ;;
    original_name <- original_name_of file_id ;;
    data <- read_file input_path ;;
    write_file output_path (zip_deflated original_name data) ;;
    ret (Some output_path, Some "processed", Some (file_id +:+ "_compressed.zip"))
  else ret (None, None, None).

Definition process_security_job (job_data : Envelope) : M unit :=
  let job_id := env_job_id job_data in
  let file_id := env_file_id job_data in
  let bucket := env_bucket job_data in
  let key := env_key job_data in
  let job_type := env_type job_data in
  let params := env_params job_data in
  SessionLocal ;;
  try_finally
    (try_except
       ((* Update job status to running *)
        update_job_status job_id JobStatus.RUNNING None None ;;
        (* Download file from MinIO *)
        input_path <- NamedTemporaryFile (Path.suffix key) ;;
        s3_download_file bucket key input_path ;;
        out <- run_handler job_id file_id job_type params input_path ;;
        let '(output_path, output_bucket, output_key) := out in
        (* Upload result to MinIO if applicable *)
        (if Worker.have_output output_path output_bucket output_key then
           let output_path := default "" output_path in
           let output_bucket := default "" output_bucket in
           let output_key := default "" output_key in
           s3_upload_file output_path output_bucket output_key ;;
           output_size <- os_path_getsize output_path ;;
           n <- draw ;;
           let result_file_id := uuid4 n in
           Worker.insert_derived_file result_file_id output_key output_bucket output_key
                                      output_size "application/octet-stream" file_id ;;
           db_commit ;;
           update_job_status job_id JobStatus.COMPLETED None (Some result_file_id) ;;
           Worker.mark_file_ready file_id
         else ret tt) ;;
        Worker.cleanup input_path output_path)
       (fun e => update_job_status job_id JobStatus.FAILED (Some (exc_str e)) None))
    db_close.

Definition callback : bytes -> M Delivery := Worker.callback process_security_job.
End Handlers.
End SecurityWorker.

(** ** [workers/ai_tagger/worker.py] *)

Module AIWorker.
Section Handlers.
Context `{Python, Gemini}.

Definition update_job_status (job_id : string) (status : JobStatus.t)
    (error_message : option string) : M unit :=
  Worker.update_job_status job_id status error_message None.

(** [analyze_image_with_gemini(image_path)] *)
Definition analyze_image_with_gemini (image_path : string) : M (list string) :=
  if negb (str_truthy GEMINI_API_KEY) then ret ["sample"; "image"; "auto-tagged"]
  else
    try_except
      (image_data <- read_file image_path ;;
       text <- lift (generate_content image_data) ;;
       let tags_text := str_strip text in
       let tags := List.map (fun tag => py_lower (str_strip tag)) (split "," tags_text) in
       ret (take 10 tags))
      (fun _ => ret ["error"; "auto-tag-failed"]).

(** The upsert of [file_metadata.ai_tags]; a new row needs its File
    ([file_metadata.file_id -> files.id]). *)
Definition store_tags (file_id : string) (tags : list string) : M unit :=
  d <- db_view ;;
  match file_metadata d !! file_id with
  | Some metadata =>
      now <- utcnow ;;
      db_update (fun d =>
        with_file_metadata
          (<[file_id := FileMetadata.mk (FileMetadata.id metadata) file_id (Some tags)
                          (FileMetadata.created_at metadata) now]> (file_metadata d)) d)
  | None =>
      n <- draw ;;
      created <- utcnow ;;
      updated <- utcnow ;;
      match files d !! file_id with
      | Some _ =>
          db_update (fun d =>
            with_file_metadata
              (<[file_id := FileMetadata.mk (uuid4 n) file_id (Some tags) created updated]>
                 (file_metadata d)) d)
      | None =>
          db_fail (Exc "IntegrityError" "insert or update on table file_metadata violates foreign key constraint")
      end
  end.

Definition process_ai_job (job_data : Envelope) : M unit :=
  let job_id := env_job_id job_data in
  let file_id := env_file_id job_data in
  let bucket := env_bucket job_data in
  let key := env_key job_data in
  let job_type := env_type job_data in
  SessionLocal ;;
  try_finally
    (try_except
       ((* Update job status to running *)
        update_job_status job_id JobStatus.RUNNING None ;;
        (* Download file from MinIO *)
        input_path <- NamedTemporaryFile (Path.suffix key) ;;
        s3_download_file bucket key input_path ;;
        (if String.eqb job_type "ai_tag" then
           tags <- analyze_image_with_gemini input_path ;;
           (* Store tags in file_metadata using ORM *)
           store_tags file_id tags ;;
           (* Update file status to READY *)
           file <- Worker.query_file file_id ;;
           match file with
           | Some file =>
               db_update (fun d =>
                 with_files (<[file_id := File.set_status FileStatus.READY file]> (files d)) d)
           | None => ret tt
           end ;;
           db_commit ;;
           update_job_status job_id JobStatus.COMPLETED None
         else ret tt) ;;
        (* Cleanup *)
        os_unlink input_path)
       (fun e => update_job_status job_id JobStatus.FAILED (Some (exc_str e))))
    db_close.

Definition callback : bytes -> M Delivery := Worker.callback process_ai_job.
End Handlers.
End AIWorker.

(** ** The rest of [backend/app/services/minio.py] *)

(** [s.replace(old, new)] for a non-empty [old]: the occurrences are
    found from the left and do not overlap. *)
Fixpoint starts_with (p l : list ascii) : bool :=
  match p, l with
  | [], _ => true
  | a :: p', b :: l' => Ascii.eqb a b && starts_with p' l'
  | _ :: _, [] => false
  end.

Fixpoint replace_chars (old new : list ascii) (skip : nat) (l : list ascii) : list ascii :=
  match l with
  | [] => []
  | c :: l' =>
      match skip with
      | S k => replace_chars old new k l'
      | O =>
          if starts_with old l then new ++ replace_chars old new (length old - 1) l'
          else c :: replace_chars old new 0 l'
      end
  end.

Definition replace (old new s : string) : string :=
  of_chars (replace_chars (chars old) (chars new) 0 (chars s)).

(** [client.generate_presigned_url(method, Params={'Bucket': bucket,
    'Key': key}, ExpiresIn=expires_in)]: the signature is computed from
    the credentials, without a request to the store. *)
Class Boto3 := {
  generate_presigned_url : string -> string -> string -> nat -> string
}.

Module MinIOClient.
Section Urls.
Context `{Boto3}.

Definition generate_upload_url (bucket key : string) (expires_in : nat) : string :=
  let url := generate_presigned_url "put_object" bucket key expires_in in
  (* Replace MinIO URL with NGINX proxy URL for browser access *)
  let url := replace "http://minio:9000/" "http://localhost/minio/" url in
  let url := replace "minio:9000/" "localhost/minio/" url in
  url.

Definition generate_download_url (bucket key : string) (expires_in : nat) : string :=
  let url := generate_presigned_url "get_object" bucket key expires_in in
  let url := replace "http://minio:9000/" "http://localhost/minio/" url in
  let url := replace "minio:9000/" "localhost/minio/" url in
  url.
End Urls.

Definition download_file (bucket key file_path : string) : M unit :=
  s3_download_file bucket key file_path.

Definition no_such_object : PyExc :=
  Exc "NoSuchKey" "An error occurred (NoSuchKey) when calling the GetObject operation: The specified key does not exist.".

(** [client.get_object(Bucket=bucket, Key=key)]: the body of the
    object. *)
Definition get_object (bucket key : string) : M bytes :=
  w <- get ;;
  match objects w !! (bucket, key) with
  | Some data => ret data
  | None => raise no_such_object
  end.
End MinIOClient.

(** ** The queues of [backend/app/services/rabbitmq.py] *)

Module RabbitMQQueues.
(** The list literal of [_declare_queues]: the queues declared, durable,
    when the connection is made. *)
Definition queues : list string :=
  ["image_queue"; "video_queue"; "metadata_queue"; "security_queue"; "ai_queue";
   "generic_queue"].
End RabbitMQQueues.

(** ** The read endpoints of [backend/app/api/files.py] *)

Definition JobStatus_value (s : JobStatus.t) : string :=
  match s with
  | JobStatus.QUEUED => "QUEUED"
  | JobStatus.RUNNING => "RUNNING"
  | JobStatus.COMPLETED => "COMPLETED"
  | JobStatus.FAILED => "FAILED"
  end.

Definition FileStatus_value (s : FileStatus.t) : string :=
  match s with
  | FileStatus.UPLOADED => "uploaded"
  | FileStatus.PROCESSING => "processing"
  | FileStatus.READY => "ready"
  | FileStatus.FAILED => "failed"
  end.

Definition double_quote : ascii := Ascii.ascii_of_nat 34.

(** The rows of a table, as a query without [ORDER BY] returns them. *)
Definition rows {A} (table : gmap string A) : list A := (map_to_list table).*2.

(** [ORDER BY created_at] and [ORDER BY created_at DESC]: rows with the
    same time come in an order the database chooses; here it is the one
    of a stable sort of [rows]. *)
Definition newer {A} (created_at : A -> nat) : relation A :=
  fun a b => created_at b <= created_at a.
Definition older {A} (created_at : A -> nat) : relation A :=
  fun a b => created_at a <= created_at b.

#[global] Instance newer_dec {A} (created_at : A -> nat) : RelDecision (newer created_at).
Proof. intros a b. unfold newer. apply _. Defined.
#[global] Instance older_dec {A} (created_at : A -> nat) : RelDecision (older created_at).
Proof. intros a b. unfold older. apply _. Defined.

Definition newest_first {A} (created_at : A -> nat) (l : list A) : list A :=
  merge_sort (newer created_at) l.
Definition oldest_first {A} (created_at : A -> nat) (l : list A) : list A :=
  merge_sort (older created_at) l.

Module FileViews.
(** The entries of [jobs] and [processed_outputs] in the body of
    [get_file], and the body.  Times stay as the rows have them; an id is
    a UUID, which is truthy, so [str(x) if x else None] is [x]. *)
Record JobData := mkJobData {
  jd_id : string;
  jd_file_id : string;
  jd_type : string;
  jd_status : string;
  jd_result_file_id : option string;
  jd_error_message : option string;
  jd_created_at : nat;
  jd_updated_at : nat
}.

Record ProcessedData := mkProcessedData {
  pd_id : string;
  pd_original_name : string;
  pd_storage_key : string;
  pd_size_bytes : nat;
  pd_mime_type : option string;
  pd_status : string;
  pd_created_at : nat
}.

Record FileDetail := mkFileDetail {
  fd_id : string;
  fd_owner_id : string;
  fd_original_name : string;
  fd_storage_bucket : string;
  fd_storage_key : string;
  fd_size_bytes : nat;
  fd_mime_type : option string;
  fd_status : string;
  fd_created_at : nat;
  fd_is_processed_output : bool;
  fd_parent_file_id : option string;
  fd_jobs : list JobData;
  fd_processed_outputs : list ProcessedData;
  fd_ai_tags : list string
}.

(** [StreamingResponse(body, media_type=..., headers={'Content-Disposition': ...})] *)
Record StreamingResponse := mkStreamingResponse {
  sr_body : bytes;
  sr_media_type : string;
  sr_content_disposition : string
}.

Section Api.
Context `{Boto3}.

(** [db.query(File).filter(File.id == file_id, File.owner_id == user_id).first()] *)
Definition query_own_file (d : DB) (file_id user_id : string) : option File.t :=
  match files d !! file_id with
  | Some file => if bool_decide (File.owner_id file = user_id) then Some file else None
  | None => None
  end.

(** [GET /files]: each File with the [download_url] attribute set on
    it, if any. *)
Definition list_files (user_id : string) : M (list (File.t * option string)) :=
  Files.get_db (
    d <- db_view ;;
    let files :=
      newest_first File.created_at
        (filter (fun file => File.owner_id file = user_id
                             /\ File.is_processed_output file = false) (rows (files d))) in
    (* Add download URLs *)
    ret (List.map (fun file =>
           (file,
            if bool_decide (File.status file ∈ [FileStatus.UPLOADED; FileStatus.READY])
            then Some (MinIOClient.generate_download_url
                         (File.storage_bucket file) (File.storage_key file) 3600)
            else None)) files)).

Definition job_data (job : Job.t) : JobData :=
  mkJobData (Job.id job) (Job.file_id job) (JobType.value (Job.type job))
            (JobStatus_value (Job.status job))
            (Job.result_file_id job)
            (Job.error_message job) (Job.created_at job) (Job.updated_at job).

Definition processed_data (pf : File.t) : ProcessedData :=
  mkProcessedData (File.id pf) (File.original_name pf) (File.storage_key pf)
                  (File.size_bytes pf) (File.mime_type pf) (FileStatus_value (File.status pf))
                  (File.created_at pf).

(** [GET /files/{file_id}] *)
Definition get_file (file_id user_id : string) : M FileDetail :=
  Files.get_db (
    d <- db_view ;;
    match query_own_file d file_id user_id with
    | None => raise Files.http_404
    | Some file =>
        (* Get processed outputs *)
        let processed_files :=
          filter (fun pf => File.parent_file_id pf = Some file_id
                            /\ File.is_processed_output pf = true) (rows (files d)) in
        (* Get AI tags from metadata if available *)
        let ai_tags :=
          match file_metadata d !! file_id with
          | Some metadata =>
              match FileMetadata.ai_tags metadata with
              | Some (tag :: tags) => tag :: tags
              | _ => []
              end
          | None => []
          end in
        (* [file.jobs] *)
        let jobs_data :=
          List.map job_data (filter (fun job => Job.file_id job = file_id) (rows (jobs d))) in
        let processed_data := List.map processed_data processed_files in
        ret (mkFileDetail (File.id file) (File.owner_id file) (File.original_name file)
               (File.storage_bucket file) (File.storage_key file) (File.size_bytes file)
               (File.mime_type file) (FileStatus_value (File.status file))
               (File.created_at file) (File.is_processed_output file)
               (File.parent_file_id file)
               jobs_data processed_data ai_tags)
    end).

(** [GET /files/{file_id}/jobs] *)
Definition get_file_jobs (file_id user_id : string) : M (list Job.t) :=
  Files.get_db (
    d <- db_view ;;
    (* Verify file ownership *)
    match query_own_file d file_id user_id with
    | None => raise Files.http_404
    | Some file =>
        ret (oldest_first Job.created_at
               (filter (fun job => Job.file_id job = file_id) (rows (jobs d))))
    end).

Definition http_500 : PyExc := Exc "HTTPException" "500: Failed to download file".

(** [GET /files/{file_id}/download] *)
Definition download_file (file_id user_id : string) : M StreamingResponse :=
  Files.get_db (
    d <- db_view ;;
    match query_own_file d file_id user_id with
    | None => raise Files.http_404
    | Some file =>
        (* Get file from MinIO *)
        try_except
          (obj <- MinIOClient.get_object (File.storage_bucket file) (File.storage_key file) ;;
           ret (mkStreamingResponse obj
                  (if opt_str_truthy (File.mime_type file)
                   then default "" (File.mime_type file)
                   else "application/octet-stream")
                  ("attachment; filename=" +:+ String double_quote (File.original_name file)
                   +:+ String double_quote "")))
          (fun _ => raise http_500)
    end).
End Api.
End FileViews.

(** ** [backend/app/api/jobs.py] *)

Module Jobs.
Definition http_404 : PyExc := Exc "HTTPException" "404: Job not found".
Definition http_403 : PyExc := Exc "HTTPException" "403: Not authorized to view this job".

(** [GET /jobs/{job_id}]; [job.file] is [None] when the File row is not
    there. *)
Definition get_job (job_id user_id : string) : M Job.t :=
  Files.get_db (
    d <- db_view ;;
    match jobs d !! job_id with
    | None => raise http_404
    | Some job =>
        (* Verify ownership through file *)
        match files d !! Job.file_id job with
        | Some file =>
            if bool_decide (File.owner_id file <> user_id) then raise http_403
            else ret job
        | None =>
            raise (Exc "AttributeError" "'NoneType' object has no attribute 'owner_id'")
        end
    end).

(** [GET /jobs] *)
Definition list_jobs (user_id : string) : M (list Job.t) :=
  Files.get_db (
    d <- db_view ;;
    ret (newest_first Job.created_at
           (filter (fun job => File.owner_id <$> files d !! Job.file_id job = Some user_id)
                   (rows (jobs d))))).
End Jobs.

(** ** A concrete environment, to run the code on examples *)

Module Demo.
Definition digit_of (c : ascii) : option Z :=
  let n := Ascii.nat_of_ascii c in
  if (48 <=? n)%nat && (n <=? 57)%nat then Some (Z.of_nat (n - 48)) else None.

Fixpoint digits (acc : Z) (l : list ascii) : option Z :=
  match l with
  | [] => Some acc
  | c :: l' =>
      match digit_of c with
      | Some d => digits (10 * acc + d) l'
      | None => None
      end
  end.

(** [int(s)] on plain decimal numerals. *)
Definition int (s : string) : PyExc + Z :=
  match chars s with
  | [] => inl (Exc "ValueError" "invalid literal for int() with base 10: ''")
  | l =>
      match digits 0 l with
      | Some z => inr z
      | None => inl (Exc "ValueError" ("invalid literal for int() with base 10: '" +:+ s +:+ "'"))
      end
  end.

Definition upper_char (c : ascii) : ascii :=
  let n := Ascii.nat_of_ascii c in
  if (97 <=? n)%nat && (n <=? 122)%nat then Ascii.ascii_of_nat (n - 32) else c.
Definition lower_char (c : ascii) : ascii :=
  let n := Ascii.nat_of_ascii c in
  if (65 <=? n)%nat && (n <=? 90)%nat then Ascii.ascii_of_nat (n + 32) else c.

Definition str (v : json) : string :=
  match v with
  | JStr s => s
  | JNum z => pretty z
  | JBool true => "True"
  | JBool false => "False"
  | JNull => "None"
  | _ => "<object>"
  end.

Definition dq : ascii := Ascii.ascii_of_nat 34.

(** A JSON array of strings without escapes; the requests of the
    examples need no more. *)
Definition unquote (s : string) : option json :=
  match chars (str_strip s) with
  | c :: l =>
      match rev l with
      | c' :: m => if Ascii.eqb c dq && Ascii.eqb c' dq then Some (JStr (of_chars (rev m))) else None
      | [] => None
      end
  | [] => None
  end.

Definition loads (s : string) : PyExc + json :=
  let bad := inl (Exc "JSONDecodeError" "Expecting value") in
  match chars (str_strip s) with
  | "["%char :: l =>
      match rev l with
      | "]"%char :: m =>
          let inner := of_chars (rev m) in
          if String.eqb (str_strip inner) "" then inr (JArr [])
          else match mapM unquote (split "," inner) with
               | Some items => inr (JArr items)
               | None => bad
               end
      | _ => bad
      end
  | _ => bad
  end.

#[export] Instance python : Python := {|
  uuid4 n := "00000000-0000-4000-8000-" +:+ pretty n;
  tmp_random n := pretty n;
  py_int := int;
  py_upper s := of_chars (List.map upper_char (chars s));
  py_lower s := of_chars (List.map lower_char (chars s));
  py_str := str;
  sha256 b := b;
  json_loads := loads;
  decode_envelope _ := inl (Exc "JSONDecodeError" "Expecting value")
|}.

(** Encoders that return a marker followed by their input. *)
#[export] Instance pillow : Pillow := {|
  pil_thumbnail img _ := inr (x01 :: img);
  pil_convert img _ _ := inr (x02 :: img);
  pil_compress img _ := inr (x03 :: img)
|}.

#[export] Instance ffmpeg : FFmpeg := {|
  ffmpeg_run _ video := inr (x04 :: video)
|}.

(** A scanner that flags files starting with the byte [ff]. *)
#[export] Instance clamav : ClamAV := {|
  clamd_scan path data :=
    match data with
    | xff :: _ => ClamFound ("{'" +:+ path +:+ "': ('FOUND', 'Eicar-Test-Signature')}")
    | _ => ClamNone
    end
|}.

(** A stand-in for Fernet with the same interface: a key is 44
    characters of the URL-safe alphabet, a token is the key followed by
    the plaintext, and decryption checks the key. *)
Definition key_of (n : nat) : bytes :=
  replicate 42 x41 ++ [if Nat.even n then x41 else x42; x3d].

Definition invalid_token : PyExc := Exc "InvalidToken" "".

Definition open_token (key token : bytes) : PyExc + bytes :=
  if bool_decide (take (length key) token = key) && bool_decide (length key = 44%nat)
  then inr (drop (length key) token)
  else inl invalid_token.

#[export] Instance fernet : Fernet := {|
  generate_key := key_of;
  fernet_encrypt key _ data := inr (key ++ data)%list;
  fernet_decrypt := open_token
|}.

#[export] Instance zipfile : Zipfile := {|
  zip_deflated name data := (List.map byte_of_ascii (chars name) ++ data)%list
|}.

#[export] Instance gemini : Gemini := {|
  GEMINI_API_KEY := "";
  generate_content _ := inr "Cat, Animal , pet"
|}.

#[export] Instance boto3 : Boto3 := {|
  generate_presigned_url method bucket key expires_in :=
    "http://minio:9000/" +:+ bucket +:+ "/" +:+ key +:+ "?X-Amz-Expires=" +:+ pretty expires_in
|}.

Definition empty_db : DB := mkDB ∅ ∅ ∅ ∅.
Definition empty_world : World := mkWorld empty_db empty_db false [] ∅ ∅ [] [] 0 0.
End Demo.

(** ** The routing table of the specification (section 4.D) *)

(** Written from the table's rows, to compare with the dict of
    [get_queue_for_job_type]. *)
Definition routing_table (action : JobType.t) : string :=
  match action with
  | JobType.THUMBNAIL | JobType.IMAGE_CONVERT | JobType.IMAGE_COMPRESS
  | JobType.METADATA => "image_queue"
  | JobType.VIDEO_THUMBNAIL | JobType.VIDEO_PREVIEW | JobType.VIDEO_CONVERT => "video_queue"
  | JobType.COMPRESS | JobType.ENCRYPT | JobType.DECRYPT | JobType.VIRUS_SCAN => "security_queue"
  | JobType.AI_TAG => "ai_queue"
  end.

(** The queue of an arbitrary action string: the table's row for a member
    of ActionKind, the default row for anything else. *)
Definition routed (action : string) : string :=
  match JobType.of_value action with
  | Some t => routing_table t
  | None => "image_queue"
  end.

(** ** What is assumed of Fernet *)

(** The documented contract of [cryptography.fernet]: [generate_key]
    returns URL-safe base64 text, which has no whitespace in it;
    encryption under a generated key succeeds; and decryption under the
    same key gives the plaintext back. *)
Class FernetLaws `{Fernet} : Prop := {
  generate_key_base64 : forall n, Forall (fun b => is_space b = false) (generate_key n);
  fernet_round_trip : forall n r data,
    exists token, fernet_encrypt (generate_key n) r data = inr token
                  /\ fernet_decrypt (generate_key n) token = inr data
}.

(** ** Names of the DECRYPT output *)

(** The input name without a trailing [.enc] (lines 246-247 of the
    security worker). *)
Definition without_enc (original_name : string) : string :=
  if endswith original_name ".enc" then drop_right 4 original_name else original_name.

(** The key the DECRYPT branch builds (line 256). *)
Definition decrypted_key (original_name : string) : string :=
  Path.stem (without_enc original_name) +:+ "_decrypted"
  +:+ Path.suffix (without_enc original_name).

(** ** Vocabulary for stating what a run does *)

(** The world after a successful [db.commit()]. *)
Definition committed (w : World) : World :=
  with_events (events w ++ [EvCommit (session w)])
              (with_tx_deleted [] (with_db (session w) w)).

(** The session accepts statements and has no File deletion pending. *)
Definition tx_ok (w : World) : Prop := tx_failed w = false /\ tx_deleted w = [].

(** The row [update_job_status] writes. *)
Definition updated_job (status : JobStatus.t) (error_message result_file_id : option string)
    (now : nat) (job : Job.t) : Job.t :=
  let job := Job.set_updated_at now (Job.set_status status job) in
  let job := if opt_str_truthy error_message
             then Job.set_error_message (default "" error_message) job else job in
  if opt_str_truthy result_file_id
  then Job.set_result_file_id (default "" result_file_id) job else job.

Definition put_job (job_id : string) (job : Job.t) (w : World) : World :=
  with_session (with_jobs (<[job_id := job]> (jobs (session w))) (session w)) w.

Definition put_file (file_id : string) (file : File.t) (w : World) : World :=
  with_session (with_files (<[file_id := file]> (files (session w))) (session w)) w.

(** The temporary directory after [Worker.cleanup]. *)
Definition cleaned (input_path : string) (output_path : option string)
    (t : gmap string bytes) : gmap string bytes :=
  let t1 := delete input_path t in
  if opt_str_truthy output_path && bool_decide (is_Some (t1 !! default "" output_path))
  then delete (default "" output_path) t1
  else t1.

(** The message of a clean scan and of a finding (lines 205 and 220 of the
    security worker). *)
Definition clean_message : string := "✓ No virus found - File is clean".
Definition virus_message (scan_result : string) : string :=
  "⚠ Virus detected: " +:+ scan_result.

(** The world after the first three statements of the image, security and
    AI workers: the session is open, the job is RUNNING and committed, and
    the input is in a temporary file. *)
Definition started {PY : Python} (e : Envelope) (job : Job.t) (data : bytes) (w : World) : World :=
  let w0 := reset_session w in
  let w1 := committed (put_job (env_job_id e)
                         (updated_job JobStatus.RUNNING None None (clock w0) job)
                         (with_clock (S (clock w0)) w0)) in
  let path := tmp_path (entropy w) (Path.suffix (env_key e)) in
  with_tmpfs (<[path := data]> (<[path := []]> (tmpfs w)))
             (with_entropy (S (entropy w)) w1).

(** ** A small installation, for examples *)

Module Scenario.
Import Demo.

(** One user, one uploaded file, one queued job on it. *)
Definition upload (name : string) (status : FileStatus.t) : File.t :=
  File.mk "f1" "u1" name "raw" ("u1/f1_" +:+ name) 2 (Some "application/octet-stream")
          status 0 false None.

Definition job (type : JobType.t) (status : JobStatus.t) : Job.t :=
  Job.mk "j1" "f1" None type status 1 1 None None [].

Definition world (name : string) (fstatus : FileStatus.t) (type : JobType.t)
    (jstatus : JobStatus.t) (blob : bytes) : World :=
  let d := mkDB (<["j1" := job type jstatus]> ∅) (<["f1" := upload name fstatus]> ∅) ∅ ∅ in
  mkWorld d d false [] (<[("raw", "u1/f1_" +:+ name) := blob]> ∅) ∅ [] [] 10 0.

Definition envelope (name : string) (type : JobType.t) : Envelope :=
  mkEnvelope "j1" "f1" "raw" ("u1/f1_" +:+ name) (JobType.value type) [].

(** The JSON text of a list of action names. *)
Definition quoted (s : string) : string := String dq s +:+ String dq "".
Definition actions_json (l : list string) : string :=
  "[" +:+ String.concat "," (List.map quoted l) +:+ "]".

(** What ENCRYPT writes for [plain] under the example Fernet. *)
Definition container (plain : bytes) : bytes :=
  key_of 0 ++ [x0a] ++ (key_of 0 ++ plain).
(** The installation after the thumbnail job on "cat.png" has run: the
    job is COMPLETED and has the derived File as its result. *)
Definition processed : World :=
  (ImageWorker.process_image_job (envelope "cat.png" JobType.THUMBNAIL)
     (world "cat.png" FileStatus.PROCESSING JobType.THUMBNAIL JobStatus.QUEUED
            [x68; x69])).2.

Definition derived_id : string := "00000000-0000-4000-8000-2".

(** The same with a File derived from the derived File. *)
Definition nested : World :=
  let g := File.mk "f3" "u1" "cat_thumb_small.png" "processed" "u1/f3_cat_thumb_small.png"
                   1 (Some "image/png") FileStatus.READY 12 true (Some derived_id) in
  let d := with_files (<["f3" := g]> (files (db processed))) (db processed) in
  with_session d (with_db d processed).
End Scenario.

(** The File row [upload_file] inserts. *)
Definition uploaded_row (file_id user_id filename : string) (content : bytes)
    (content_type : option string) (created : nat) (status : FileStatus.t) : File.t :=
  File.mk file_id user_id filename "raw" (user_id +:+ "/" +:+ file_id +:+ "_" +:+ filename)
          (length content)
          (Some (if opt_str_truthy content_type then default "" content_type
                 else "application/octet-stream"))
          status created false None.


(** ** Triples *)

(** [hoare P m Q E]: started in a world satisfying [P], the computation
    [m] (it always terminates) either returns [a] in a world satisfying
    [Q a], or raises in a world satisfying [E]. *)
Definition hoare {A} (P : World -> Prop) (m : M A) (Q : A -> World -> Prop)
    (E : World -> Prop) : Prop :=
  forall w, P w ->
    match m w with
    | (Ret a, w') => Q a w'
    | (Raise _, w') => E w'
    end.

(** [keeps view m]: [m] leaves the [view] of the world as it found it,
    whether it returns or raises. *)
Definition keeps {A B} (view : World -> B) (m : M A) : Prop :=
  forall w, view (m w).2 = view w.

(** What the database server and the open session hold. *)
Definition db_part (w : World) : DB * DB * bool * list string :=
  (db w, session w, tx_failed w, tx_deleted w).

(** ** The state of one job and its subject File, as the database sees it *)

Section JobState.
Variables job_id file_id : string.

Definition job_not_completed (d : DB) : Prop :=
  forall j, jobs d !! job_id = Some j -> Job.status j <> JobStatus.COMPLETED.

Definition file_there (d : DB) : Prop := is_Some (files d !! file_id).

Definition file_ready (d : DB) : Prop :=
  exists f, files d !! file_id = Some f /\ File.status f = FileStatus.READY.

(** What C10 asks of the committed rows. *)
Definition completed_implies_ready (d : DB) : Prop :=
  forall j, jobs d !! job_id = Some j -> Job.status j = JobStatus.COMPLETED ->
            file_ready d.

(** The session has just been opened on a database that has the File. *)
Definition opened (p : DB * DB * bool * list string) : Prop :=
  let '(d, s, failed, deleted) := p in
  failed = false /\ deleted = [] /\ s = d /\ file_there d.

(** The job is under way: it is not COMPLETED in the committed rows, nor in
    what the session would commit. *)
Definition running (p : DB * DB * bool * list string) : Prop :=
  let '(d, s, failed, deleted) := p in
  deleted = [] /\ file_there d /\ job_not_completed d
  /\ (failed = false -> file_there s /\ job_not_completed s).

(** The File is READY in the committed rows and in what the session would
    commit. *)
Definition settled (p : DB * DB * bool * list string) : Prop :=
  let '(d, s, failed, deleted) := p in
  deleted = [] /\ file_ready d /\ (failed = false -> file_ready s).

Definition sound (p : DB * DB * bool * list string) : Prop := running p \/ settled p.
End JobState.

(** The world in which the row of [job_id], if there is one, has status
    [s]: what a redelivery finds when [s] is terminal. *)
Definition with_job_status (job_id : string) (s : JobStatus.t) (w : World) : World :=
  with_db (with_jobs (alter (Job.set_status s) job_id (jobs (db w))) (db w)) w.

(** ** The order of publishes and commits within one request *)

Definition is_commit (ev : Event) : Prop :=
  match ev with EvCommit _ => True | _ => False end.

(** The request that started in [w0] has committed nothing so far; every
    envelope it has published names a Job row of the open session. *)
Definition upload_open (w0 w : World) : Prop :=
  db w = db w0 /\ tx_deleted w = []
  /\ exists new, events w = events w0 ++ new
                 /\ Forall (fun ev => ~ is_commit ev) new
                 /\ (tx_failed w = false ->
                     forall q m, EvPublish q m ∈ new ->
                                 is_Some (jobs (session w) !! env_job_id m)).

(** The request has committed once, after all its publishes, and the
    commit holds the Job row of every envelope. *)
Definition upload_committed (w0 w : World) : Prop :=
  exists pre, events w = events w0 ++ pre ++ [EvCommit (db w)]
              /\ Forall (fun ev => ~ is_commit ev) pre
              /\ forall q m, EvPublish q m ∈ pre -> is_Some (jobs (db w) !! env_job_id m).

(** The request has failed: nothing was committed. *)
Definition upload_failed (w0 w : World) : Prop :=
  db w = db w0
  /\ exists new, events w = events w0 ++ new /\ Forall (fun ev => ~ is_commit ev) new.

(** Views for framing. *)
Definition log_part (w : World) : DB * DB * bool * list string * list Event :=
  (db w, session w, tx_failed w, tx_deleted w, events w).

(** ** What [delete_file] removes, and in which order *)

Section Cascade.
Variable file_id : string.

(** The derived Files of [file_id]: the rows whose parent it is, as
    [delete_file] loads them. *)
Definition children (d : DB) : list (string * File.t) :=
  map_to_list (filter (fun kv => File.parent_file_id kv.2 = Some file_id) (files d)).

Definition child_of (d : DB) (c : string) : Prop :=
  exists f, files d !! c = Some f /\ File.parent_file_id f = Some file_id.

(** A Job on [file_id], or one whose result is a derived File of it. *)
Definition job_of (d : DB) (j : Job.t) : Prop :=
  Job.file_id j = file_id
  \/ exists c, child_of d c /\ Job.result_file_id j = Some c.

(** No Job has [file_id] as its result, and no derived File of [file_id]
    has derived Files of its own. *)
Definition deletable (d : DB) : Prop :=
  map_Forall (fun _ j => Job.result_file_id j <> Some file_id) (jobs d)
  /\ map_Forall (fun c child =>
       File.parent_file_id child = Some file_id ->
       map_Forall (fun _ f => File.parent_file_id f <> Some c) (files d)) (files d).

Definition jobs_removed (d0 d : DB) : Prop :=
  map_Forall (fun _ j => ~ job_of d0 j) (jobs d).

Definition children_removed (d0 d : DB) : Prop :=
  forall c, child_of d0 c -> files d !! c = None.

Definition blob_deleted (f : File.t) : Event :=
  EvDeleteObject (File.storage_bucket f) (File.storage_key f).

Definition blob_absent (w : World) (f : File.t) : Prop :=
  objects w !! (File.storage_bucket f, File.storage_key f) = None.

(** The request on [file] that started in [w] has ended in [w']: it
    committed three times.  The first commit [d1] removed the Jobs and
    left every File row; then the blobs of the derived Files were deleted
    and the second commit [d2] removed their rows, the row of [file] still
    there; then the blob of [file] was deleted and the last commit removed
    its row. *)
Definition cascade_deleted (file : File.t) (w w' : World) : Prop :=
  exists d1 d2,
    events w'
    = events w ++ [EvCommit d1] ++ ((fun pf => blob_deleted pf.2) <$> children (db w))
               ++ [EvCommit d2; blob_deleted file; EvCommit (db w')]
    /\ (jobs_removed (db w) d1 /\ files d1 = files (db w))
    /\ (jobs_removed (db w) d2 /\ children_removed (db w) d2
        /\ files d2 !! file_id = Some file)
    /\ (jobs_removed (db w) (db w') /\ children_removed (db w) (db w')
        /\ files (db w') !! file_id = None)
    /\ Forall (fun pf => blob_absent w' pf.2) (children (db w))
    /\ blob_absent w' file.

Variable w0 : World.

(** While the selected Jobs are being deleted: those in [done] are out of
    the session, and nothing else has changed. *)
Definition deleting_jobs (done : list (string * Job.t)) (w : World) : Prop :=
  tx_failed w = false /\ tx_deleted w = [] /\ db w = db w0
  /\ events w = events w0 /\ objects w = objects w0
  /\ files (session w) = files (db w0)
  /\ jobs (session w) ⊆ jobs (db w0)
  /\ Forall (fun j => jobs (session w) !! j.1 = None) done.

(** While the derived Files are being deleted, after the first commit
    [db w]: those in [done] are out of the session and of the object
    store. *)
Definition deleting_children (done : list (string * File.t)) (w : World) : Prop :=
  tx_failed w = false
  /\ tx_deleted w ⊆ done.*1
  /\ events w = events w0 ++ [EvCommit (db w)] ++ ((fun pf => blob_deleted pf.2) <$> done)
  /\ jobs_removed (db w0) (db w) /\ files (db w) = files (db w0)
  /\ jobs (session w) ⊆ jobs (db w) /\ jobs (db w) ⊆ jobs (db w0)
  /\ files (session w) ⊆ files (db w0)
  /\ (forall k, k ∉ done.*1 -> files (session w) !! k = files (db w0) !! k)
  /\ Forall (fun pf => files (session w) !! pf.1 = None /\ blob_absent w pf.2) done.

(** After the second commit [db w], the first having been [d1]. *)
Definition children_deleted (file : File.t) (w : World) : Prop :=
  exists d1,
    tx_failed w = false /\ tx_deleted w = [] /\ session w = db w
    /\ events w = events w0 ++ [EvCommit d1]
                  ++ ((fun pf => blob_deleted pf.2) <$> children (db w0))
                  ++ [EvCommit (db w)]
    /\ (jobs_removed (db w0) d1 /\ files d1 = files (db w0))
    /\ (jobs_removed (db w0) (db w) /\ children_removed (db w0) (db w)
        /\ files (db w) !! file_id = Some file)
    /\ jobs (db w) ⊆ jobs (db w0)
    /\ files (db w) ⊆ files (db w0)
    /\ Forall (fun pf => blob_absent w pf.2) (children (db w0)).
End Cascade.

(** ** What a successful upload leaves *)

(** The actions [upload_file] makes Jobs for: the elements of the parsed
    [pipeline_actions], none when the field is absent, empty or falsy. *)
Definition requested {PY : Python} (pipeline_actions : option string) : list json :=
  if opt_str_truthy pipeline_actions then
    match json_loads (default "" pipeline_actions) with
    | inr actions =>
        if truthy actions then
          match Files.iterate actions with
          | inr items => items
          | inl _ => []
          end
        else []
    | inl _ => []
    end
  else [].

Section Uploaded.
Context {PY : Python}.
Variables (filename : string) (content : bytes) (content_type : option string).
Variable user_id : string.
Variable w0 : World.

Definition new_file_id : string := uuid4 (entropy w0).
Definition new_storage_key : string :=
  user_id +:+ "/" +:+ new_file_id +:+ "_" +:+ filename.

(** The envelope [qm.2], published to [qm.1], is the one of a QUEUED Job
    of [d] on the new File, of the type [action] names, in a Pipeline of
    that File. *)
Definition announces (d : DB) (action : json) (qm : string * Envelope) : Prop :=
  qm.1 = Files.queue_for action
  /\ env_file_id qm.2 = new_file_id
  /\ env_bucket qm.2 = "raw"
  /\ env_key qm.2 = new_storage_key
  /\ env_params qm.2 = []
  /\ exists job pipeline,
       jobs d !! env_job_id qm.2 = Some job
       /\ Files.JobType_of action = inr (Job.type job)
       /\ env_type qm.2 = JobType.value (Job.type job)
       /\ Job.id job = env_job_id qm.2
       /\ Job.file_id job = new_file_id
       /\ Job.status job = JobStatus.QUEUED
       /\ Job.result_file_id job = None
       /\ Job.pipeline_id job = Some (Pipeline.id pipeline)
       /\ pipelines d !! Pipeline.id pipeline = Some pipeline
       /\ Pipeline.file_id pipeline = new_file_id.

(** The rows [d] are those of [db w0] with the new File in [status], one
    new Job for each action of [done], announced by [new]; a Job that is
    not a row of [db w0] is on the new File, QUEUED and without result. *)
Definition upload_rows (done : list json) (status : FileStatus.t) (d : DB)
    (new : list (string * Envelope)) : Prop :=
  files (db w0) !! new_file_id = None
  /\ files d
     = <[new_file_id := uploaded_row new_file_id user_id filename content content_type
                                     (clock w0) status]> (files (db w0))
  /\ jobs (db w0) ⊆ jobs d
  /\ map_Forall (fun k job =>
                  jobs (db w0) !! k = Some job
                  \/ (Job.file_id job = new_file_id /\ Job.status job = JobStatus.QUEUED
                      /\ Job.result_file_id job = None))
                (jobs d)
  /\ size (jobs d) = size (jobs (db w0)) + length done
  /\ pipelines (db w0) ⊆ pipelines d
  /\ Forall2 (announces d) done new.

(** The request under way: the blob is stored, nothing is committed, and
    the session holds the new rows. *)
Definition uploading (done : list json) (status : FileStatus.t) (w : World) : Prop :=
  tx_failed w = false /\ tx_deleted w = [] /\ db w = db w0
  /\ objects w = <[("raw", new_storage_key) := content]> (objects w0)
  /\ exists new, broker w = broker w0 ++ new /\ upload_rows done status (session w) new.

(** The request has succeeded for [actions]. *)
Definition uploaded (actions : list json) (w : World) : Prop :=
  objects w = <[("raw", new_storage_key) := content]> (objects w0)
  /\ exists new,
       broker w = broker w0 ++ new
       /\ upload_rows actions
            (match actions with [] => FileStatus.UPLOADED | _ => FileStatus.PROCESSING end)
            (db w) new.
End Uploaded.

(** ** How a worker's run on an envelope ends *)

(** [run] on [e] returns, and the committed Job row is FAILED with
    [message]; the File rows, the object store and the broker are as in
    [w]. *)
Definition job_failed_with (message : string) (e : Envelope) (w : World)
    (run : Envelope -> M unit) : Prop :=
  exists w' job',
    run e w = (Ret tt, w')
    /\ jobs (db w') !! env_job_id e = Some job'
    /\ Job.status job' = JobStatus.FAILED
    /\ Job.error_message job' = Some message
    /\ files (db w') = files (db w)
    /\ objects w' = objects w
    /\ broker w' = broker w.

(** [run] on [e] returns and leaves every row, object and envelope as in
    [w]. *)
Definition run_without_trace (e : Envelope) (w : World) (run : Envelope -> M unit) : Prop :=
  exists w',
    run e w = (Ret tt, w')
    /\ db w' = db w /\ objects w' = objects w /\ broker w' = broker w.

(** The File row a worker inserts for an output (the INSERT ... SELECT of
    [insert_derived_file]): READY, flagged as processed output, owned by
    the owner of [parent], its parent being [file_id]. *)
Definition derived_row (result_file_id : string) (parent : File.t)
    (original_name bucket key : string) (size : nat) (mime_type : string) (created : nat)
    (file_id : string) : File.t :=
  File.mk result_file_id (File.owner_id parent) original_name bucket key size
          (Some mime_type) FileStatus.READY created true (Some file_id).

(** [run] on [e] returns; the Job is COMPLETED with [derived] as its
    result; [derived] is a row of the committed database and its content
    [out] is in the store under its bucket and key; the subject File is
    READY. *)
Definition job_completed_with (derived : File.t) (out : bytes) (e : Envelope) (w : World)
    (run : Envelope -> M unit) : Prop :=
  exists w' job' file',
    run e w = (Ret tt, w')
    /\ jobs (db w') !! env_job_id e = Some job'
    /\ Job.status job' = JobStatus.COMPLETED
    /\ Job.result_file_id job' = Some (File.id derived)
    /\ files (db w') !! File.id derived = Some derived
    /\ objects w' !! (File.storage_bucket derived, File.storage_key derived) = Some out
    /\ files (db w') !! env_file_id e = Some file'
    /\ File.status file' = FileStatus.READY.

(** ** Whether a job has been decided *)

Section JobFate.
Variable job_id : string.

Definition terminal (j : Job.t) : Prop :=
  Job.status j = JobStatus.COMPLETED \/ Job.status j = JobStatus.FAILED.

Definition job_terminal (d : DB) : Prop :=
  exists j, jobs d !! job_id = Some j /\ terminal j.

(** The Job row is in the committed rows, and in what the session would
    commit. *)
Definition present (p : DB * DB * bool * list string) : Prop :=
  let '(d, s, failed, deleted) := p in
  deleted = [] /\ is_Some (jobs d !! job_id) /\ (failed = false -> is_Some (jobs s !! job_id)).

(** The Job row is COMPLETED or FAILED in the committed rows, and in what
    the session would commit. *)
Definition decided (p : DB * DB * bool * list string) : Prop :=
  let '(d, s, failed, deleted) := p in
  deleted = [] /\ job_terminal d /\ (failed = false -> job_terminal s).
End JobFate.

(** ** What a worker may write *)

(** The buckets the handlers name for their outputs. *)
Definition output_buckets : list string := ["thumbnails"; "processed"; "encrypted"].

(** Since [w0], nothing has been published, no object has been removed,
    and no object outside the output buckets has been written. *)
Definition untouched (w0 w : World) : Prop :=
  broker w = broker w0
  /\ (forall bucket key, is_Some (objects w0 !! (bucket, key)) ->
                         is_Some (objects w !! (bucket, key)))
  /\ (forall bucket key, bucket ∉ output_buckets ->
                         objects w !! (bucket, key) = objects w0 !! (bucket, key)).

(** What a worker can reach outside its database. *)
Definition outside (w : World) : list (string * Envelope) * gmap (string * string) bytes :=
  (broker w, objects w).

(** The bucket of a handler's result, if it names one, is an output
    bucket. *)
Definition names_output_bucket (output_bucket : option string) : Prop :=
  forall bucket, output_bucket = Some bucket -> bucket ∈ output_buckets.

(** [run] on [e] returns; the Job is in [status], its result column as
    it was; the File rows are those of [w], the subject File READY when
    [ready]; no object has been written. *)
Definition job_ends_without_output (status : JobStatus.t) (ready : bool) (e : Envelope)
    (w : World) (run : Envelope -> M unit) : Prop :=
  exists w' job job',
    run e w = (Ret tt, w')
    /\ jobs (db w) !! env_job_id e = Some job
    /\ jobs (db w') !! env_job_id e = Some job'
    /\ Job.status job' = status
    /\ Job.result_file_id job' = Job.result_file_id job
    /\ files (db w')
       = (if ready then alter (File.set_status FileStatus.READY) (env_file_id e) (files (db w))
          else files (db w))
    /\ objects w' = objects w.

(** ** What a request may remove *)

(** Every row of [d] is a row of [d0], as it is there. *)
Definition rows_within (d0 d : DB) : Prop :=
  jobs d ⊆ jobs d0 /\ files d ⊆ files d0 /\ pipelines d ⊆ pipelines d0
  /\ file_metadata d ⊆ file_metadata d0.

(** Since [w0] nothing has been added, changed or published: the
    committed rows, the rows of the session and the objects are among
    those of [w0]. *)
Definition only_removed (w0 w : World) : Prop :=
  rows_within (db w0) (db w) /\ rows_within (db w0) (session w)
  /\ objects w ⊆ objects w0 /\ broker w = broker w0.

(** The foreign keys into [files] hold in [d]: [jobs.file_id],
    [jobs.result_file_id] and [files.parent_file_id] name rows of
    [files]. *)
Definition foreign_keys_hold (d : DB) : Prop :=
  map_Forall (fun _ job =>
                is_Some (files d !! Job.file_id job)
                /\ forall r, Job.result_file_id job = Some r -> is_Some (files d !! r))
             (jobs d)
  /\ map_Forall (fun _ file =>
                   forall p, File.parent_file_id file = Some p -> is_Some (files d !! p))
                (files d).

(** Two users who have each uploaded a file called [name], with a
    thumbnail job on each. *)
Module Namesakes.
Import Demo.

Definition upload2 (name : string) : File.t :=
  File.mk "f2" "u2" name "raw" ("u2/f2_" +:+ name) 2 (Some "application/octet-stream")
          FileStatus.PROCESSING 0 false None.

Definition job2 : Job.t :=
  Job.mk "j2" "f2" None JobType.THUMBNAIL JobStatus.QUEUED 1 1 None None [].

Definition world (name : string) (blob1 blob2 : bytes) : World :=
  let d := mkDB (<["j1" := Scenario.job JobType.THUMBNAIL JobStatus.QUEUED]>
                   (<["j2" := job2]> ∅))
                (<["f1" := Scenario.upload name FileStatus.PROCESSING]>
                   (<["f2" := upload2 name]> ∅)) ∅ ∅ in
  mkWorld d d false []
          (<[("raw", "u1/f1_" +:+ name) := blob1]> (<[("raw", "u2/f2_" +:+ name) := blob2]> ∅))
          ∅ [] [] 10 0.

Definition envelope2 (name : string) : Envelope :=
  mkEnvelope "j2" "f2" "raw" ("u2/f2_" +:+ name) "thumbnail" [].
End Namesakes.

(** * Properties *)

(** ** The queue router *)

Lemma of_value_value (t : JobType.t) : JobType.of_value (JobType.value t) = Some t.
Proof. by destruct t. Qed.

Lemma of_value_Some (s : string) (t : JobType.t) :
  JobType.of_value s = Some t -> s = JobType.value t.
Proof.
  unfold JobType.of_value. intros Hfind.
  apply List.find_some in Hfind as [_ Heq].
  by apply String.eqb_eq in Heq.
Qed.

Lemma get_queue_unknown (s : string) :
  JobType.of_value s = None -> RabbitMQService.get_queue_for_job_type s = "image_queue".
Proof.
  intros Hnone.
  assert (Hne : forall t, JobType.value t <> s).
  { intros t Heq. rewrite <- Heq, of_value_value in Hnone. discriminate. }
  unfold RabbitMQService.get_queue_for_job_type, RabbitMQService.mapping. simpl.
  rewrite !lookup_insert_ne.
  - by rewrite lookup_empty.
  - exact (Hne JobType.AI_TAG).
  - exact (Hne JobType.VIRUS_SCAN).
  - exact (Hne JobType.DECRYPT).
  - exact (Hne JobType.ENCRYPT).
  - exact (Hne JobType.METADATA).
  - exact (Hne JobType.COMPRESS).
  - exact (Hne JobType.VIDEO_THUMBNAIL).
  - exact (Hne JobType.VIDEO_PREVIEW).
  - exact (Hne JobType.VIDEO_CONVERT).
  - exact (Hne JobType.IMAGE_COMPRESS).
  - exact (Hne JobType.THUMBNAIL).
  - exact (Hne JobType.IMAGE_CONVERT).
Qed.

(** C4. [get_queue_for_job_type] is the routing table: each of the twelve
    actions goes to the queue of its row, and every other string goes to
    [image_queue]. *)
Theorem get_queue_for_job_type_routing_table :
  (forall t : JobType.t,
     RabbitMQService.get_queue_for_job_type (JobType.value t) = routing_table t)
  /\ (forall action : string,
        RabbitMQService.get_queue_for_job_type action = routed action).
Proof.
  assert (Hmem : forall t : JobType.t,
            RabbitMQService.get_queue_for_job_type (JobType.value t) = routing_table t).
  { intros t. by destruct t; vm_compute. }
  split; [exact Hmem|].
  intros action. unfold routed.
  destruct (JobType.of_value action) as [t|] eqn:Hv.
  - apply of_value_Some in Hv as ->. apply Hmem.
  - by apply get_queue_unknown.
Qed.

(** ** The encrypted container *)

Lemma lstrip_head (b : byte) (l : bytes) :
  is_space b = false -> lstrip (b :: l) = b :: l.
Proof. intros Hb. simpl. by rewrite Hb. Qed.

Lemma readline_line (k rest : bytes) :
  Forall (fun b => is_space b = false) k ->
  readline (k ++ x0a :: rest) = (k ++ [x0a], rest).
Proof.
  induction 1 as [|b k Hb _ IH]; simpl; [done|].
  destruct (Byte.eqb b x0a) eqn:Heq.
  - apply Byte.byte_dec_bl in Heq. subst b. discriminate.
  - by rewrite IH.
Qed.

Lemma strip_line (k : bytes) :
  Forall (fun b => is_space b = false) k -> strip (k ++ [x0a]) = k.
Proof.
  intros Hk. unfold strip.
  destruct k as [|b k]; [done|].
  assert (Hb : is_space b = false) by (by inversion Hk).
  change ((b :: k) ++ [x0a]) with (b :: (k ++ [x0a])).
  rewrite (lstrip_head b _ Hb).
  change (b :: (k ++ [x0a])) with ((b :: k) ++ [x0a]).
  rewrite rev_app_distr.
  apply Forall_rev in Hk.
  assert (Hlen : length (rev (b :: k)) = S (length k)) by (by rewrite length_rev).
  rewrite <- (rev_involutive (b :: k)) at 2.
  destruct (rev (b :: k)) as [|c m]; [discriminate|].
  assert (Hc : is_space c = false) by (by inversion Hk).
  change (rev [x0a] ++ c :: m) with (x0a :: c :: m).
  change (lstrip (x0a :: c :: m)) with (lstrip (c :: m)).
  by rewrite (lstrip_head c _ Hc).
Qed.

Section Container.
Context `{Python, Fernet}.
Context `{!FernetLaws}.

(** What [encrypt_file] writes, and that it does not look at the
    password. *)
Lemma encrypt_file_run (password : string) (data : bytes) (input_path output_path : string)
    (w : World) :
  tmpfs w !! input_path = Some data ->
  exists token,
    fernet_encrypt (generate_key (entropy w)) (S (entropy w)) data = inr token
    /\ SecurityWorker.encrypt_file input_path output_path (JStr password) w
       = (Ret tt,
          with_tmpfs (<[output_path := generate_key (entropy w) ++ [x0a] ++ token]> (tmpfs w))
                     (with_entropy (S (S (entropy w))) w)).
Proof.
  intros Hin.
  destruct (fernet_round_trip (entropy w) (S (entropy w)) data) as (token & Henc & _).
  exists token. split; [done|].
  unfold SecurityWorker.encrypt_file, SecurityWorker.encode, bind, ret, draw, read_file,
    get, write_file, modify, lift.
  cbn. rewrite Hin. cbn. by rewrite Henc.
Qed.

Lemma decrypt_file_run (password : json) (key token plain : bytes)
    (input_path output_path : string) (w : World) :
  Forall (fun b => is_space b = false) key ->
  tmpfs w !! input_path = Some (key ++ [x0a] ++ token) ->
  fernet_decrypt key token = inr plain ->
  SecurityWorker.decrypt_file input_path output_path password w
  = (Ret tt, with_tmpfs (<[output_path := plain]> (tmpfs w)) w).
Proof.
  intros Hkey Hin Hdec.
  unfold SecurityWorker.decrypt_file, bind, ret, read_file, get, write_file, modify, lift.
  cbn -[readline strip]. rewrite Hin. cbn -[readline strip].
  rewrite (readline_line key token Hkey), (strip_line key Hkey), Hdec.
  done.
Qed.

(** Encrypting under one password and decrypting under another gives
    the input back. *)
Lemma crypt_round_trip (p1 p2 : string) (data : bytes)
    (input_path encrypted_path output_path : string) (w : World) :
  tmpfs w !! input_path = Some data ->
  exists w1 w2,
    SecurityWorker.encrypt_file input_path encrypted_path (JStr p1) w = (Ret tt, w1)
    /\ SecurityWorker.decrypt_file encrypted_path output_path (JStr p2) w1 = (Ret tt, w2)
    /\ tmpfs w2 !! output_path = Some data.
Proof.
  intros Hin.
  destruct (encrypt_file_run p1 data input_path encrypted_path w Hin)
    as (token & Henc & Hrun).
  destruct (fernet_round_trip (entropy w) (S (entropy w)) data) as (token' & Henc' & Hdec).
  assert (token' = token) as -> by congruence.
  eexists _, _. split; [exact Hrun|]. split.
  - eapply decrypt_file_run; [apply generate_key_base64| |exact Hdec].
    cbn. apply lookup_insert_eq.
  - cbn. apply lookup_insert_eq.
Qed.
End Container.

(** C6. ENCRYPT then DECRYPT under the same credential gives the bytes
    back: for every input file, credential and choice of paths,
    [encrypt_file] succeeds, [decrypt_file] succeeds on what it wrote, and
    the decrypted file holds the original bytes. *)
Theorem encrypt_then_decrypt_same_credential {PY : Python} {FN : Fernet} {FL : FernetLaws}
    (credential : string) (data : bytes)
    (input_path encrypted_path output_path : string) (w : World) :
  tmpfs w !! input_path = Some data ->
  exists w1 w2,
    SecurityWorker.encrypt_file input_path encrypted_path (JStr credential) w = (Ret tt, w1)
    /\ SecurityWorker.decrypt_file encrypted_path output_path (JStr credential) w1 = (Ret tt, w2)
    /\ tmpfs w2 !! output_path = Some data.
Proof. apply crypt_round_trip. Qed.

(** C9. The password plays no part: [encrypt_file] writes the same
    container whatever the password, its first line is the fresh key,
    and decrypting under any other password succeeds with the original
    bytes. *)
Theorem decryption_ignores_password {PY : Python} {FN : Fernet} {FL : FernetLaws}
    (p1 p2 : string) (data : bytes)
    (input_path encrypted_path output_path : string) (w : World) :
  tmpfs w !! input_path = Some data ->
  SecurityWorker.encrypt_file input_path encrypted_path (JStr p1) w
  = SecurityWorker.encrypt_file input_path encrypted_path (JStr p2) w
  /\ exists w1 w2 container,
       SecurityWorker.encrypt_file input_path encrypted_path (JStr p1) w = (Ret tt, w1)
       /\ tmpfs w1 !! encrypted_path = Some container
       /\ strip (readline container).1 = generate_key (entropy w)
       /\ SecurityWorker.decrypt_file encrypted_path output_path (JStr p2) w1 = (Ret tt, w2)
       /\ tmpfs w2 !! output_path = Some data.
Proof.
  intros Hin. split.
  - destruct (encrypt_file_run p1 data input_path encrypted_path w Hin) as (t1 & He1 & ->).
    destruct (encrypt_file_run p2 data input_path encrypted_path w Hin) as (t2 & He2 & ->).
    congruence.
  - destruct (encrypt_file_run p1 data input_path encrypted_path w Hin)
      as (token & Henc & Hrun).
    destruct (crypt_round_trip p1 p2 data input_path encrypted_path output_path w Hin)
      as (w1 & w2 & Hrun' & Hdec & Hout).
    exists w1, w2, (generate_key (entropy w) ++ [x0a] ++ token).
    split; [done|].
    assert (w1 = with_tmpfs
                   (<[encrypted_path := generate_key (entropy w) ++ [x0a] ++ token]> (tmpfs w))
                   (with_entropy (S (S (entropy w))) w)) as -> by congruence.
    split; [cbn; apply lookup_insert_eq|].
    split; [|done].
    pose proof (generate_key_base64 (entropy w)) as Hkey.
    change (generate_key (entropy w) ++ [x0a] ++ token)
      with (generate_key (entropy w) ++ x0a :: token).
    rewrite (readline_line _ token Hkey). simpl fst.
    by apply strip_line.
Qed.

(** The stand-in of the examples keeps the contract. *)
Lemma demo_fernet_laws : @FernetLaws Demo.fernet.
Proof.
  split.
  - intros n. simpl. unfold Demo.key_of.
    destruct (Nat.even n); by vm_compute; repeat constructor.
  - intros n r data. exists (Demo.key_of n ++ data). split; [done|].
    change (Demo.open_token (Demo.key_of n) (Demo.key_of n ++ data) = inr data).
    unfold Demo.open_token.
    rewrite take_app_length, drop_app_length.
    rewrite bool_decide_eq_true_2 by done.
    rewrite bool_decide_eq_true_2; [done|].
    unfold Demo.key_of. by destruct (Nat.even n).
Qed.

Section ContainerExamples.
Import Demo.

Lemma encrypt_then_decrypt_same_credential_witness :
let w := with_tmpfs (<["/tmp/in" := [x68; x69]]> ∅) Demo.empty_world in
exists w1 w2,
  SecurityWorker.encrypt_file "/tmp/in" "/tmp/out.enc" (JStr "hunter2") w = (Ret tt, w1)
  /\ SecurityWorker.decrypt_file "/tmp/out.enc" "/tmp/back" (JStr "hunter2") w1 = (Ret tt, w2)
  /\ tmpfs w2 !! "/tmp/back" = Some [x68; x69].
Proof.
apply (encrypt_then_decrypt_same_credential (FL := demo_fernet_laws)).
reflexivity.
Defined.

Lemma decryption_ignores_password_witness :
let w := with_tmpfs (<["/tmp/in" := [x68; x69]]> ∅) Demo.empty_world in
SecurityWorker.encrypt_file "/tmp/in" "/tmp/out.enc" (JStr "hunter2") w
= SecurityWorker.encrypt_file "/tmp/in" "/tmp/out.enc" (JStr "swordfish") w
/\ exists w1 w2 container,
     SecurityWorker.encrypt_file "/tmp/in" "/tmp/out.enc" (JStr "hunter2") w = (Ret tt, w1)
     /\ tmpfs w1 !! "/tmp/out.enc" = Some container
     /\ strip (readline container).1 = generate_key (entropy w)
     /\ SecurityWorker.decrypt_file "/tmp/out.enc" "/tmp/back" (JStr "swordfish") w1 = (Ret tt, w2)
     /\ tmpfs w2 !! "/tmp/back" = Some [x68; x69].
Proof.
apply (decryption_ignores_password (FL := demo_fernet_laws)).
reflexivity.
Defined.

End ContainerExamples.

(** ** Running the primitives *)

Lemma bind_run {A B} (m : M A) (k : A -> M B) (w w' : World) (a : A) :
  m w = (Ret a, w') -> bind m k w = k a w'.
Proof. unfold bind. by intros ->. Qed.

Lemma bind_bind {A B C} (m : M A) (k1 : A -> M B) (k2 : B -> M C) (w : World) :
  bind (bind m k1) k2 w = bind m (fun a => bind (k1 a) k2) w.
Proof. unfold bind. by destruct (m w) as [[a|e] w']. Qed.

Lemma bind_ret {A B} (a : A) (k : A -> M B) (w : World) : bind (ret a) k w = k a w.
Proof. done. Qed.

Lemma bind_raise {A B} (m : M A) (k : A -> M B) (w w' : World) (e : PyExc) :
  m w = (Raise e, w') -> bind m k w = (Raise e, w').
Proof. unfold bind. by intros ->. Qed.

Lemma try_except_ret {A} (body : M A) (h : PyExc -> M A) (w w' : World) (a : A) :
  body w = (Ret a, w') -> try_except body h w = (Ret a, w').
Proof. unfold try_except. by intros ->. Qed.

Lemma try_except_raise {A} (body : M A) (h : PyExc -> M A) (w w' : World) (e : PyExc)
    (r : outcome A * World) :
  body w = (Raise e, w') -> h e w' = r -> try_except body h w = r.
Proof. unfold try_except. by intros -> ->. Qed.

Lemma try_finally_run {A} (body : M A) (c : M unit) (w w' w'' : World) (r : outcome A) :
  body w = (r, w') -> c w' = (Ret tt, w'') -> try_finally body c w = (r, w'').
Proof. unfold try_finally. by intros -> ->. Qed.

(** One statement of a straight-line run: rewrite [m ;; k] with what [m]
    does, proved by [tac]. *)
Ltac step tac := rewrite ?bind_bind; erewrite bind_run; [|solve [tac]].

(** Worlds are kept in constructor form: after [destruct w], every update
    computes. *)
Ltac norm :=
  cbv beta iota zeta delta
      [db session tx_failed tx_deleted objects tmpfs broker events clock entropy
       with_db with_session with_tx_failed with_tx_deleted with_objects with_tmpfs
       with_broker with_events with_clock with_entropy
       jobs files pipelines file_metadata
       with_jobs with_files with_pipelines with_file_metadata
       committed put_job put_file reset_session started].
Ltac norm_in H :=
  cbv beta iota zeta delta
      [db session tx_failed tx_deleted objects tmpfs broker events clock entropy
       with_db with_session with_tx_failed with_tx_deleted with_objects with_tmpfs
       with_broker with_events with_clock with_entropy
       jobs files pipelines file_metadata
       with_jobs with_files with_pipelines with_file_metadata
       committed put_job put_file reset_session started] in H.

Lemma tx_ok_committed (w : World) : tx_failed w = false -> tx_ok (committed w).
Proof. by split. Qed.

Lemma tx_ok_reset (w : World) : tx_ok (reset_session w).
Proof. by split. Qed.

Lemma db_guard_run (w : World) : tx_failed w = false -> db_guard w = (Ret tt, w).
Proof. unfold db_guard, bind, get. by intros ->. Qed.

Lemma db_view_run (w : World) : tx_failed w = false -> db_view w = (Ret (session w), w).
Proof. unfold db_view, db_guard, bind, get. by intros ->. Qed.

Lemma db_update_run (f : DB -> DB) (w : World) :
  tx_failed w = false -> db_update f w = (Ret tt, with_session (f (session w)) w).
Proof. unfold db_update, db_guard, bind, get. by intros ->. Qed.

Lemma db_commit_run (w : World) : tx_ok w -> db_commit w = (Ret tt, committed w).
Proof.
  intros [Hf Hd]. unfold db_commit, db_guard, bind, get. rewrite Hf. cbn.
  by rewrite Hd.
Qed.

Lemma s3_download_file_run (bucket key path : string) (data : bytes) (w : World) :
  objects w !! (bucket, key) = Some data ->
  s3_download_file bucket key path w
  = (Ret tt, with_tmpfs (<[path := data]> (tmpfs w)) w).
Proof. unfold s3_download_file, bind, get. cbn. by intros ->. Qed.

Lemma s3_upload_file_run (path bucket key : string) (data : bytes) (w : World) :
  tmpfs w !! path = Some data ->
  s3_upload_file path bucket key w
  = (Ret tt, with_events (events w ++ [EvPutObject bucket key])
               (with_objects (<[(bucket, key) := data]> (objects w)) w)).
Proof. unfold s3_upload_file, read_file, bind, get. cbn. by intros ->. Qed.

Lemma os_path_getsize_run (path : string) (data : bytes) (w : World) :
  tmpfs w !! path = Some data -> os_path_getsize path w = (Ret (length data), w).
Proof. unfold os_path_getsize, read_file, bind, get. cbn. by intros ->. Qed.

Lemma read_file_run (path : string) (data : bytes) (w : World) :
  tmpfs w !! path = Some data -> read_file path w = (Ret data, w).
Proof. unfold read_file, bind, get. cbn. by intros ->. Qed.

Section RunPython.
Context {PY : Python}.

Lemma tmp_path_truthy (n : nat) (suffix : string) : str_truthy (tmp_path n suffix) = true.
Proof. done. Qed.

Lemma NamedTemporaryFile_run (suffix : string) (w : World) :
  NamedTemporaryFile suffix w
  = (Ret (tmp_path (entropy w) suffix),
     with_tmpfs (<[tmp_path (entropy w) suffix := []]> (tmpfs w))
                (with_entropy (S (entropy w)) w)).
Proof. done. Qed.

Lemma mktemp_run (suffix : string) (w : World) :
  mktemp suffix w = (Ret (tmp_path (entropy w) suffix), with_entropy (S (entropy w)) w).
Proof. done. Qed.

Lemma update_job_status_run (job_id : string) (status : JobStatus.t)
    (error_message result_file_id : option string) (job : Job.t) (w : World) :
  tx_ok w ->
  jobs (session w) !! job_id = Some job ->
  (opt_str_truthy result_file_id = true ->
   is_Some (files (session w) !! default "" result_file_id)) ->
  Worker.update_job_status job_id status error_message result_file_id w
  = (Ret tt,
     committed (put_job job_id
                  (updated_job status error_message result_file_id (clock w) job)
                  (with_clock (S (clock w)) w))).
Proof.
  intros [Hf Hd] Hj Hfk.
  unfold Worker.update_job_status.
  step ltac:(by apply db_view_run).
  rewrite Hj.
  step done.
  step ltac:(by apply db_update_run).
  destruct (opt_str_truthy result_file_id) eqn:Hr.
  - rewrite bool_decide_eq_true_2 by auto. cbn [negb andb].
    rewrite db_commit_run by (split; [exact Hf|exact Hd]).
    unfold updated_job, put_job. by rewrite Hr.
  - cbn [andb].
    rewrite db_commit_run by (split; [exact Hf|exact Hd]).
    unfold updated_job, put_job. by rewrite Hr.
Qed.

Lemma update_job_status_absent (job_id : string) (status : JobStatus.t)
    (error_message result_file_id : option string) (w : World) :
  tx_failed w = false ->
  jobs (session w) !! job_id = None ->
  Worker.update_job_status job_id status error_message result_file_id w = (Ret tt, w).
Proof.
  intros Hf Hj. unfold Worker.update_job_status.
  step ltac:(by apply db_view_run).
  by rewrite Hj.
Qed.

Lemma query_file_run (file_id : string) (w : World) :
  tx_failed w = false ->
  Worker.query_file file_id w = (Ret (files (session w) !! file_id), w).
Proof.
  intros Hf. unfold Worker.query_file.
  step ltac:(by apply db_view_run). done.
Qed.

Lemma mark_file_ready_run (file_id : string) (file : File.t) (w : World) :
  tx_ok w ->
  files (session w) !! file_id = Some file ->
  Worker.mark_file_ready file_id w
  = (Ret tt, committed (put_file file_id (File.set_status FileStatus.READY file) w)).
Proof.
  intros [Hf Hd] Hfile. unfold Worker.mark_file_ready.
  step ltac:(by apply query_file_run).
  rewrite Hfile.
  step ltac:(by apply db_update_run).
  by rewrite db_commit_run by (split; [exact Hf|exact Hd]).
Qed.

Lemma insert_derived_file_run (result_file_id original_name output_bucket output_key : string)
    (output_size : nat) (mime_type file_id : string) (parent : File.t) (w : World) :
  tx_failed w = false ->
  forallb sql_literal_ok
    [result_file_id; original_name; output_bucket; output_key; mime_type; file_id] = true ->
  files (session w) !! file_id = Some parent ->
  files (session w) !! result_file_id = None ->
  Worker.insert_derived_file result_file_id original_name output_bucket output_key
                             output_size mime_type file_id w
  = (Ret tt,
     put_file result_file_id
       (File.mk result_file_id (File.owner_id parent) original_name output_bucket
                output_key output_size (Some mime_type) FileStatus.READY (clock w) true
                (Some file_id))
       (with_clock (S (clock w)) w)).
Proof.
  intros Hf Hq Hp Hr. unfold Worker.insert_derived_file.
  step ltac:(by apply db_guard_run).
  rewrite Hq.
  step ltac:(by apply db_view_run).
  rewrite Hp, Hr.
  step done.
  by rewrite db_update_run.
Qed.

Lemma cleanup_run (input_path : string) (output_path : option string) (w : World) :
  is_Some (tmpfs w !! input_path) ->
  Worker.cleanup input_path output_path w
  = (Ret tt, with_tmpfs (cleaned input_path output_path (tmpfs w)) w).
Proof.
  intros [data Hin].
  unfold Worker.cleanup, cleaned, os_unlink, os_path_exists, when, bind, get, modify, ret.
  rewrite Hin. cbn.
  destruct (opt_str_truthy output_path); [|done].
  destruct (delete input_path (tmpfs w) !! default "" output_path) as [x|] eqn:Hx.
  - rewrite bool_decide_eq_true_2 by done. cbn. by rewrite Hx.
  - by rewrite bool_decide_eq_false_2 by (intros [y Hy]; cbn in Hy; congruence).
Qed.
End RunPython.

(** ** The security worker: virus scan *)

Section VirusScan.
Context {PY : Python} {CL : ClamAV} {FN : Fernet} {ZP : Zipfile}.

Lemma mark_file_failed_run (file_id : string) (w : World) :
  tx_ok w ->
  sql_literal_ok file_id = true ->
  SecurityWorker.mark_file_failed file_id w
  = (Ret tt,
     committed (with_session
                  (with_files (alter (File.set_status FileStatus.FAILED) file_id
                                     (files (session w))) (session w)) w)).
Proof.
  intros [Hf Hd] Hq. unfold SecurityWorker.mark_file_failed.
  step ltac:(by apply db_guard_run).
  rewrite Hq.
  step ltac:(by apply db_update_run).
  by rewrite db_commit_run by (split; [exact Hf|exact Hd]).
Qed.

Lemma scan_file_for_virus_run (path : string) (data : bytes) (w : World) :
  tmpfs w !! path = Some data ->
  SecurityWorker.scan_file_for_virus path w
  = (Ret match clamd_scan path data with
         | ClamNoPing => (true, "ClamAV not available")
         | ClamNone => (true, "Clean")
         | ClamFound result => (false, "Virus detected: " +:+ result)
         | ClamError e => (true, "Scan error: " +:+ exc_str e)
         end, w).
Proof.
  intros Hin. unfold SecurityWorker.scan_file_for_virus, bind, get. rewrite Hin. cbn.
  by destruct (clamd_scan path data).
Qed.

Lemma prologue_run {A} (e : Envelope) (job : Job.t) (data : bytes) (w : World)
    (k : string -> M A) :
  jobs (db w) !! env_job_id e = Some job ->
  objects w !! (env_bucket e, env_key e) = Some data ->
  (Worker.update_job_status (env_job_id e) JobStatus.RUNNING None None ;;
   input_path <- NamedTemporaryFile (Path.suffix (env_key e)) ;;
   s3_download_file (env_bucket e) (env_key e) input_path ;;
   k input_path) (reset_session w)
  = k (tmp_path (entropy w) (Path.suffix (env_key e))) (started e job data w).
Proof.
  intros Hj Ho. destruct w as [d s txf txd objs tmp br ev clk ent]. norm_in Hj. norm_in Ho.
  norm.
  step ltac:(eapply update_job_status_run; [split; reflexivity|exact Hj|discriminate]).
  norm.
  step ltac:(apply NamedTemporaryFile_run).
  norm.
  step ltac:(apply s3_download_file_run; exact Ho).
  norm. reflexivity.
Qed.

(** C3 (amended). A VIRUS_SCAN job whose Job row, File row and input
    object exist runs to the end.  When the scan is clean (no finding,
    scanner unreachable or scanner error) the Job ends COMPLETED with
    [error_message] equal to the fixed text of [clean_message] and the
    File is READY; on a finding the Job ends FAILED with the scanner's
    verdict in [error_message] and the File is FAILED. *)
Theorem virus_scan_verdict (e : Envelope) (w : World) (job : Job.t) (file : File.t)
    (data : bytes) :
  env_type e = "virus_scan" ->
  jobs (db w) !! env_job_id e = Some job ->
  files (db w) !! env_file_id e = Some file ->
  objects w !! (env_bucket e, env_key e) = Some data ->
  sql_literal_ok (env_file_id e) = true ->
  exists w' job' file',
    SecurityWorker.process_security_job e w = (Ret tt, w')
    /\ jobs (db w') !! env_job_id e = Some job'
    /\ files (db w') !! env_file_id e = Some file'
    /\ match clamd_scan (tmp_path (entropy w) (Path.suffix (env_key e))) data with
       | ClamFound verdict =>
           Job.status job' = JobStatus.FAILED
           /\ Job.error_message job' = Some (virus_message ("Virus detected: " +:+ verdict))
           /\ File.status file' = FileStatus.FAILED
       | _ =>
           Job.status job' = JobStatus.COMPLETED
           /\ Job.error_message job' = Some clean_message
           /\ File.status file' = FileStatus.READY
       end.
Proof.
  intros Ht Hj Hf Ho Hq.
  unfold SecurityWorker.process_security_job.
  step ltac:(reflexivity).
  unfold try_finally, try_except.
  unfold SecurityWorker.update_job_status at 1.
  rewrite (prologue_run e job data w _ Hj Ho).
  destruct w as [[dj df dp dm] s txf txd objs tmp br ev clk ent].
  norm_in Hj. norm_in Hf. norm_in Ho. norm.
  set (path := tmp_path ent (Path.suffix (env_key e))).
  rewrite Ht.
  unfold SecurityWorker.run_handler. cbn [String.eqb Ascii.eqb Bool.eqb].
  rewrite bind_bind.
  step ltac:(apply (scan_file_for_virus_run path data); apply lookup_insert_eq).
  destruct (clamd_scan path data) as [ex| | |verdict].
  4: {
    (* a finding *)
    rewrite !bind_bind.
    step ltac:(apply mark_file_failed_run; [split; reflexivity|exact Hq]).
    norm.
    step ltac:(eapply update_job_status_run;
               [split; reflexivity|apply lookup_insert_eq|discriminate]).
    norm.
    rewrite bind_ret. cbn [Worker.have_output opt_str_truthy andb].
    rewrite bind_ret.
    rewrite cleanup_run by (eexists; apply lookup_insert_eq).
    norm.
    eexists _, _, _. split; [reflexivity|]. norm.
    split; [apply lookup_insert_eq|].
    split; [by rewrite lookup_alter_eq, Hf|].
    done. }
  all: rewrite !bind_bind;
    (step ltac:(eapply update_job_status_run;
                [split; reflexivity|apply lookup_insert_eq|discriminate]));
    norm;
    (step ltac:(eapply mark_file_ready_run; [split; reflexivity| exact Hf ]));
    norm;
    rewrite bind_ret; cbn [Worker.have_output opt_str_truthy andb];
    rewrite bind_ret;
    rewrite cleanup_run by (eexists; apply lookup_insert_eq);
    norm;
    (eexists _, _, _; split; [reflexivity|]); norm;
    (split; [apply lookup_insert_eq|]);
    (split; [apply lookup_insert_eq|]);
    done.
Qed.
End VirusScan.

Section VirusScanExamples.
Import Demo.

Lemma virus_scan_verdict_witness :
  let e := Scenario.envelope "virus.bin" JobType.VIRUS_SCAN in
  let w := Scenario.world "virus.bin" FileStatus.PROCESSING JobType.VIRUS_SCAN
                          JobStatus.QUEUED [xff; x00] in
  exists w' job' file',
    SecurityWorker.process_security_job e w = (Ret tt, w')
    /\ jobs (db w') !! "j1" = Some job'
    /\ files (db w') !! "f1" = Some file'
    /\ Job.status job' = JobStatus.FAILED
    /\ Job.error_message job'
       = Some (virus_message
                 "Virus detected: {'/tmp/tmp0.bin': ('FOUND', 'Eicar-Test-Signature')}")
    /\ File.status file' = FileStatus.FAILED.
Proof.
  intros e w.
  pose proof (virus_scan_verdict e w
                (Scenario.job JobType.VIRUS_SCAN JobStatus.QUEUED)
                (Scenario.upload "virus.bin" FileStatus.PROCESSING)
                [xff; x00]) as H.
  vm_compute in H. vm_compute. apply H; reflexivity.
Defined.

(** C3 as stated fails: after a clean scan the message is not ["clean"]. *)
Lemma virus_scan_clean_message_counterexample :
  let e := Scenario.envelope "notes.txt" JobType.VIRUS_SCAN in
  let w := Scenario.world "notes.txt" FileStatus.PROCESSING JobType.VIRUS_SCAN
                          JobStatus.QUEUED [x68; x69] in
  let w' := (SecurityWorker.process_security_job e w).2 in
  clamd_scan "/tmp/tmp0.txt" [x68; x69] = ClamNone
  /\ exists job',
       jobs (db w') !! "j1" = Some job'
       /\ Job.status job' = JobStatus.COMPLETED
       /\ Job.error_message job' = Some "✓ No virus found - File is clean"
       /\ Job.error_message job' <> Some "clean".
Proof.
  split; [reflexivity|].
  eexists. split; [vm_compute; reflexivity|].
  split; [reflexivity|]. split; [reflexivity|]. discriminate.
Qed.
End VirusScanExamples.

(** ** The security worker: DECRYPT *)

Lemma str_truthy_app_l (a b : string) : str_truthy a = true -> str_truthy (a +:+ b) = true.
Proof. by destruct a. Qed.

Lemma str_truthy_app_r (a b : string) : str_truthy b = true -> str_truthy (a +:+ b) = true.
Proof. by destruct a. Qed.

Lemma substring_all (s : string) : String.substring 0 (String.length s) s = s.
Proof. induction s as [|c s IH]; simpl; [done|by rewrite IH]. Qed.

Lemma append_cons (c : ascii) (a b : string) : String c a +:+ b = String c (a +:+ b).
Proof. done. Qed.

Lemma append_empty_r (s : string) : s +:+ "" = s.
Proof. induction s as [|c s IH]; [done|]. by rewrite append_cons, IH. Qed.

Lemma substring_split (s : string) (i : nat) :
  i <= String.length s ->
  String.substring 0 i s +:+ String.substring i (String.length s - i) s = s.
Proof.
  revert i. induction s as [|c s IH]; intros i Hi.
  - by destruct i.
  - destruct i as [|i].
    + rewrite Nat.sub_0_r. simpl String.substring at 1.
      by rewrite substring_all.
    + simpl in Hi. simpl. rewrite append_cons. f_equal. apply IH. lia.
Qed.

Lemma rfind_from_bound (c : ascii) (i : nat) (l : list ascii) (j : nat) :
  rfind_from c i l = Some j -> j < i + length l.
Proof.
  revert i j. induction l as [|x l IH]; intros i j; simpl; [done|].
  destruct (rfind_from c (S i) l) as [j'|] eqn:Hrec.
  - intros [= <-]. apply IH in Hrec. lia.
  - destruct (Ascii.eqb x c); [|done]. intros [= <-]. lia.
Qed.

Lemma length_chars (s : string) : length (chars s) = String.length s.
Proof. induction s as [|c s IH]; simpl; [done|by rewrite IH]. Qed.

(** The stem and the suffix are the two halves of the last component. *)
Lemma stem_suffix (p : string) : Path.stem p +:+ Path.suffix p = Path.name p.
Proof.
  unfold Path.stem, Path.suffix, Path.suffix_index.
  destruct (rfind "." (Path.name p)) as [i|] eqn:Hi.
  - destruct (_ && _) eqn:Hc.
    + apply substring_split.
      apply rfind_from_bound in Hi. rewrite length_chars in Hi. lia.
    + apply append_empty_r.
  - apply append_empty_r.
Qed.

Section Decrypt.
Context {PY : Python} {CL : ClamAV} {FN : Fernet} {ZP : Zipfile}.

Lemma original_name_of_run (file_id : string) (w : World) :
  tx_failed w = false ->
  SecurityWorker.original_name_of file_id w
  = (Ret match files (session w) !! file_id with
         | Some f => File.original_name f
         | None => "file"
         end, w).
Proof.
  intros Hf. unfold SecurityWorker.original_name_of.
  step ltac:(by apply query_file_run). reflexivity.
Qed.

Lemma decrypt_file_content (password : json) (data plain : bytes)
    (input_path output_path : string) (w : World) :
  tmpfs w !! input_path = Some data ->
  fernet_decrypt (strip (readline data).1) (readline data).2 = inr plain ->
  SecurityWorker.decrypt_file input_path output_path password w
  = (Ret tt, with_tmpfs (<[output_path := plain]> (tmpfs w)) w).
Proof.
  intros Hin Hdec.
  unfold SecurityWorker.decrypt_file, bind, ret, read_file, get, write_file, modify, lift.
  cbn -[readline strip]. rewrite Hin. cbn -[readline strip].
  destruct (readline data) as [line encrypted]. cbn [fst snd] in Hdec.
  by rewrite Hdec.
Qed.

End Decrypt.

Section DecryptExamples.
Import Demo.


End DecryptExamples.

(** ** The submission endpoint *)

Section Upload.
Context {PY : Python}.

Lemma add_file_run (f : File.t) (w : World) :
  tx_failed w = false ->
  files (session w) !! File.id f = None ->
  Files.add_file f w = (Ret tt, put_file (File.id f) f w).
Proof.
  intros Hf Hnew. unfold Files.add_file.
  step ltac:(by apply db_view_run).
  rewrite Hnew. by rewrite db_update_run.
Qed.

(** C8. An upload whose [pipeline_actions] field is absent, empty, or the
    JSON text of an empty list succeeds and commits exactly one new row:
    the File, with status UPLOADED.  No Pipeline row, no Job row and no
    envelope come out of it. *)
Theorem upload_without_actions (filename : string) (content : bytes)
    (content_type pipeline_actions : option string) (user_id : string) (w : World) :
  pipeline_actions = None \/ pipeline_actions = Some ""
  \/ (exists s, pipeline_actions = Some s /\ json_loads s = inr (JArr [])) ->
  files (db w) !! uuid4 (entropy w) = None ->
  exists w',
    Files.upload_file filename content content_type pipeline_actions user_id w
    = (Ret (uuid4 (entropy w)), w')
    /\ files (db w')
       = <[uuid4 (entropy w) :=
             uploaded_row (uuid4 (entropy w)) user_id filename content content_type
                          (clock w) FileStatus.UPLOADED]> (files (db w))
    /\ pipelines (db w') = pipelines (db w)
    /\ jobs (db w') = jobs (db w)
    /\ broker w' = broker w.
Proof.
  intros Hactions Hfresh.
  assert (Hparsed : forall w0 : World,
            (if opt_str_truthy pipeline_actions
             then lift (json_loads (default "" pipeline_actions))
             else ret (JArr [])) w0 = (Ret (JArr []), w0)).
  { intros w0. destruct Hactions as [->| [->| (s & -> & Hs)]]; [done|done|].
    cbn [opt_str_truthy default from_option id]. rewrite Hs.
    by destruct (str_truthy s). }
  destruct w as [[dj df dp dm] s txf txd objs tmp br ev clk ent].
  norm_in Hfresh.
  unfold Files.upload_file, Files.get_db.
  step ltac:(reflexivity). norm.
  unfold try_finally at 1.
  step ltac:(reflexivity). norm.
  step ltac:(apply NamedTemporaryFile_run). norm.
  step ltac:(reflexivity). norm.
  unfold try_finally, Files.upload_body, MinIOService.upload_file.
  step ltac:(apply s3_upload_file_run; apply lookup_insert_eq). norm.
  step ltac:(reflexivity). norm.
  step ltac:(apply add_file_run; [reflexivity|exact Hfresh]). norm.
  step ltac:(apply Hparsed).
  cbn [truthy length Nat.eqb negb].
  step ltac:(reflexivity).
  step ltac:(apply db_commit_run; split; reflexivity). norm.
  unfold ret at 1.
  unfold os_path_exists. step ltac:(reflexivity). norm.
  rewrite bool_decide_eq_true_2 by (eexists; apply lookup_insert_eq).
  step ltac:(reflexivity).
  cbn [when]. unfold os_unlink.
  step ltac:(reflexivity). norm. rewrite lookup_insert_eq.
  unfold modify, db_close. norm.
  eexists. split; [reflexivity|]. norm. done.
Qed.
End Upload.

Section UploadExamples.
Import Demo.

Lemma upload_without_actions_witness :
  exists w',
    Files.upload_file "cat.png" [x01; x02] (Some "image/png") (Some "[]") "u1"
                      Demo.empty_world
    = (Ret "00000000-0000-4000-8000-0", w')
    /\ files (db w')
       = <["00000000-0000-4000-8000-0" :=
             uploaded_row "00000000-0000-4000-8000-0" "u1" "cat.png" [x01; x02]
                          (Some "image/png") 0 FileStatus.UPLOADED]> ∅
    /\ pipelines (db w') = ∅
    /\ jobs (db w') = ∅
    /\ broker w' = [].
Proof.
  pose proof (upload_without_actions "cat.png" [x01; x02] (Some "image/png") (Some "[]")
                                     "u1" Demo.empty_world) as H.
  vm_compute in H. vm_compute. apply H.
  - right. right. exists "[]". split; reflexivity.
  - reflexivity.
Defined.
End UploadExamples.

(** ** Rules for triples *)

Lemma hoare_conseq {A} (P P' : World -> Prop) (m : M A) (Q Q' : A -> World -> Prop)
    (E E' : World -> Prop) :
  hoare P' m Q' E' ->
  (forall w, P w -> P' w) -> (forall a w, Q' a w -> Q a w) -> (forall w, E' w -> E w) ->
  hoare P m Q E.
Proof.
  intros Hm HP HQ HE w Hw. specialize (Hm w (HP w Hw)).
  destruct (m w) as [[a|e] w']; auto.
Qed.

Lemma hoare_pre {A} (P P' : World -> Prop) (m : M A) (Q : A -> World -> Prop)
    (E : World -> Prop) :
  hoare P' m Q E -> (forall w, P w -> P' w) -> hoare P m Q E.
Proof. intros Hm HP. by eapply hoare_conseq. Qed.

Lemma hoare_ret {A} (P : World -> Prop) (a : A) (Q : A -> World -> Prop) (E : World -> Prop) :
  (forall w, P w -> Q a w) -> hoare P (ret a) Q E.
Proof. intros H w Hw. by apply H. Qed.

Lemma hoare_raise {A} (P : World -> Prop) (e : PyExc) (Q : A -> World -> Prop)
    (E : World -> Prop) :
  (forall w, P w -> E w) -> hoare P (raise e) Q E.
Proof. intros H w Hw. by apply H. Qed.

Lemma hoare_bind {A B} (P : World -> Prop) (m : M A) (R : A -> World -> Prop)
    (k : A -> M B) (Q : B -> World -> Prop) (E : World -> Prop) :
  hoare P m R E -> (forall a, hoare (R a) (k a) Q E) -> hoare P (bind m k) Q E.
Proof.
  intros Hm Hk w Hw. specialize (Hm w Hw). unfold bind.
  destruct (m w) as [[a|e] w']; [by apply Hk|done].
Qed.

Lemma hoare_lift {A} (P : World -> Prop) (r : PyExc + A) (Q : A -> World -> Prop)
    (E : World -> Prop) :
  (forall w, P w -> E w) -> (forall a w, P w -> Q a w) -> hoare P (lift r) Q E.
Proof. intros HE HQ w Hw. destruct r; [by apply HE|by apply HQ]. Qed.

Lemma hoare_try_except {A} (P : World -> Prop) (body : M A) (h : PyExc -> M A)
    (Q : A -> World -> Prop) (E' E : World -> Prop) :
  hoare P body Q E' -> (forall e, hoare E' (h e) Q E) -> hoare P (try_except body h) Q E.
Proof.
  intros Hb Hh w Hw. specialize (Hb w Hw). unfold try_except.
  destruct (body w) as [[a|e] w']; [done|by apply Hh].
Qed.

Lemma hoare_try_finally {A} (P : World -> Prop) (body : M A) (c : M unit)
    (Q' Q : A -> World -> Prop) (E' E : World -> Prop) :
  hoare P body Q' E' ->
  (forall a, hoare (Q' a) c (fun _ => Q a) E) ->
  hoare E' c (fun _ => E) E ->
  hoare P (try_finally body c) Q E.
Proof.
  intros Hb Hq He w Hw. specialize (Hb w Hw). unfold try_finally.
  destruct (body w) as [[a|e] w'].
  - specialize (Hq a w' Hb). by destruct (c w') as [[[]|e'] w''].
  - specialize (He w' Hb). by destruct (c w') as [[[]|e'] w''].
Qed.

Lemma hoare_for_each {A} (I : World -> Prop) (l : list A) (body : A -> M unit)
    (E : World -> Prop) :
  (forall x, x ∈ l -> hoare I (body x) (fun _ => I) E) ->
  hoare I (for_each l body) (fun _ => I) E.
Proof.
  induction l as [|x l IH]; intros Hbody; simpl.
  - by apply hoare_ret.
  - eapply hoare_bind; [apply Hbody; left|].
    intros []. apply IH. intros y Hy. apply Hbody. by right.
Qed.

(** A computation that keeps a view keeps every property of the view. *)
Lemma keeps_hoare {A B} (view : World -> B) (m : M A) (P : B -> Prop) :
  keeps view m ->
  hoare (fun w => P (view w)) m (fun _ w => P (view w)) (fun w => P (view w)).
Proof.
  intros Hk w Hw. specialize (Hk w).
  destruct (m w) as [[a|e] w']; simpl in Hk; by rewrite Hk.
Qed.

Section Keeps.
Context {B : Type} (view : World -> B).

Lemma keeps_ret {A} (a : A) : keeps view (ret a).
Proof. done. Qed.

Lemma keeps_raise {A} (e : PyExc) : keeps view (raise (A := A) e).
Proof. done. Qed.

Lemma keeps_get : keeps view get.
Proof. done. Qed.

Lemma keeps_lift {A} (r : PyExc + A) : keeps view (lift r).
Proof. by destruct r. Qed.

Lemma keeps_modify (f : World -> World) :
  (forall w, view (f w) = view w) -> keeps view (modify f).
Proof. intros Hf w. apply Hf. Qed.

Lemma keeps_bind {A C} (m : M A) (k : A -> M C) :
  keeps view m -> (forall a, keeps view (k a)) -> keeps view (bind m k).
Proof.
  intros Hm Hk w. specialize (Hm w). unfold bind.
  destruct (m w) as [[a|e] w']; simpl in *; [|done].
  by rewrite Hk.
Qed.

Lemma keeps_try_except {A} (body : M A) (h : PyExc -> M A) :
  keeps view body -> (forall e, keeps view (h e)) -> keeps view (try_except body h).
Proof.
  intros Hb Hh w. specialize (Hb w). unfold try_except.
  destruct (body w) as [[a|e] w']; simpl in *; [done|].
  by rewrite Hh.
Qed.

Lemma keeps_when (b : bool) (m : M unit) : keeps view m -> keeps view (when b m).
Proof. intros Hm. destruct b; [exact Hm|apply keeps_ret]. Qed.
End Keeps.

Create HintDb keeps discriminated.
#[export] Hint Resolve keeps_ret keeps_raise keeps_get keeps_lift keeps_when : keeps.

(** Decompose a computation into the pieces above. *)
Ltac keeps_step :=
  lazymatch goal with
  | |- keeps _ (bind _ _) => apply keeps_bind; [|intros ?]
  | |- keeps _ (try_except _ _) => apply keeps_try_except; [|intros ?]
  | |- keeps _ (ret _) => apply keeps_ret
  | |- keeps _ (raise _) => apply keeps_raise
  | |- keeps _ get => apply keeps_get
  | |- keeps _ (lift _) => apply keeps_lift
  | |- keeps _ (when _ _) => apply keeps_when
  | |- keeps _ (modify _) => apply keeps_modify; intros ?; reflexivity
  | |- keeps _ (match ?x with _ => _ end) => destruct x
  | |- keeps _ (let (_, _) := ?x in _) => destruct x
  end.

Section KeepsDb.
Context {PY : Python}.

Lemma keeps_db_guard : keeps db_part db_guard.
Proof. unfold db_guard. repeat keeps_step. Qed.

Lemma keeps_db_view : keeps db_part db_view.
Proof. unfold db_view. repeat first [keeps_step | apply keeps_db_guard]. Qed.

Lemma keeps_query_file (file_id : string) : keeps db_part (Worker.query_file file_id).
Proof. unfold Worker.query_file. repeat first [keeps_step | apply keeps_db_view]. Qed.

Lemma keeps_utcnow : keeps db_part utcnow.
Proof. done. Qed.

Lemma keeps_draw : keeps db_part draw.
Proof. done. Qed.

Lemma keeps_read_file (path : string) : keeps db_part (read_file path).
Proof. unfold read_file. repeat keeps_step. Qed.

Lemma keeps_write_file (path : string) (data : bytes) : keeps db_part (write_file path data).
Proof. done. Qed.

Lemma keeps_NamedTemporaryFile (suffix : string) : keeps db_part (NamedTemporaryFile suffix).
Proof. done. Qed.

Lemma keeps_mktemp (suffix : string) : keeps db_part (mktemp suffix).
Proof. done. Qed.

Lemma keeps_os_unlink (path : string) : keeps db_part (os_unlink path).
Proof. unfold os_unlink. repeat keeps_step. Qed.

Lemma keeps_os_path_exists (path : string) : keeps db_part (os_path_exists path).
Proof. unfold os_path_exists. repeat keeps_step. Qed.

Lemma keeps_os_path_getsize (path : string) : keeps db_part (os_path_getsize path).
Proof. unfold os_path_getsize. repeat first [keeps_step | apply keeps_read_file]. Qed.

Lemma keeps_s3_download_file (bucket key path : string) :
  keeps db_part (s3_download_file bucket key path).
Proof. unfold s3_download_file. repeat first [keeps_step | apply keeps_write_file]. Qed.

Lemma keeps_s3_upload_file (path bucket key : string) :
  keeps db_part (s3_upload_file path bucket key).
Proof.
  unfold s3_upload_file, emit. repeat first [keeps_step | apply keeps_read_file].
Qed.

Lemma keeps_cleanup (input_path : string) (output_path : option string) :
  keeps db_part (Worker.cleanup input_path output_path).
Proof.
  unfold Worker.cleanup.
  repeat first [keeps_step | apply keeps_os_unlink | apply keeps_os_path_exists].
Qed.

Lemma keeps_no_attribute {A} (v : json) (attr : string) :
  keeps db_part (Worker.no_attribute (A := A) v attr).
Proof. apply keeps_raise. Qed.
End KeepsDb.

#[export] Hint Resolve keeps_db_guard keeps_db_view keeps_query_file keeps_utcnow keeps_draw
  keeps_read_file keeps_write_file keeps_NamedTemporaryFile keeps_mktemp keeps_os_unlink
  keeps_os_path_exists keeps_os_path_getsize keeps_s3_download_file keeps_s3_upload_file
  keeps_cleanup keeps_no_attribute : keeps.

(** Split a computation with [keeps_step]; close the leaves from the hint
    database. *)
Ltac keeps_auto := repeat first [keeps_step | solve [auto with keeps]].

(** ** A completed job leaves its File READY *)

Section Completion.
Context {PY : Python}.
Variables job_id file_id : string.

Local Abbreviation Opened := (fun w => opened file_id (db_part w)).
Local Abbreviation Running := (fun w => running job_id file_id (db_part w)).
Local Abbreviation Settled := (fun w => settled file_id (db_part w)).
Local Abbreviation Sound := (fun w => sound job_id file_id (db_part w)).

Lemma sound_completed_implies_ready (w : World) :
  sound job_id file_id (db_part w) -> completed_implies_ready job_id file_id (db w).
Proof.
  intros [(_ & _ & Hn & _)|(_ & Hr & _)] j Hj Hs; [|done].
  by destruct (Hn j Hj).
Qed.

(** Facts about the tables after the updates the workers make. *)
Lemma job_not_completed_insert (d : DB) (j : Job.t) (x : gmap string Job.t) :
  Job.status j <> JobStatus.COMPLETED ->
  job_not_completed job_id (with_jobs (<[job_id := j]> x) d).
Proof. intros Hs j' Hj'. cbn in Hj'. rewrite lookup_insert_eq in Hj'. by injection Hj' as <-. Qed.

Lemma file_there_insert (d : DB) (x : gmap string File.t) (k : string) (f : File.t) :
  is_Some (x !! file_id) -> file_there file_id (with_files (<[k := f]> x) d).
Proof.
  intros [f0 Hf0]. unfold file_there. cbn. rewrite lookup_insert.
  case_decide; by eexists.
Qed.

Lemma file_ready_insert (d : DB) (x : gmap string File.t) (f : File.t) :
  file_ready file_id (with_files (<[file_id := File.set_status FileStatus.READY f]> x) d).
Proof. eexists. split; [apply lookup_insert_eq|done]. Qed.

Lemma status_updated_job (s : JobStatus.t) (em rid : option string) (now : nat) (j : Job.t) :
  Job.status (updated_job s em rid now j) = s.
Proof. unfold updated_job. by destruct (opt_str_truthy em), (opt_str_truthy rid). Qed.

(** *** What each database statement can do *)

Lemma update_job_status_cases (jid : string) (s : JobStatus.t) (em rid : option string)
    (w : World) :
  tx_deleted w = [] ->
  (tx_failed w = true /\ exists e, Worker.update_job_status jid s em rid w = (Raise e, w))
  \/ (tx_failed w = false /\ jobs (session w) !! jid = None
      /\ Worker.update_job_status jid s em rid w = (Ret tt, w))
  \/ (exists j,
        tx_failed w = false /\ jobs (session w) !! jid = Some j
        /\ ((opt_str_truthy rid = true
             /\ exists e, Worker.update_job_status jid s em rid w
                          = (Raise e, with_tx_failed true
                                        (put_job jid (updated_job s em rid (clock w) j)
                                                 (with_clock (S (clock w)) w))))
            \/ Worker.update_job_status jid s em rid w
               = (Ret tt, committed (put_job jid (updated_job s em rid (clock w) j)
                                             (with_clock (S (clock w)) w))))).
Proof.
  intros Hd. destruct (tx_failed w) eqn:Hf.
  - left. split; [done|]. eexists.
    unfold Worker.update_job_status, db_view, db_guard, bind, get. by rewrite Hf.
  - right. destruct (jobs (session w) !! jid) as [j|] eqn:Hj.
    + right. exists j. split; [done|]. split; [done|].
      unfold Worker.update_job_status.
      step ltac:(by apply db_view_run). rewrite Hj.
      step ltac:(reflexivity).
      step ltac:(by apply db_update_run).
      fold (updated_job s em rid (clock w) j).
      destruct (opt_str_truthy rid && _) eqn:Hfk.
      * left. apply andb_prop in Hfk as [Hr _]. split; [done|]. by eexists.
      * right. by rewrite db_commit_run by (by split).
    + left. split; [done|]. split; [done|]. by apply update_job_status_absent.
Qed.

(** Going to RUNNING on a fresh session: whatever the row said before, it
    is not COMPLETED afterwards. *)
Lemma hoare_update_opened :
  hoare Opened (Worker.update_job_status job_id JobStatus.RUNNING None None)
        (fun _ => Running) Running.
Proof.
  intros w H.
  assert (Hd : tx_deleted w = []) by (destruct w; cbn in *; tauto).
  assert (Hok : tx_failed w = false) by (destruct w; cbn in *; tauto).
  destruct (update_job_status_cases job_id JobStatus.RUNNING None None w Hd)
    as [(Hf & e & ->)|[(Hf & Hj & ->)|(j & Hf & Hj & [[Hr _]| ->])]];
    [congruence| |discriminate|].
  - destruct w as [d s txf txd objs tmp br ev clk ent]; cbn in *.
    destruct H as (_ & _ & -> & Hthere).
    assert (Hn : job_not_completed job_id d) by (intros j' Hj'; congruence).
    done.
  - destruct w as [d s txf txd objs tmp br ev clk ent]; cbn in *.
    destruct H as (_ & _ & -> & Hthere).
    assert (Hn : job_not_completed job_id
                   (with_jobs (<[job_id := updated_job JobStatus.RUNNING None None clk j]>
                                 (jobs d)) d)).
    { apply job_not_completed_insert. by rewrite status_updated_job. }
    done.
Qed.

Lemma hoare_update_running (s : JobStatus.t) (em : option string) :
  s <> JobStatus.COMPLETED ->
  hoare Running (Worker.update_job_status job_id s em None) (fun _ => Running) Running.
Proof.
  intros Hs w H.
  assert (Hd : tx_deleted w = []) by (destruct w; cbn in *; tauto).
  destruct (update_job_status_cases job_id s em None w Hd)
    as [(Hf & e & ->)|[(Hf & Hj & ->)|(j & Hf & Hj & [[Hr _]| ->])]];
    [done|done|discriminate|].
  destruct w as [d s0 txf txd objs tmp br ev clk ent]; cbn in *.
  destruct H as (_ & Hthere & _ & Hsess). destruct (Hsess Hf) as [Hst Hsn].
  assert (Hn : job_not_completed job_id
                 (with_jobs (<[job_id := updated_job s em None clk j]> (jobs s0)) s0)).
  { apply job_not_completed_insert. by rewrite status_updated_job. }
  done.
Qed.

Lemma hoare_update_settled (s : JobStatus.t) (em : option string) :
  hoare Settled (Worker.update_job_status job_id s em None) (fun _ => Settled) Settled.
Proof.
  intros w H.
  assert (Hd : tx_deleted w = []) by (destruct w; cbn in *; tauto).
  destruct (update_job_status_cases job_id s em None w Hd)
    as [(Hf & e & ->)|[(Hf & Hj & ->)|(j & Hf & Hj & [[Hr _]| ->])]];
    [done|done|discriminate|].
  destruct w as [d s0 txf txd objs tmp br ev clk ent]; cbn in *.
  destruct H as (_ & _ & Hsess). specialize (Hsess Hf).
  done.
Qed.

Ltac db_unfold :=
  unfold Worker.insert_derived_file, Worker.mark_file_ready, Worker.query_file,
    db_commit, db_update, db_view, db_guard, db_fail, utcnow, draw, emit,
    bind, get, ret, raise, modify.

Lemma hoare_insert_derived_file (rid name bucket key : string) (size : nat) (mime : string) :
  hoare Running (Worker.insert_derived_file rid name bucket key size mime file_id)
        (fun _ => Running) Running.
Proof.
  intros [d s txf txd objs tmp br ev clk ent] H. cbn in H.
  destruct H as (-> & Hthere & Hn & Hsess).
  db_unfold. cbn.
  destruct txf; cbn; [done|].
  destruct (Hsess eq_refl) as [[f Hf] Hsn].
  destruct (sql_literal_ok rid && _); cbn; [|done].
  rewrite Hf.
  destruct (files s !! rid) eqn:Hrid; cbn; [done|].
  split; [done|]. split; [done|]. split; [done|]. intros _.
  split; [|done]. by apply file_there_insert; eexists.
Qed.

Lemma hoare_db_commit : hoare Running db_commit (fun _ => Running) Running.
Proof.
  intros [d s txf txd objs tmp br ev clk ent] H. cbn in H.
  destruct H as (-> & Hthere & Hn & Hsess).
  db_unfold. cbn.
  destruct txf; cbn; [done|].
  destruct (Hsess eq_refl) as [Hst Hsn]. done.
Qed.

Lemma running_reset (w : World) :
  running job_id file_id (db_part w) -> running job_id file_id (db_part (reset_session w)).
Proof. destruct w; cbn. tauto. Qed.

Lemma settled_reset (w : World) :
  settled file_id (db_part w) -> settled file_id (db_part (reset_session w)).
Proof. destruct w; cbn. tauto. Qed.

Lemma hoare_reset_sound : hoare Sound (modify reset_session) (fun _ => Sound) Sound.
Proof.
  intros w [H|H]; [left; by apply running_reset|right; by apply settled_reset].
Qed.

(** The two statements that end a successful job: COMPLETED, then the
    File to READY.  Once the first has committed the second cannot fail. *)
Lemma hoare_complete (em rid : option string) :
  hoare Running
        (Worker.update_job_status job_id JobStatus.COMPLETED em rid ;;
         Worker.mark_file_ready file_id)
        (fun _ => Settled) Running.
Proof.
  intros w H.
  assert (Hd : tx_deleted w = []) by (destruct w; cbn in *; tauto).
  destruct (update_job_status_cases job_id JobStatus.COMPLETED em rid w Hd)
    as [(Hf & e & Hrun)|[(Hf & Hj & Hrun)|(j & Hf & Hj & [[Hr [e Hrun]]| Hrun])]].
  - by rewrite (bind_raise _ _ _ _ _ Hrun).
  - rewrite (bind_run _ _ _ _ _ Hrun).
    destruct w as [d s txf txd objs tmp br ev clk ent]; cbn in *.
    destruct H as (_ & Hthere & Hn & Hsess). destruct (Hsess Hf) as [[f Hfile] Hsn].
    subst txf txd.
    erewrite mark_file_ready_run; [|split; reflexivity|exact Hfile].
    cbn. split; [done|]. split; [apply file_ready_insert|]. intros _. apply file_ready_insert.
  - rewrite (bind_raise _ _ _ _ _ Hrun).
    destruct w as [d s txf txd objs tmp br ev clk ent]; cbn in *.
    destruct H as (_ & Hthere & Hn & _). done.
  - rewrite (bind_run _ _ _ _ _ Hrun).
    destruct w as [d s txf txd objs tmp br ev clk ent]; cbn in *.
    destruct H as (_ & Hthere & Hn & Hsess). destruct (Hsess Hf) as [[f Hfile] Hsn].
    subst txf txd.
    erewrite mark_file_ready_run; [|split; reflexivity|exact Hfile].
    cbn. split; [done|]. split; [apply file_ready_insert|]. intros _. apply file_ready_insert.
Qed.

(** The same triples with [Sound] as what an exception leaves behind, the
    form the workers' bodies are assembled from. *)
Lemma hoare_keeps_running {A} (m : M A) :
  keeps db_part m -> hoare Running m (fun _ => Running) Sound.
Proof.
  intros Hk. eapply hoare_conseq;
    [apply (keeps_hoare db_part m (running job_id file_id) Hk)|done|done|by left].
Qed.

Lemma hoare_keeps_settled {A} (m : M A) :
  keeps db_part m -> hoare Settled m (fun _ => Sound) Sound.
Proof.
  intros Hk. eapply hoare_conseq;
    [apply (keeps_hoare db_part m (settled file_id) Hk)|done|by right|by right].
Qed.

Lemma hoare_keeps_sound {A} (m : M A) :
  keeps db_part m -> hoare Sound m (fun _ => Sound) Sound.
Proof. intros Hk. apply (keeps_hoare db_part m (sound job_id file_id) Hk). Qed.

Lemma hoare_open_session :
  hoare (fun w => file_there file_id (db w)) SessionLocal (fun _ => Opened) Sound.
Proof. intros [d s txf txd objs tmp br ev clk ent] H. by cbn. Qed.

Lemma hoare_start :
  hoare Opened (Worker.update_job_status job_id JobStatus.RUNNING None None)
        (fun _ => Running) Sound.
Proof. eapply hoare_conseq; [apply hoare_update_opened|done|done|by left]. Qed.

Lemma hoare_insert :
  forall rid name bucket key size mime,
    hoare Running (Worker.insert_derived_file rid name bucket key size mime file_id)
          (fun _ => Running) Sound.
Proof.
  intros. eapply hoare_conseq; [apply hoare_insert_derived_file|done|done|by left].
Qed.

Lemma hoare_commit : hoare Running db_commit (fun _ => Running) Sound.
Proof. eapply hoare_conseq; [apply hoare_db_commit|done|done|by left]. Qed.

Lemma hoare_finish (em rid : option string) :
  hoare Running
        (Worker.update_job_status job_id JobStatus.COMPLETED em rid ;;
         Worker.mark_file_ready file_id)
        (fun _ => Settled) Sound.
Proof. eapply hoare_conseq; [apply hoare_complete|done|done|by left]. Qed.

(** Recording a failure keeps what has been reached. *)
Lemma hoare_record (s : JobStatus.t) (em : option string) :
  s <> JobStatus.COMPLETED ->
  hoare Sound (Worker.update_job_status job_id s em None) (fun _ => Sound) Sound.
Proof.
  intros Hs w [H|H].
  - pose proof (hoare_update_running s em Hs w H) as Hr.
    destruct (Worker.update_job_status _ _ _ _ w) as [[[]|e] w']; by left.
  - pose proof (hoare_update_settled s em w H) as Hr.
    destruct (Worker.update_job_status _ _ _ _ w) as [[[]|e] w']; by right.
Qed.

Lemma hoare_mark_file_failed :
  hoare Running (SecurityWorker.mark_file_failed file_id) (fun _ => Running) Sound.
Proof.
  intros [d s txf txd objs tmp br ev clk ent] H. cbn in H.
  destruct H as (-> & Hthere & Hn & Hsess).
  unfold SecurityWorker.mark_file_failed. db_unfold. cbn.
  destruct txf; cbn; [by left|].
  destruct (Hsess eq_refl) as [[f Hf] Hsn].
  assert (Halter : file_there file_id
            (with_files (alter (File.set_status FileStatus.FAILED) file_id (files s)) s)).
  { unfold file_there. cbn. rewrite lookup_alter_eq, Hf. by eexists. }
  destruct (sql_literal_ok file_id); cbn; [done|by left].
Qed.

Lemma hoare_store_tags (tags : list string) :
  hoare Running (AIWorker.store_tags file_id tags) (fun _ => Running) Sound.
Proof.
  intros [d s txf txd objs tmp br ev clk ent] H. cbn in H.
  destruct H as (-> & Hthere & Hn & Hsess).
  unfold AIWorker.store_tags. db_unfold. cbn.
  destruct txf; cbn; [by left|].
  destruct (Hsess eq_refl) as [[f Hf] Hsn].
  destruct (file_metadata s !! file_id); cbn; [done|].
  rewrite Hf. cbn. done.
Qed.

(** The AI worker's order: the File goes to READY and is committed before
    the job is marked. *)
Lemma hoare_ready_then_commit {A} (k : M A) (Q : A -> World -> Prop) :
  hoare Settled k Q Sound ->
  hoare Running
        (file <- Worker.query_file file_id ;;
         match file with
         | Some file =>
             db_update (fun d =>
               with_files (<[file_id := File.set_status FileStatus.READY file]> (files d)) d)
         | None => ret tt
         end ;;
         db_commit ;;
         k)
        Q Sound.
Proof.
  intros Hk [d s txf txd objs tmp br ev clk ent] H. cbn in H.
  destruct H as (-> & Hthere & Hn & Hsess).
  db_unfold. cbn.
  destruct txf; cbn; [by left|].
  destruct (Hsess eq_refl) as [[f Hf] Hsn].
  rewrite Hf. cbn.
  apply Hk. cbn.
  split; [done|]. split; [apply file_ready_insert|]. intros _. apply file_ready_insert.
Qed.

Lemma hoare_mark (s : JobStatus.t) (em : option string) :
  hoare Settled (Worker.update_job_status job_id s em None) (fun _ => Sound) Sound.
Proof.
  eapply hoare_conseq; [apply hoare_update_settled|done|by right|by right].
Qed.

Lemma hoare_close : hoare Sound db_close (fun _ => Sound) Sound.
Proof. apply hoare_reset_sound. Qed.

Lemma hoare_rollback : hoare Sound db_rollback (fun _ => Sound) Sound.
Proof. apply hoare_reset_sound. Qed.
End Completion.

(** *** The image worker *)

Section ImageCompletion.
Context {PY : Python} {PIL : Pillow}.

Lemma keeps_parse_size (size : string) : keeps db_part (ImageWorker.parse_size size).
Proof. unfold ImageWorker.parse_size. keeps_auto. Qed.

Lemma keeps_image_run_handler (job_type : string) (params : list (string * json))
    (input_path base_name : string) :
  keeps db_part (ImageWorker.run_handler job_type params input_path base_name).
Proof.
  unfold ImageWorker.run_handler, ImageWorker.create_thumbnail, ImageWorker.convert_image,
    ImageWorker.compress_image.
  repeat first [keeps_step | apply keeps_parse_size | solve [auto with keeps]].
Qed.

Lemma image_worker_sound (e : Envelope) :
  hoare (fun w => file_there (env_file_id e) (db w))
        (ImageWorker.process_image_job e)
        (fun _ w => sound (env_job_id e) (env_file_id e) (db_part w))
        (fun w => sound (env_job_id e) (env_file_id e) (db_part w)).
Proof.
  unfold ImageWorker.process_image_job, ImageWorker.update_job_status.
  eapply hoare_bind; [apply hoare_open_session|intros []].
  eapply hoare_try_finally
    with (Q' := fun _ w => sound (env_job_id e) (env_file_id e) (db_part w))
         (E' := fun w => sound (env_job_id e) (env_file_id e) (db_part w));
    [|intros []; apply hoare_close|apply hoare_close].
  eapply hoare_try_except
    with (E' := fun w => sound (env_job_id e) (env_file_id e) (db_part w)).
  - eapply hoare_bind; [apply hoare_start|intros []].
    eapply hoare_bind; [apply hoare_keeps_running; auto with keeps|intros input_path].
    eapply hoare_bind; [apply hoare_keeps_running; auto with keeps|intros []].
    eapply hoare_bind; [apply hoare_keeps_running; auto with keeps|intros file_obj].
    eapply hoare_bind;
      [apply hoare_keeps_running; apply keeps_image_run_handler
      |intros [[output_path output_bucket] output_key]].
    eapply hoare_bind with (R := fun _ w => settled (env_file_id e) (db_part w));
      [|intros []; apply hoare_keeps_settled; auto with keeps].
    destruct (Worker.have_output _ _ _).
    + eapply hoare_bind; [apply hoare_keeps_running; auto with keeps|intros []].
      eapply hoare_bind; [apply hoare_keeps_running; auto with keeps|intros output_size].
      eapply hoare_bind; [apply hoare_keeps_running; auto with keeps|intros n].
      eapply hoare_bind; [apply hoare_insert|intros []].
      eapply hoare_bind; [apply hoare_commit|intros []].
      apply hoare_finish.
    + apply hoare_finish.
  - intros ex.
    eapply hoare_bind; [apply hoare_rollback|intros []].
    by apply hoare_record.
Qed.
End ImageCompletion.

(** *** The video worker *)

Section VideoCompletion.
Context {PY : Python} {FF : FFmpeg}.

Lemma keeps_subprocess_run (cmd : list json) (input_path output_path : string) :
  keeps db_part (VideoWorker.subprocess_run cmd input_path output_path).
Proof. unfold VideoWorker.subprocess_run. keeps_auto. Qed.

Lemma keeps_video_run_handler (job_type : string) (params : list (string * json))
    (input_path file_id base_name : string) :
  keeps db_part (VideoWorker.run_handler job_type params input_path file_id base_name).
Proof.
  unfold VideoWorker.run_handler, VideoWorker.create_video_thumbnail,
    VideoWorker.create_video_preview, VideoWorker.convert_video.
  repeat first [keeps_step | apply keeps_subprocess_run | solve [auto with keeps]].
Qed.

Lemma video_worker_sound (e : Envelope) :
  hoare (fun w => file_there (env_file_id e) (db w))
        (VideoWorker.process_video_job e)
        (fun _ w => sound (env_job_id e) (env_file_id e) (db_part w))
        (fun w => sound (env_job_id e) (env_file_id e) (db_part w)).
Proof.
  unfold VideoWorker.process_video_job, VideoWorker.update_job_status.
  eapply hoare_bind; [apply hoare_open_session|intros []].
  eapply hoare_try_finally
    with (Q' := fun _ w => sound (env_job_id e) (env_file_id e) (db_part w))
         (E' := fun w => sound (env_job_id e) (env_file_id e) (db_part w));
    [|intros []; apply hoare_close|apply hoare_close].
  eapply hoare_try_except
    with (E' := fun w => sound (env_job_id e) (env_file_id e) (db_part w)).
  - eapply hoare_bind; [apply hoare_start|intros []].
    eapply hoare_bind; [apply hoare_keeps_running; auto with keeps|intros file].
    destruct file as [file|]; [|apply hoare_raise; intros w H; by left].
    eapply hoare_bind; [apply hoare_keeps_running; auto with keeps|intros input_path].
    eapply hoare_bind; [apply hoare_keeps_running; auto with keeps|intros []].
    eapply hoare_bind;
      [apply hoare_keeps_running; apply keeps_video_run_handler
      |intros [[[output_path output_bucket] output_key] output_filename]].
    eapply hoare_bind with (R := fun _ w => settled (env_file_id e) (db_part w));
      [|intros []; apply hoare_keeps_settled; auto with keeps].
    destruct (Worker.have_output _ _ _).
    + eapply hoare_bind; [apply hoare_keeps_running; auto with keeps|intros []].
      eapply hoare_bind; [apply hoare_keeps_running; auto with keeps|intros output_size].
      eapply hoare_bind; [apply hoare_keeps_running; auto with keeps|intros n].
      eapply hoare_bind; [apply hoare_insert|intros []].
      eapply hoare_bind; [apply hoare_commit|intros []].
      apply hoare_finish.
    + apply hoare_finish.
  - intros ex. by apply hoare_record.
Qed.
End VideoCompletion.

(** *** The security worker *)

Section SecurityCompletion.
Context {PY : Python} {CL : ClamAV} {FN : Fernet} {ZP : Zipfile}.

Lemma keeps_scan_file_for_virus (path : string) :
  keeps db_part (SecurityWorker.scan_file_for_virus path).
Proof. unfold SecurityWorker.scan_file_for_virus. keeps_auto. Qed.

Lemma keeps_original_name_of (file_id : string) :
  keeps db_part (SecurityWorker.original_name_of file_id).
Proof. unfold SecurityWorker.original_name_of. keeps_auto. Qed.

Lemma keeps_encrypt_file (input_path output_path : string) (password : json) :
  keeps db_part (SecurityWorker.encrypt_file input_path output_path password).
Proof. unfold SecurityWorker.encrypt_file, SecurityWorker.encode. keeps_auto. Qed.

Lemma keeps_decrypt_file (input_path output_path : string) (password : json) :
  keeps db_part (SecurityWorker.decrypt_file input_path output_path password).
Proof. unfold SecurityWorker.decrypt_file. keeps_auto. Qed.

(** After the handler, either an output is pending and the job is still
    under way, or the scan has settled the job one way or the other. *)
Lemma hoare_security_run_handler (e : Envelope) (input_path : string) :
  hoare (fun w => running (env_job_id e) (env_file_id e) (db_part w))
        (SecurityWorker.run_handler (env_job_id e) (env_file_id e) (env_type e)
                                    (env_params e) input_path)
        (fun out w =>
           (Worker.have_output out.1.1 out.1.2 out.2 = true ->
            running (env_job_id e) (env_file_id e) (db_part w))
           /\ sound (env_job_id e) (env_file_id e) (db_part w))
        (fun w => sound (env_job_id e) (env_file_id e) (db_part w)).
Proof.
  unfold SecurityWorker.run_handler, SecurityWorker.update_job_status.
  destruct (String.eqb (env_type e) "virus_scan").
  { eapply hoare_bind;
      [apply hoare_keeps_running; apply keeps_scan_file_for_virus|intros [is_clean result]].
    eapply hoare_bind
      with (R := fun _ w => sound (env_job_id e) (env_file_id e) (db_part w));
      [|intros []; apply hoare_ret; intros w H; split; [discriminate|exact H]].
    destruct is_clean.
    - eapply hoare_conseq; [apply hoare_finish|done|by right|done].
    - eapply hoare_bind; [apply hoare_mark_file_failed|intros []].
      eapply hoare_conseq;
        [apply (hoare_update_running (env_job_id e) (env_file_id e) JobStatus.FAILED);
         discriminate
        |done|by left|by left]. }
  assert (Hout : forall (m : M (option string * option string * option string)),
            keeps db_part m ->
            hoare (fun w => running (env_job_id e) (env_file_id e) (db_part w)) m
                  (fun out w =>
                     (Worker.have_output out.1.1 out.1.2 out.2 = true ->
                      running (env_job_id e) (env_file_id e) (db_part w))
                     /\ sound (env_job_id e) (env_file_id e) (db_part w))
                  (fun w => sound (env_job_id e) (env_file_id e) (db_part w))).
  { intros m Hm. eapply hoare_conseq;
      [apply (hoare_keeps_running (env_job_id e) (env_file_id e) m Hm)
      |done|intros out w H; split; [done|by left]|done]. }
  apply Hout.
  repeat first [keeps_step | apply keeps_original_name_of | apply keeps_encrypt_file
               | apply keeps_decrypt_file | solve [auto with keeps]].
Qed.

Lemma security_worker_sound (e : Envelope) :
  hoare (fun w => file_there (env_file_id e) (db w))
        (SecurityWorker.process_security_job e)
        (fun _ w => sound (env_job_id e) (env_file_id e) (db_part w))
        (fun w => sound (env_job_id e) (env_file_id e) (db_part w)).
Proof.
  unfold SecurityWorker.process_security_job, SecurityWorker.update_job_status.
  eapply hoare_bind; [apply hoare_open_session|intros []].
  eapply hoare_try_finally
    with (Q' := fun _ w => sound (env_job_id e) (env_file_id e) (db_part w))
         (E' := fun w => sound (env_job_id e) (env_file_id e) (db_part w));
    [|intros []; apply hoare_close|apply hoare_close].
  eapply hoare_try_except
    with (E' := fun w => sound (env_job_id e) (env_file_id e) (db_part w)).
  - eapply hoare_bind; [apply hoare_start|intros []].
    eapply hoare_bind; [apply hoare_keeps_running; auto with keeps|intros input_path].
    eapply hoare_bind; [apply hoare_keeps_running; auto with keeps|intros []].
    eapply hoare_bind;
      [apply hoare_security_run_handler
      |intros [[output_path output_bucket] output_key]].
    eapply hoare_bind with (R := fun _ w => sound (env_job_id e) (env_file_id e) (db_part w));
      [|intros []; apply hoare_keeps_sound; auto with keeps].
    cbn [fst snd].
    destruct (Worker.have_output _ _ _).
    + eapply hoare_conseq
        with (P' := fun w => running (env_job_id e) (env_file_id e) (db_part w))
             (Q' := fun _ w => settled (env_file_id e) (db_part w))
             (E' := fun w => sound (env_job_id e) (env_file_id e) (db_part w));
        [|intros w [H _]; by apply H|by right|done].
      eapply hoare_bind; [apply hoare_keeps_running; auto with keeps|intros []].
      eapply hoare_bind; [apply hoare_keeps_running; auto with keeps|intros output_size].
      eapply hoare_bind; [apply hoare_keeps_running; auto with keeps|intros n].
      eapply hoare_bind; [apply hoare_insert|intros []].
      eapply hoare_bind; [apply hoare_commit|intros []].
      apply hoare_finish.
    + apply hoare_ret. by intros w [_ H].
  - intros ex. by apply hoare_record.
Qed.
End SecurityCompletion.

(** *** The AI worker *)

Section AICompletion.
Context {PY : Python} {GM : Gemini}.

Lemma keeps_analyze_image_with_gemini (path : string) :
  keeps db_part (AIWorker.analyze_image_with_gemini path).
Proof. unfold AIWorker.analyze_image_with_gemini. keeps_auto. Qed.

Lemma ai_worker_sound (e : Envelope) :
  hoare (fun w => file_there (env_file_id e) (db w))
        (AIWorker.process_ai_job e)
        (fun _ w => sound (env_job_id e) (env_file_id e) (db_part w))
        (fun w => sound (env_job_id e) (env_file_id e) (db_part w)).
Proof.
  unfold AIWorker.process_ai_job, AIWorker.update_job_status.
  eapply hoare_bind; [apply hoare_open_session|intros []].
  eapply hoare_try_finally
    with (Q' := fun _ w => sound (env_job_id e) (env_file_id e) (db_part w))
         (E' := fun w => sound (env_job_id e) (env_file_id e) (db_part w));
    [|intros []; apply hoare_close|apply hoare_close].
  eapply hoare_try_except
    with (E' := fun w => sound (env_job_id e) (env_file_id e) (db_part w)).
  - eapply hoare_bind; [apply hoare_start|intros []].
    eapply hoare_bind; [apply hoare_keeps_running; auto with keeps|intros input_path].
    eapply hoare_bind; [apply hoare_keeps_running; auto with keeps|intros []].
    eapply hoare_bind with (R := fun _ w => sound (env_job_id e) (env_file_id e) (db_part w));
      [|intros []; apply hoare_keeps_sound; auto with keeps].
    destruct (String.eqb (env_type e) "ai_tag").
    + eapply hoare_bind;
        [apply hoare_keeps_running; apply keeps_analyze_image_with_gemini|intros tags].
      eapply hoare_bind; [apply hoare_store_tags|intros []].
      apply hoare_ready_then_commit. apply hoare_mark.
    + apply hoare_ret. intros w H. by left.
  - intros ex. by apply hoare_record.
Qed.
End AICompletion.


Section CompletionExamples.
Import Demo.

End CompletionExamples.

(** ** Redelivery *)

Section Redelivery.
Context {PY : Python}.

(** The first statement of every worker overwrites the status it finds. *)
Lemma update_running_forgets (job_id : string) (s : JobStatus.t) (w : World) :
  Worker.update_job_status job_id JobStatus.RUNNING None None
    (reset_session (with_job_status job_id s w))
  = Worker.update_job_status job_id JobStatus.RUNNING None None
      (reset_session (with_job_status job_id JobStatus.QUEUED w)).
Proof.
  destruct w as [[dj df dp dm] s0 txf txd objs tmp br ev clk ent].
  unfold with_job_status. norm.
  destruct (dj !! job_id) as [j|] eqn:Hj.
  - erewrite !update_job_status_run;
      [|split; reflexivity|norm; by rewrite lookup_alter_eq, Hj|discriminate
       |split; reflexivity|norm; by rewrite lookup_alter_eq, Hj|discriminate].
    norm. rewrite !insert_alter_eq. by destruct j.
  - by rewrite !(alter_id' _ _ _ Hj).
Qed.

Lemma first_statement {A} (m : M unit) (k : M A) (h : PyExc -> M A) (c : M unit)
    (w1 w2 : World) :
  m (reset_session w1) = m (reset_session w2) ->
  (SessionLocal ;; try_finally (try_except (m ;; k) h) c) w1
  = (SessionLocal ;; try_finally (try_except (m ;; k) h) c) w2.
Proof.
  intros Hm. unfold bind at 1 3, SessionLocal, modify.
  unfold try_finally, try_except, bind. by rewrite Hm.
Qed.
End Redelivery.

(** C1 (amended). A redelivered envelope is not skipped.  Whatever
    status its Job row has when the envelope arrives (COMPLETED and
    FAILED included), each worker processes it exactly as it would with
    the row QUEUED: the same result, rows, objects and events.  The
    status found is overwritten by RUNNING before anything else is done. *)
Theorem redelivery_runs_the_job_again {PY : Python} {PIL : Pillow} {FF : FFmpeg}
    {CL : ClamAV} {FN : Fernet} {ZP : Zipfile} {GM : Gemini}
    (e : Envelope) (w : World) (s : JobStatus.t) :
  ImageWorker.process_image_job e (with_job_status (env_job_id e) s w)
  = ImageWorker.process_image_job e (with_job_status (env_job_id e) JobStatus.QUEUED w)
  /\ VideoWorker.process_video_job e (with_job_status (env_job_id e) s w)
     = VideoWorker.process_video_job e (with_job_status (env_job_id e) JobStatus.QUEUED w)
  /\ SecurityWorker.process_security_job e (with_job_status (env_job_id e) s w)
     = SecurityWorker.process_security_job e
         (with_job_status (env_job_id e) JobStatus.QUEUED w)
  /\ AIWorker.process_ai_job e (with_job_status (env_job_id e) s w)
     = AIWorker.process_ai_job e (with_job_status (env_job_id e) JobStatus.QUEUED w).
Proof.
  repeat split.
  - unfold ImageWorker.process_image_job. cbv zeta.
    apply first_statement, update_running_forgets.
  - unfold VideoWorker.process_video_job. cbv zeta.
    apply first_statement, update_running_forgets.
  - unfold SecurityWorker.process_security_job. cbv zeta.
    apply first_statement, update_running_forgets.
  - unfold AIWorker.process_ai_job. cbv zeta.
    apply first_statement, update_running_forgets.
Qed.

Section RedeliveryExamples.
Import Demo.

(** C1 as stated fails: the second delivery of a thumbnail envelope,
    after the first has COMPLETED the job, rewrites the Job row (new
    [updated_at], new [result_file_id]) and adds a second derived File
    row. *)
Lemma redelivery_counterexample :
  let e := Scenario.envelope "cat.png" JobType.THUMBNAIL in
  let w0 := Scenario.world "cat.png" FileStatus.PROCESSING JobType.THUMBNAIL
                           JobStatus.QUEUED [x68; x69] in
  let w1 := (ImageWorker.process_image_job e w0).2 in
  let w2 := (ImageWorker.process_image_job e w1).2 in
  Job.status <$> jobs (db w1) !! "j1" = Some JobStatus.COMPLETED
  /\ jobs (db w2) !! "j1" <> jobs (db w1) !! "j1"
  /\ Job.result_file_id <$> jobs (db w1) !! "j1" = Some (Some "00000000-0000-4000-8000-2")
  /\ Job.result_file_id <$> jobs (db w2) !! "j1" = Some (Some "00000000-0000-4000-8000-5")
  /\ size (files (db w1)) = 2 /\ size (files (db w2)) = 3.
Proof.
  split; [by vm_compute|].
  split; [vm_compute; discriminate|].
  repeat split; by vm_compute.
Qed.
End RedeliveryExamples.

(** ** Publishing and committing in [upload_file] *)

Section UploadOrder.
Context {PY : Python}.
Variable w0 : World.

Local Abbreviation Open := (upload_open w0).
Local Abbreviation Committed := (upload_committed w0).
Local Abbreviation Failed := (upload_failed w0).

Lemma upload_open_failed (w : World) : upload_open w0 w -> upload_failed w0 w.
Proof. intros (Hdb & _ & new & Hev & Hnc & _). split; [done|]. by exists new. Qed.

Lemma upload_open_view (w w' : World) :
  log_part w' = log_part w -> upload_open w0 w -> upload_open w0 w'.
Proof.
  destruct w, w'. unfold log_part, upload_open. cbn. by intros [= -> -> -> -> ->].
Qed.

Lemma upload_committed_view (w w' : World) :
  db w' = db w -> events w' = events w -> upload_committed w0 w -> upload_committed w0 w'.
Proof. unfold upload_committed. by intros -> ->. Qed.

Lemma upload_failed_view (w w' : World) :
  db w' = db w -> events w' = events w -> upload_failed w0 w -> upload_failed w0 w'.
Proof. unfold upload_failed. by intros -> ->. Qed.

(** Statements that leave rows, session and events alone. *)
Lemma hoare_quiet {A} (m : M A) :
  keeps log_part m -> hoare Open m (fun _ => Open) Failed.
Proof.
  intros Hk w H. specialize (Hk w).
  destruct (m w) as [[a|e] w']; cbn in Hk.
  - by apply (upload_open_view w).
  - apply upload_open_failed. by apply (upload_open_view w).
Qed.

Lemma hoare_put_object (path bucket key : string) :
  hoare Open (MinIOService.upload_file path bucket key) (fun _ => Open) Failed.
Proof.
  intros [d s txf txd objs tmp br ev clk ent] (Hdb & Hdel & new & Hev & Hnc & Hpub).
  cbn in *. subst.
  unfold MinIOService.upload_file, s3_upload_file, read_file, emit, bind, get, modify, ret,
    raise. cbn.
  destruct (tmp !! path); cbn.
  - split; [done|]. split; [done|]. exists (new ++ [EvPutObject bucket key]).
    split; [by rewrite app_assoc|]. split.
    + apply Forall_app. split; [done|]. constructor; [by intros []|constructor].
    + intros Hf q m Hin. apply elem_of_app in Hin as [Hin|Hin]; [by eapply Hpub|].
      apply list_elem_of_singleton in Hin. discriminate.
  - split; [done|]. by exists new.
Qed.

(** A statement that changes the session's rows without removing a Job. *)
Lemma hoare_session_update (f : DB -> DB) :
  (forall d k, is_Some (jobs d !! k) -> is_Some (jobs (f d) !! k)) ->
  hoare Open (db_update f) (fun _ => Open) Failed.
Proof.
  intros Hf [d s txf txd objs tmp br ev clk ent] (Hdb & Hdel & new & Hev & Hnc & Hpub).
  cbn in *. subst.
  unfold db_update, db_guard, bind, get, modify, ret, raise. cbn.
  destruct txf; cbn.
  - split; [done|]. by exists new.
  - split; [done|]. split; [done|]. exists new. split; [done|]. split; [done|].
    intros _ q m Hin. apply Hf. by eapply Hpub.
Qed.

Lemma hoare_db_fail {A} (e : PyExc) (Q : A -> World -> Prop) :
  hoare Open (db_fail e) Q Failed.
Proof.
  intros [d s txf txd objs tmp br ev clk ent] H.
  apply upload_open_failed in H. exact H.
Qed.

Lemma hoare_view : hoare Open db_view (fun s w => Open w /\ tx_failed w = false /\ s = session w) Failed.
Proof.
  intros [d s txf txd objs tmp br ev clk ent] H.
  unfold db_view, db_guard, bind, get, ret, raise. cbn.
  destruct txf; cbn; [by apply upload_open_failed|done].
Qed.

Lemma hoare_add_file (f : File.t) : hoare Open (Files.add_file f) (fun _ => Open) Failed.
Proof.
  unfold Files.add_file.
  eapply hoare_bind; [apply hoare_view|intros d].
  destruct (files d !! File.id f).
  - eapply hoare_pre; [apply hoare_db_fail|by intros w [H _]].
  - eapply hoare_pre; [apply hoare_session_update; by intros d' k|by intros w [H _]].
Qed.

Lemma keeps_log_draw : keeps log_part draw.
Proof. done. Qed.

Lemma keeps_log_utcnow : keeps log_part utcnow.
Proof. done. Qed.

Lemma hoare_add_pipeline (file_id name : string) (steps : list json) :
  hoare Open (Files.add_pipeline file_id name steps) (fun _ => Open) Failed.
Proof.
  unfold Files.add_pipeline.
  eapply hoare_bind; [apply hoare_quiet, keeps_log_draw|intros n].
  eapply hoare_bind; [apply hoare_quiet, keeps_log_utcnow|intros now].
  eapply hoare_bind; [apply hoare_view|intros d].
  destruct (pipelines d !! _).
  - eapply hoare_pre; [apply hoare_db_fail|by intros w [H _]].
  - eapply hoare_bind with (R := fun _ => Open); [|intros []; by apply hoare_ret].
    eapply hoare_pre; [apply hoare_session_update; by intros d' k|by intros w [H _]].
Qed.

(** A new Job row is in the session when [add_job] returns. *)
Lemma hoare_add_job (file_id pipeline_id : string) (type : JobType.t) :
  hoare Open (Files.add_job file_id pipeline_id type)
        (fun j w => Open w /\ tx_failed w = false
                    /\ is_Some (jobs (session w) !! Job.id j))
        Failed.
Proof.
  intros [d s txf txd objs tmp br ev clk ent] (Hdb & Hdel & new & Hev & Hnc & Hpub).
  cbn in *. subst.
  unfold Files.add_job, db_view, db_update, db_guard, db_fail, draw, utcnow, bind, get,
    modify, ret, raise. cbn.
  destruct txf; cbn.
  { split; [done|]. by exists new. }
  destruct (jobs s !! uuid4 ent) eqn:Hj; cbn.
  { split; [done|]. by exists new. }
  split; [|split; [done|cbn; by rewrite lookup_insert_eq]].
  split; [done|]. split; [done|]. exists new. split; [done|]. split; [done|].
  intros _ q m Hin. cbn. rewrite lookup_insert. case_decide; [done|]. by eapply Hpub.
Qed.

Lemma hoare_publish_job (queue : string) (m : Envelope) :
  hoare (fun w => Open w /\ tx_failed w = false
                  /\ is_Some (jobs (session w) !! env_job_id m))
        (RabbitMQService.publish_job queue m) (fun _ => Open) Failed.
Proof.
  intros [d s txf txd objs tmp br ev clk ent]
         ((Hdb & Hdel & new & Hev & Hnc & Hpub) & Hf & Hjob).
  cbn in *. subst.
  split; [done|]. split; [done|]. exists (new ++ [EvPublish queue m]).
  split; [by rewrite app_assoc|]. split.
  - apply Forall_app. split; [done|]. constructor; [by intros []|constructor].
  - intros _ q m' Hin. apply elem_of_app in Hin as [Hin|Hin]; [by eapply Hpub|].
    apply list_elem_of_singleton in Hin. by injection Hin as -> ->.
Qed.

Lemma hoare_db_commit_open : hoare Open db_commit (fun _ => Committed) Failed.
Proof.
  intros [d s txf txd objs tmp br ev clk ent] (Hdb & Hdel & new & Hev & Hnc & Hpub).
  cbn in *. subst.
  unfold db_commit, db_guard, db_fail, emit, bind, get, modify, ret, raise. cbn.
  destruct txf; cbn.
  { split; [done|]. by exists new. }
  exists new. split; [by rewrite app_assoc|]. split; [done|]. by apply Hpub.
Qed.

Lemma hoare_upload_body (temp_path user_id file_id storage_key filename : string)
    (content : bytes) (content_type pipeline_actions : option string) :
  hoare Open
        (Files.upload_body temp_path user_id file_id storage_key filename content
                           content_type pipeline_actions)
        (fun _ => Committed) Failed.
Proof.
  unfold Files.upload_body.
  eapply hoare_bind; [apply hoare_put_object|intros []].
  eapply hoare_bind; [apply hoare_quiet, keeps_log_utcnow|intros created].
  eapply hoare_bind; [apply hoare_add_file|intros []].
  eapply hoare_bind with (R := fun _ => Open).
  { destruct (opt_str_truthy pipeline_actions).
    - apply hoare_quiet, keeps_lift.
    - by apply hoare_ret. }
  intros actions.
  eapply hoare_bind with (R := fun _ => Open).
  { destruct (truthy actions); [|by apply hoare_ret].
    eapply hoare_bind; [apply hoare_quiet, keeps_lift|intros steps].
    eapply hoare_bind; [apply hoare_add_pipeline|intros pipeline].
    eapply hoare_bind; [apply hoare_quiet, keeps_lift|intros items].
    eapply hoare_bind with (R := fun _ => Open).
    - apply hoare_for_each. intros action _.
      eapply hoare_bind; [apply hoare_quiet, keeps_lift|intros type].
      eapply hoare_bind; [apply hoare_add_job|intros job].
      eapply hoare_pre; [apply hoare_publish_job|intros w H; exact H].
    - intros []. apply hoare_session_update. by intros d k. }
  intros [].
  eapply hoare_bind; [apply hoare_db_commit_open|intros []].
  by apply hoare_ret.
Qed.

(** Removing the temporary file does not fail and touches nothing else. *)
Lemma remove_temp_run (path : string) (w : World) :
  exists t, (e <- os_path_exists path ;; when e (os_unlink path)) w
            = (Ret tt, with_tmpfs t w).
Proof.
  unfold os_path_exists, os_unlink, when, bind, get, modify, ret, raise.
  destruct (tmpfs w !! path) as [x|] eqn:Hx.
  - rewrite bool_decide_eq_true_2 by done. rewrite Hx. by eexists.
  - rewrite bool_decide_eq_false_2 by (by intros [? ?]).
    exists (tmpfs w). by destruct w.
Qed.

Lemma hoare_upload_file (filename : string) (content : bytes)
    (content_type pipeline_actions : option string) (user_id : string) :
  hoare (fun w => w = w0)
        (Files.upload_file filename content content_type pipeline_actions user_id)
        (fun _ => Committed) Failed.
Proof.
  unfold Files.upload_file, Files.get_db.
  eapply hoare_bind with (R := fun _ => Open).
  { intros w ->. destruct w0. cbn. split; [done|]. split; [done|].
    exists []. rewrite app_nil_r. split; [done|]. split; [constructor|].
    intros _ q m Hin. by apply elem_of_nil in Hin. }
  intros [].
  eapply hoare_try_finally with (Q' := fun _ => Committed) (E' := Failed).
  - eapply hoare_bind; [apply hoare_quiet, keeps_log_draw|intros n].
    eapply hoare_bind; [apply hoare_quiet; by intros w|intros temp_path].
    eapply hoare_bind; [apply hoare_quiet; by intros w|intros []].
    eapply hoare_try_finally with (Q' := fun _ => Committed) (E' := Failed).
    + apply hoare_upload_body.
    + intros _ w H. destruct (remove_temp_run temp_path w) as [t ->].
      by apply (upload_committed_view w).
    + intros w H. destruct (remove_temp_run temp_path w) as [t ->].
      by apply (upload_failed_view w).
  - intros _ w H. by apply (upload_committed_view w).
  - intros w H. by apply (upload_failed_view w).
Qed.
End UploadOrder.


Section UploadOrderExamples.
Import Demo.

End UploadOrderExamples.
(** ** The cascade of [delete_file] *)

(** A loop whose invariant counts the items done so far. *)
Lemma hoare_for_each_acc {A} (I : list A -> World -> Prop) (l : list A)
    (body : A -> M unit) (E : World -> Prop) :
  (forall pre x, hoare (I pre) (body x) (fun _ => I (pre ++ [x])) E) ->
  hoare (I []) (for_each l body) (fun _ => I l) E.
Proof.
  intros Hbody.
  assert (forall pre, hoare (I pre) (for_each l body) (fun _ => I (pre ++ l)) E) as H.
  { induction l as [|x l IH]; intros pre; simpl.
    - apply hoare_ret. intros w Hw. by rewrite app_nil_r.
    - eapply hoare_bind; [apply Hbody|]. intros [].
      eapply hoare_conseq; [apply (IH (pre ++ [x]))|done| |done].
      intros [] w Hw. by rewrite <- app_assoc in Hw. }
  apply (H []).
Qed.

Section CascadeRows.
Variable file_id : string.

Lemma elem_of_children (d : DB) (c : string) (f : File.t) :
  (c, f) ∈ children file_id d
  <-> files d !! c = Some f /\ File.parent_file_id f = Some file_id.
Proof.
  unfold children. by rewrite elem_of_map_to_list, map_lookup_filter_Some.
Qed.

Lemma child_of_children (d : DB) (c : string) :
  child_of file_id d c <-> c ∈ (children file_id d).*1.
Proof.
  rewrite list_elem_of_fmap. split.
  - intros (f & Hf & Hp). exists (c, f). split; [done|]. by apply elem_of_children.
  - intros ([c' f] & -> & Hin). apply elem_of_children in Hin. by exists f.
Qed.

Lemma job_selected_of (d : DB) (j : Job.t) :
  Files.job_selected file_id (children file_id d).*1 j = true <-> job_of file_id d j.
Proof.
  unfold Files.job_selected, job_of. rewrite orb_true_iff, bool_decide_eq_true.
  split; (intros [H|H]; [by left|right]).
  - destruct (Job.result_file_id j) as [r|]; [|done].
    apply bool_decide_eq_true in H. exists r. split; [|done]. by apply child_of_children.
  - destruct H as (c & Hc & ->). apply bool_decide_eq_true. by apply child_of_children.
Qed.

Lemma jobs_removed_subseteq (d0 d d' : DB) :
  jobs d' ⊆ jobs d -> jobs_removed file_id d0 d -> jobs_removed file_id d0 d'.
Proof. intros Hsub H k j Hk. apply (H k). by eapply lookup_weaken. Qed.
End CascadeRows.

Lemma references_file_false (d : DB) (fid : string) :
  map_Forall (fun _ f => File.parent_file_id f <> Some fid) (files d) ->
  map_Forall (fun _ j => Job.result_file_id j <> Some fid) (jobs d) ->
  references_file d fid = false.
Proof.
  intros Hf Hj. unfold references_file. apply orb_false_iff.
  split; apply bool_decide_eq_false; intros (k & x & Hk & Hx).
  - by apply (Hf k x).
  - by apply (Hj k x).
Qed.

Section CascadeRun.
Variables (file_id : string) (w0 : World) (file : File.t).
Hypothesis Hfile : files (db w0) !! file_id = Some file.
Hypothesis Hdel : deletable file_id (db w0).

Local Abbreviation Never := (fun _ : World => False).

Lemma not_own_child : file_id ∉ (children file_id (db w0)).*1.
Proof.
  intros (f & Hf & Hp)%child_of_children. destruct Hdel as [_ Hg].
  rewrite Hfile in Hf. injection Hf as <-.
  by apply (Hg file_id file Hfile Hp file_id file Hfile).
Qed.

Lemma hoare_delete_job (pre : list (string * Job.t)) (x : string * Job.t) :
  hoare (deleting_jobs w0 pre) (Files.db_delete_job x.1)
        (fun _ => deleting_jobs w0 (pre ++ [x])) Never.
Proof.
  intros [d s txf txd objs tmp br ev clk ent] (Hf & Htx & Hdb & Hev & Hobj & Hfiles & Hsub & Hdone).
  cbn in *. subst.
  unfold Files.db_delete_job, db_update, db_guard, bind, get, modify, ret. cbn.
  repeat split; try done.
  - etrans; [apply delete_subseteq|done].
  - apply Forall_app. split.
    + eapply Forall_impl; [exact Hdone|]. intros j Hj. cbn in *.
      apply lookup_delete_None. by right.
    + constructor; [|constructor]. cbn. apply lookup_delete_eq.
Qed.

Lemma hoare_commit_jobs :
  hoare (deleting_jobs w0
           (map_to_list (filter (fun kv => Files.job_selected file_id
                                             (children file_id (db w0)).*1 kv.2 = true)
                                (jobs (db w0)))))
        db_commit (fun _ => deleting_children file_id w0 []) Never.
Proof.
  intros [d s txf txd objs tmp br ev clk ent] (Hf & Htx & Hdb & Hev & Hobj & Hfiles & Hsub & Hdone).
  cbn in *. subst.
  unfold db_commit, db_guard, emit, bind, get, modify, ret. cbn.
  repeat split; try done; cbn; [|by rewrite Hfiles|intros k _; by rewrite Hfiles].
  intros k j Hk Hof.
  rewrite Forall_forall in Hdone.
  specialize (Hdone (k, j)). cbn in Hdone. rewrite Hdone in Hk; [done|].
  apply elem_of_map_to_list, map_lookup_filter_Some. split.
  - by eapply lookup_weaken.
  - by apply job_selected_of.
Qed.

Lemma hoare_delete_child (pre : list (string * File.t)) (x : string * File.t) :
  hoare (deleting_children file_id w0 pre)
        (try_except
           (MinIOService.delete_file (File.storage_bucket x.2) (File.storage_key x.2))
           (fun _ => ret tt) ;;
         Files.db_delete_file x.1)
        (fun _ => deleting_children file_id w0 (pre ++ [x])) Never.
Proof.
  intros [d s txf txd objs tmp br ev clk ent]
         (Hf & Htx & Hev & Hjobs & Hfiles & Hsj & Hdj & Hsf & Hrest & Hdone).
  cbn in *. subst.
  unfold MinIOService.delete_file, s3_delete_object, Files.db_delete_file, db_update,
    db_guard, try_except, emit, bind, get, modify, ret. cbn.
  unfold deleting_children, blob_absent, with_tx_deleted, with_session, with_objects,
    with_events. cbn.
  split; [done|]. split.
  { rewrite fmap_app. cbn. intros c [->|Hc]%elem_of_cons; apply elem_of_app.
    - right. by apply list_elem_of_singleton.
    - left. by apply Htx. }
  split.
  { rewrite fmap_app. cbn. by rewrite <- !app_assoc. }
  split; [done|]. split; [done|]. split.
  { etrans; [apply map_filter_subseteq|done]. }
  split; [done|]. split.
  { etrans; [apply delete_subseteq|done]. }
  split.
  { intros k Hk. rewrite fmap_app in Hk. cbn in Hk.
    apply not_elem_of_app in Hk as [Hk Hx].
    rewrite lookup_delete_ne; [by apply Hrest|].
    intros Heq. apply Hx. by apply list_elem_of_singleton. }
  apply Forall_app. split.
  - eapply Forall_impl; [exact Hdone|]. intros pf [Hpf Hblob]. unfold blob_absent in *.
    cbn in *. split; apply lookup_delete_None; by right.
  - constructor; [|constructor]. unfold blob_absent. cbn.
    split; apply lookup_delete_eq.
Qed.

Lemma hoare_commit_children :
  hoare (deleting_children file_id w0 (children file_id (db w0)))
        db_commit (fun _ => children_deleted file_id w0 file) Never.
Proof.
  intros [d s txf txd objs tmp br ev clk ent]
         (Hf & Htx & Hev & Hjobs & Hfiles & Hsj & Hdj & Hsf & Hrest & Hdone).
  cbn in *. subst.
  unfold db_commit, db_guard, db_fail, emit, bind, get, modify, ret, raise. cbn.
  unfold children_deleted, blob_absent, with_tx_deleted, with_db, with_tx_failed,
    with_events in *. cbn in *.
  assert (jobs_removed file_id (db w0) s) as Hrem by by eapply jobs_removed_subseteq.
  destruct (existsb (references_file s) txd) eqn:Href; cbn.
  { apply existsb_exists in Href as (c & Hc%list_elem_of_In%Htx & Href).
    rewrite references_file_false in Href; [done| |].
    - intros g f Hg Hp. apply child_of_children in Hc as (child & Hchild & Hpc).
      destruct Hdel as [_ Hgrand].
      apply (Hgrand c child Hchild Hpc g f); [|done]. by eapply lookup_weaken.
    - intros k j Hk Hr. apply (Hrem k j Hk). right. exists c.
      split; [|done]. by apply child_of_children. }
  exists d. repeat split; try done.
  - by rewrite <- !app_assoc.
  - intros c Hc%child_of_children. apply list_elem_of_fmap in Hc as (pf & -> & Hpf).
    rewrite Forall_forall in Hdone. by apply Hdone.
  - cbn. rewrite Hrest; [done|apply not_own_child].
  - cbn. by etrans.
  - eapply Forall_impl; [exact Hdone|]. by intros pf [_ H].
Qed.

Lemma hoare_delete_parent :
  hoare (children_deleted file_id w0 file)
        (d <- db_view ;;
         match files d !! file_id with
         | Some file =>
             try_except
               (MinIOService.delete_file (File.storage_bucket file) (File.storage_key file))
               (fun _ => ret tt) ;;
             (if bool_decide (is_Some (file_metadata d !! file_id))
              then Files.db_delete_file_metadata file_id else ret tt) ;;
             Files.db_delete_file file_id ;;
             db_commit
         | None =>
             raise (Exc "ObjectDeletedError" "Instance has been deleted, or its row is otherwise not present.")
         end)
        (fun _ => cascade_deleted file_id file w0) Never.
Proof.
  intros [d s txf txd objs tmp br ev clk ent]
         (d1 & Hf & Htx & Hs & Hev & Hd1 & (Hjobs & Hchildren & Hrow) & Hsj & Hsf & Hblobs).
  cbn in *. subst.
  assert (forall m : gmap string FileMetadata.t,
             references_file
               (mkDB (filter (fun kv => Files.job_cascaded (mkDB (jobs d) (files d) (pipelines d) m)
                                                          file_id kv.2 = false) (jobs d))
                     (delete file_id (files d))
                     (filter (fun kv => Pipeline.file_id kv.2 <> file_id) (pipelines d))
                     (delete file_id m)) file_id = false) as Href.
  { intros m. apply references_file_false; cbn.
    - intros k f [Hne Hk]%lookup_delete_Some Hp.
      rewrite (Hchildren k) in Hk; [done|]. exists f. split; [|done].
      by eapply lookup_weaken.
    - intros k j [Hk _]%map_lookup_filter_Some. destruct Hdel as [Hres _].
      apply (Hres k). by eapply lookup_weaken. }
  unfold db_view, MinIOService.delete_file, s3_delete_object, Files.db_delete_file_metadata,
    Files.db_delete_file, db_commit, db_update, db_guard, db_fail, try_except, emit, bind,
    get, modify, ret, raise. cbn.
  rewrite Hrow. cbn.
  unfold cascade_deleted, blob_absent.
  destruct (bool_decide (is_Some (file_metadata d !! file_id))); cbn;
    unfold with_tx_deleted, with_session, with_objects, with_events, with_db,
      with_tx_failed, with_file_metadata; cbn.
  all: destruct d as [dj df dp dm]; cbn in *.
  all: rewrite Href; cbn.
  all: exists d1, (mkDB dj df dp dm); cbn.
  all: split; [by repeat (rewrite <- app_assoc; cbn [app])|].
  all: split; [done|]. all: split; [done|].
  all: split;
    [split; [|split;
       [intros c Hc; apply lookup_delete_None; right; by apply Hchildren
       |apply lookup_delete_eq]]|].
  all: try (intros k j [Hk _]%map_lookup_filter_Some; by apply (Hjobs k)).
  all: split; [|apply lookup_delete_eq].
  all: eapply Forall_impl; [exact Hblobs|]; intros pf Hpf; cbn in *.
  all: apply lookup_delete_None; by right.
Qed.

Lemma hoare_assume {A} (phi : Prop) (P : World -> Prop) (m : M A)
    (Q : A -> World -> Prop) (E : World -> Prop) :
  (phi -> hoare P m Q E) -> hoare (fun w => phi /\ P w) m Q E.
Proof. intros H w [Hphi HP]. by apply H. Qed.

Lemma hoare_delete_file (user_id : string) :
  File.owner_id file = user_id ->
  hoare (fun w => w = w0) (Files.delete_file file_id user_id)
        (fun _ => cascade_deleted file_id file w0) Never.
Proof.
  intros Hown. unfold Files.delete_file, Files.get_db.
  eapply hoare_bind with (R := fun _ w => w = reset_session w0).
  { by intros w ->. }
  intros [].
  eapply hoare_try_finally
    with (Q' := fun _ => cascade_deleted file_id file w0) (E' := Never).
  - eapply hoare_bind with (R := fun d w => d = db w0 /\ deleting_jobs w0 [] w).
    { intros w ->. destruct w0. cbn. split; [done|]. by repeat split. }
    intros d. apply hoare_assume. intros ->.
    rewrite Hfile, bool_decide_eq_true_2 by done.
    eapply hoare_bind;
      [apply (hoare_for_each_acc (deleting_jobs w0)); intros pre x; apply hoare_delete_job
      |intros []].
    eapply hoare_bind; [apply hoare_commit_jobs|intros []].
    eapply hoare_bind;
      [apply (hoare_for_each_acc (deleting_children file_id w0)); intros pre x;
       apply hoare_delete_child
      |intros []].
    eapply hoare_bind; [apply hoare_commit_children|intros []].
    apply hoare_delete_parent.
  - intros _ w H. destruct w. exact H.
  - by intros w [].
Qed.
End CascadeRun.


Section CascadeExamples.
Import Demo.


End CascadeExamples.
(** * Further properties of the code *)

(** ** The read endpoints *)

(** A handler that only reads the rows: the request ends in the world it
    started in, the uncommitted state of the session dropped. *)
Lemma get_db_query {A} (k : DB -> M A) (w : World) :
  (forall d w', (k d w').2 = w') ->
  Files.get_db (d <- db_view ;; k d) w = ((k (db w) (reset_session w)).1, reset_session w).
Proof.
  intros Hk. unfold Files.get_db, SessionLocal, db_close, db_view, db_guard, try_finally,
    bind, get, modify, ret. cbn.
  specialize (Hk (db w) (reset_session w)).
  destruct (k (db w) (reset_session w)) as [r w'] eqn:Hrun. cbn in *. subst w'.
  by destruct r, w.
Qed.

Lemma elem_of_rows {A} (table : gmap string A) (x : A) :
  x ∈ rows table <-> exists k, table !! k = Some x.
Proof.
  unfold rows. rewrite list_elem_of_fmap. split.
  - intros ([k y] & -> & Hin). exists k. by apply elem_of_map_to_list.
  - intros (k & Hk). exists (k, x). split; [done|]. by apply elem_of_map_to_list.
Qed.

Lemma fst_map_pair {A B} (f : A -> B) (l : list A) :
  (List.map (fun x => (x, f x)) l).*1 = l.
Proof. induction l as [|x l IH]; [done|]. cbn. by rewrite IH. Qed.

#[local] Instance newer_total {A} (created_at : A -> nat) : Total (newer created_at).
Proof. intros a b. unfold newer. lia. Qed.
#[local] Instance older_total {A} (created_at : A -> nat) : Total (older created_at).
Proof. intros a b. unfold older. lia. Qed.

Lemma elem_of_newest_first {A} (created_at : A -> nat) (l : list A) (x : A) :
  x ∈ newest_first created_at l <-> x ∈ l.
Proof. unfold newest_first. by rewrite merge_sort_Permutation. Qed.

Lemma elem_of_oldest_first {A} (created_at : A -> nat) (l : list A) (x : A) :
  x ∈ oldest_first created_at l <-> x ∈ l.
Proof. unfold oldest_first. by rewrite merge_sort_Permutation. Qed.

Section ReadEndpoints.
Context {B3 : Boto3}.

Lemma query_own_file_Some (d : DB) (file_id user_id : string) (file : File.t) :
  FileViews.query_own_file d file_id user_id = Some file
  <-> files d !! file_id = Some file /\ File.owner_id file = user_id.
Proof.
  unfold FileViews.query_own_file. destruct (files d !! file_id) as [f|].
  - case_bool_decide as Hown.
    + split; [by intros [= <-]|by intros [[= ->] _]].
    + split; [done|]. by intros [[= ->] Ho].
  - split; [done|by intros [? _]].
Qed.

Lemma list_files_run (user_id : string) (w : World) :
  FileViews.list_files user_id w
  = (Ret (List.map (fun file =>
           (file,
            if bool_decide (File.status file ∈ [FileStatus.UPLOADED; FileStatus.READY])
            then Some (MinIOClient.generate_download_url
                         (File.storage_bucket file) (File.storage_key file) 3600)
            else None))
          (newest_first File.created_at
             (filter (fun file => File.owner_id file = user_id
                                  /\ File.is_processed_output file = false)
                     (rows (files (db w)))))),
     reset_session w).
Proof. unfold FileViews.list_files. by rewrite get_db_query. Qed.

Lemma query_own_file_None (d : DB) (file_id user_id : string) :
  (forall file, files d !! file_id = Some file -> File.owner_id file <> user_id) ->
  FileViews.query_own_file d file_id user_id = None.
Proof.
  intros Hother. destruct (FileViews.query_own_file d file_id user_id) as [f|] eqn:Hq; [|done].
  apply query_own_file_Some in Hq as [Hf Ho]. by destruct (Hother f Hf).
Qed.

Lemma get_file_jobs_run (file_id user_id : string) (w : World) :
  FileViews.get_file_jobs file_id user_id w
  = (match FileViews.query_own_file (db w) file_id user_id with
     | None => Raise Files.http_404
     | Some _ =>
         Ret (oldest_first Job.created_at
                (filter (fun job => Job.file_id job = file_id) (rows (jobs (db w)))))
     end, reset_session w).
Proof.
  unfold FileViews.get_file_jobs. rewrite get_db_query.
  - by destruct (FileViews.query_own_file (db w) file_id user_id).
  - intros d w'. by destruct (FileViews.query_own_file d file_id user_id).
Qed.

Lemma list_jobs_run (user_id : string) (w : World) :
  Jobs.list_jobs user_id w
  = (Ret (newest_first Job.created_at
            (filter (fun job => File.owner_id <$> files (db w) !! Job.file_id job
                                = Some user_id)
                    (rows (jobs (db w))))),
     reset_session w).
Proof. unfold Jobs.list_jobs. by rewrite get_db_query. Qed.

Lemma get_job_run (job_id user_id : string) (w : World) :
  Jobs.get_job job_id user_id w
  = (match jobs (db w) !! job_id with
     | None => Raise Jobs.http_404
     | Some job =>
         match files (db w) !! Job.file_id job with
         | Some file =>
             if bool_decide (File.owner_id file <> user_id) then Raise Jobs.http_403
             else Ret job
         | None => Raise (Exc "AttributeError" "'NoneType' object has no attribute 'owner_id'")
         end
     end, reset_session w).
Proof.
  unfold Jobs.get_job. rewrite get_db_query.
  - destruct (jobs (db w) !! job_id) as [job|]; [|done].
    destruct (files (db w) !! Job.file_id job) as [file|]; [|done].
    by case_bool_decide.
  - intros d w'. destruct (jobs d !! job_id) as [job|]; [|done].
    destruct (files d !! Job.file_id job) as [file|]; [|done].
    by case_bool_decide.
Qed.

Lemma download_file_run (file_id user_id : string) (w : World) :
  FileViews.download_file file_id user_id w
  = (match FileViews.query_own_file (db w) file_id user_id with
     | None => Raise Files.http_404
     | Some file =>
         match objects w !! (File.storage_bucket file, File.storage_key file) with
         | Some obj =>
             Ret (FileViews.mkStreamingResponse obj
                    (if opt_str_truthy (File.mime_type file)
                     then default "" (File.mime_type file)
                     else "application/octet-stream")
                    ("attachment; filename=" +:+ String double_quote (File.original_name file)
                     +:+ String double_quote ""))
         | None => Raise FileViews.http_500
         end
     end, reset_session w).
Proof.
  unfold FileViews.download_file.
  assert (forall (file : File.t) (w' : World),
             try_except
               (obj <- MinIOClient.get_object (File.storage_bucket file)
                                              (File.storage_key file) ;;
                ret (FileViews.mkStreamingResponse obj
                       (if opt_str_truthy (File.mime_type file)
                        then default "" (File.mime_type file)
                        else "application/octet-stream")
                       ("attachment; filename="
                        +:+ String double_quote (File.original_name file)
                        +:+ String double_quote "")))
               (fun _ => raise FileViews.http_500) w'
             = (match objects w' !! (File.storage_bucket file, File.storage_key file) with
                | Some obj =>
                    Ret (FileViews.mkStreamingResponse obj
                           (if opt_str_truthy (File.mime_type file)
                            then default "" (File.mime_type file)
                            else "application/octet-stream")
                           ("attachment; filename="
                            +:+ String double_quote (File.original_name file)
                            +:+ String double_quote ""))
                | None => Raise FileViews.http_500
                end, w')) as Hbody.
  { intros file w'. unfold try_except, MinIOClient.get_object, bind, get, ret, raise.
    by destruct (objects w' !! _). }
  rewrite get_db_query.
  - destruct (FileViews.query_own_file (db w) file_id user_id) as [file|]; [|done].
    rewrite Hbody. by destruct w.
  - intros d w'. destruct (FileViews.query_own_file d file_id user_id) as [file|]; [|done].
    by rewrite Hbody.
Qed.

Lemma get_file_world (file_id user_id : string) (w : World) :
  (FileViews.get_file file_id user_id w).2 = reset_session w.
Proof.
  unfold FileViews.get_file. rewrite get_db_query; [done|].
  intros d w'. by destruct (FileViews.query_own_file d file_id user_id).
Qed.
End ReadEndpoints.

(** X1. The six read endpoints change nothing: the request ends in the
    world it started in, with a fresh session on the committed rows.  No
    row, object, envelope or event is added or removed. *)
Theorem read_endpoints_change_nothing {B3 : Boto3} (file_id job_id user_id : string)
    (w : World) :
  (FileViews.list_files user_id w).2 = reset_session w
  /\ (FileViews.get_file file_id user_id w).2 = reset_session w
  /\ (FileViews.get_file_jobs file_id user_id w).2 = reset_session w
  /\ (FileViews.download_file file_id user_id w).2 = reset_session w
  /\ (Jobs.get_job job_id user_id w).2 = reset_session w
  /\ (Jobs.list_jobs user_id w).2 = reset_session w.
Proof.
  rewrite list_files_run, get_file_world, get_file_jobs_run, download_file_run, get_job_run,
    list_jobs_run. done.
Qed.

(** X2. [list_files] always returns.  The Files listed are exactly the
    caller's own rows that are not processed outputs, newest first; a File
    carries a download URL exactly when its status is UPLOADED or
    READY. *)
Theorem list_files_own_uploads {B3 : Boto3} (user_id : string) (w : World) :
  exists l,
    (FileViews.list_files user_id w).1 = Ret l
    /\ (forall file,
          file ∈ l.*1
          <-> (exists k, files (db w) !! k = Some file)
              /\ File.owner_id file = user_id /\ File.is_processed_output file = false)
    /\ Sorted (fun a b => File.created_at b <= File.created_at a) l.*1
    /\ Forall (fun fu => is_Some fu.2
                         <-> File.status fu.1 = FileStatus.UPLOADED
                             \/ File.status fu.1 = FileStatus.READY) l.
Proof.
  rewrite list_files_run. eexists. split; [reflexivity|].
  rewrite fst_map_pair.
  split; [|split].
  - intros file. rewrite elem_of_newest_first, list_elem_of_filter, elem_of_rows.
    tauto.
  - apply (Sorted_merge_sort (newer File.created_at)).
  - apply List.Forall_map, Forall_forall. intros file _. cbn.
    case_bool_decide as Hs.
    + split; [|by eexists]. intros _.
      apply elem_of_cons in Hs as [Hs|Hs]; [by left|].
      apply list_elem_of_singleton in Hs. by right.
    + split; [by intros [? ?]|]. intros [Hu|Hr]; destruct Hs; rewrite ?Hu, ?Hr.
      * by left.
      * right. by left.
Qed.

(** X3. [list_jobs] always returns: exactly the Jobs whose File belongs
    to the caller, newest first. *)
Theorem list_jobs_own_jobs (user_id : string) (w : World) :
  exists l,
    (Jobs.list_jobs user_id w).1 = Ret l
    /\ (forall job,
          job ∈ l
          <-> (exists k, jobs (db w) !! k = Some job)
              /\ exists file, files (db w) !! Job.file_id job = Some file
                              /\ File.owner_id file = user_id)
    /\ Sorted (fun a b => Job.created_at b <= Job.created_at a) l.
Proof.
  rewrite list_jobs_run. eexists. split; [reflexivity|]. split.
  - intros job. rewrite elem_of_newest_first, list_elem_of_filter, elem_of_rows.
    rewrite fmap_Some. split.
    + intros [(file & Hf & Ho) Hk]. split; [done|]. by exists file.
    + intros [Hk (file & Hf & Ho)]. split; [|done]. by exists file.
  - apply (Sorted_merge_sort (newer Job.created_at)).
Qed.

(** X4. For a File of the caller, [get_file_jobs] returns exactly the
    Jobs on that File, oldest first. *)
Theorem get_file_jobs_of_own_file {B3 : Boto3} (file_id user_id : string) (file : File.t)
    (w : World) :
  files (db w) !! file_id = Some file ->
  File.owner_id file = user_id ->
  exists l,
    (FileViews.get_file_jobs file_id user_id w).1 = Ret l
    /\ (forall job,
          job ∈ l <-> (exists k, jobs (db w) !! k = Some job) /\ Job.file_id job = file_id)
    /\ Sorted (fun a b => Job.created_at a <= Job.created_at b) l.
Proof.
  intros Hfile Hown. rewrite get_file_jobs_run.
  rewrite (proj2 (query_own_file_Some _ _ _ file)) by done.
  eexists. split; [reflexivity|]. split.
  - intros job. rewrite elem_of_oldest_first, list_elem_of_filter, elem_of_rows. tauto.
  - apply (Sorted_merge_sort (older Job.created_at)).
Qed.



Section ReadExamples.
Import Demo.

(** The owner of "cat.png" sees its thumbnail job. *)
Lemma get_file_jobs_of_own_file_witness :
  exists l,
    (FileViews.get_file_jobs "f1" "u1" Scenario.processed).1 = Ret l
    /\ (forall job,
          job ∈ l
          <-> (exists k, jobs (db Scenario.processed) !! k = Some job)
              /\ Job.file_id job = "f1")
    /\ Sorted (fun a b => Job.created_at a <= Job.created_at b) l.
Proof.
  apply (get_file_jobs_of_own_file "f1" "u1" (Scenario.upload "cat.png" FileStatus.READY)).
  - by vm_compute.
  - reflexivity.
Defined.

End ReadExamples.

(** ** What a successful upload leaves *)

Lemma hoare_lift_eq {A} (P : World -> Prop) (r : PyExc + A) :
  hoare P (lift r) (fun a w => r = inr a /\ P w) (fun _ => True).
Proof. intros w Hw. by destruct r. Qed.

Lemma truthy_iterate (actions : json) (items : list json) :
  truthy actions = true -> Files.iterate actions = inr items -> items <> [].
Proof.
  destruct actions as [|b|z|s|l|l]; cbn; try done.
  - intros Hs [= <-]. by destruct s.
  - intros Hl [= <-]. by destruct l.
  - intros Hl [= <-]. by destruct l.
Qed.

Section UploadSuccess.
Context {PY : Python}.
Variables (filename : string) (content : bytes) (content_type : option string).
Variables (pipeline_actions : option string) (user_id : string).
Variable w0 : World.

Local Abbreviation Any := (fun _ : World => True).
Local Abbreviation fid := (new_file_id w0).
Local Abbreviation key := (new_storage_key filename user_id w0).
Local Abbreviation Uploading := (uploading filename content content_type user_id w0).
Local Abbreviation Announces := (announces filename user_id w0).

Lemma announces_weaken (d d' : DB) (action : json) (qm : string * Envelope) :
  jobs d ⊆ jobs d' -> pipelines d ⊆ pipelines d' ->
  Announces d action qm -> Announces d' action qm.
Proof.
  intros Hj Hp (Hq & Hf & Hb & Hk & Hpar & job & pipeline & Hjob & Hty & Hety & Hid & Hfile
                & Hst & Hres & Hpid & Hpipe & Hpf).
  repeat (split; [done|]). exists job, pipeline.
  split; [by eapply lookup_weaken|]. repeat (split; [done|]).
  split; [by eapply lookup_weaken|done].
Qed.

(** The first three statements of the body: the blob is stored and the
    File row is in the session when the rest [k] starts. *)
Lemma hoare_store {A} (temp_path : string) (k : M A) (Q : A -> World -> Prop) :
  hoare (Uploading [] FileStatus.UPLOADED) k Q Any ->
  hoare (fun w => tx_failed w = false /\ tx_deleted w = [] /\ session w = db w0
                  /\ db w = db w0 /\ objects w = objects w0 /\ broker w = broker w0
                  /\ clock w = clock w0 /\ tmpfs w !! temp_path = Some content)
        (MinIOService.upload_file temp_path "raw" key ;;
         created <- utcnow ;;
         Files.add_file
           (File.mk fid user_id filename "raw" key (length content)
                    (Some (if opt_str_truthy content_type
                           then default "" content_type
                           else "application/octet-stream"))
                    FileStatus.UPLOADED created false None) ;;
         k)
        Q Any.
Proof.
  intros Hk [d s txf txd objs tmp br ev clk ent]
         (Hf & Htx & Hs & Hdb & Hobj & Hbr & Hclk & Htmp).
  cbn in *. subst.
  unfold MinIOService.upload_file, s3_upload_file, read_file, utcnow, Files.add_file,
    db_view, db_update, db_guard, db_fail, emit, bind, get, modify, ret, raise. cbn.
  rewrite Htmp. cbn.
  destruct (files (db w0) !! fid) eqn:Hnew; cbn; [done|].
  apply Hk. unfold uploading, upload_rows. cbn.
  repeat (split; [done|]). exists nil. rewrite app_nil_r.
  repeat (split; [done|]). split; [intros id' j' Hid'; by left|].
  repeat (split; [done|]). constructor.
Qed.

(** One round of the loop over the actions. *)
Lemma hoare_submit (pipeline : Pipeline.t) (done : list json) (action : json) :
  Pipeline.file_id pipeline = fid ->
  hoare (fun w => Uploading done FileStatus.UPLOADED w
                  /\ pipelines (session w) !! Pipeline.id pipeline = Some pipeline)
        (type <- lift (Files.JobType_of action) ;;
         job <- Files.add_job fid (Pipeline.id pipeline) type ;;
         RabbitMQService.publish_job (Files.queue_for action)
           (mkEnvelope (Job.id job) fid "raw" key
                       (match action with JStr s => s | _ => py_str action end) []))
        (fun _ w => Uploading (done ++ [action]) FileStatus.UPLOADED w
                    /\ pipelines (session w) !! Pipeline.id pipeline = Some pipeline)
        Any.
Proof.
  intros Hpf [d s txf txd objs tmp br ev clk ent]
         ((Hf & Htx & Hdb & Hobj & new & Hbr & Hnew & Hfiles & Hjobs & Hold & Hsize & Hpipes & Hann)
          & Hpipe).
  cbn in *. subst.
  unfold bind at 1. destruct (Files.JobType_of action) as [e|type] eqn:Htype; cbn; [done|].
  assert (match action with JStr s => s | _ => py_str action end = JobType.value type)
    as Hname.
  { unfold Files.JobType_of in Htype. destruct action as [| | |name| |]; try done.
    destruct (JobType.of_value name) as [t|] eqn:Hv; [|done].
    injection Htype as <-. by apply of_value_Some. }
  unfold Files.add_job, RabbitMQService.publish_job, draw, utcnow, db_view, db_update,
    db_guard, db_fail, emit, bind, get, modify, ret, raise. cbn.
  destruct (jobs s !! uuid4 ent) eqn:Hfresh; cbn; [done|].
  unfold uploading, upload_rows. cbn.
  split; [|done]. repeat (split; [done|]).
  exists (new ++ [(Files.queue_for action,
                   mkEnvelope (uuid4 ent) fid "raw" key
                     (match action with JStr s => s | _ => py_str action end) [])]).
  split; [by rewrite app_assoc|]. repeat (split; [done|]).
  split; [etrans; [exact Hjobs|by apply insert_subseteq]|].
  split; [apply map_Forall_insert_2; [by right|exact Hold]|].
  split; [rewrite map_size_insert_None by done; rewrite length_app; cbn; lia|].
  split; [done|].
  apply Forall2_app.
  - eapply Forall2_impl; [exact Hann|]. intros a qm. apply announces_weaken; cbn; [|done].
    by apply insert_subseteq.
  - constructor; [|constructor]. unfold announces. cbn.
    repeat (split; [done|]). eexists _, pipeline. rewrite lookup_insert_eq.
    split; [reflexivity|]. cbn. by repeat (split; [done|]).
Qed.

Lemma hoare_new_pipeline (name : string) (steps : list json) :
  hoare (Uploading [] FileStatus.UPLOADED) (Files.add_pipeline fid name steps)
        (fun pipeline w =>
           Pipeline.file_id pipeline = fid
           /\ Uploading [] FileStatus.UPLOADED w
           /\ pipelines (session w) !! Pipeline.id pipeline = Some pipeline)
        Any.
Proof.
  intros [d s txf txd objs tmp br ev clk ent]
         (Hf & Htx & Hdb & Hobj & new & Hbr & Hnew & Hfiles & Hjobs & Hold & Hsize & Hpipes & Hann).
  cbn in *. subst.
  unfold Files.add_pipeline, draw, utcnow, db_view, db_update, db_guard, db_fail, bind, get,
    modify, ret, raise. cbn.
  destruct (pipelines s !! uuid4 ent) eqn:Hfresh; cbn; [done|].
  split; [done|]. split; [|by rewrite lookup_insert_eq].
  unfold uploading, upload_rows. cbn.
  repeat (split; [done|]). exists new. repeat (split; [done|]).
  split; [etrans; [exact Hpipes|by apply insert_subseteq]|].
  eapply Forall2_impl; [exact Hann|]. intros a qm. apply announces_weaken; cbn; [done|].
  by apply insert_subseteq.
Qed.

Lemma hoare_processing (done : list json) :
  hoare (Uploading done FileStatus.UPLOADED)
        (Files.set_file_status fid FileStatus.PROCESSING)
        (fun _ => Uploading done FileStatus.PROCESSING) Any.
Proof.
  intros [d s txf txd objs tmp br ev clk ent]
         (Hf & Htx & Hdb & Hobj & new & Hbr & Hnew & Hfiles & Hjobs & Hold & Hsize & Hpipes & Hann).
  cbn in *. subst.
  unfold Files.set_file_status, db_update, db_guard, bind, get, modify, ret. cbn.
  unfold uploading, upload_rows. cbn.
  repeat (split; [done|]). exists new. repeat (split; [done|]).
  split; [by rewrite Hfiles, alter_insert_eq|]. repeat (split; [done|]).
  eapply Forall2_impl; [exact Hann|]. intros a qm. by apply announces_weaken.
Qed.

Lemma hoare_commit_upload (actions : list json) (status : FileStatus.t) :
  status = match actions with [] => FileStatus.UPLOADED | _ => FileStatus.PROCESSING end ->
  hoare (Uploading actions status) db_commit
        (fun _ => uploaded filename content content_type user_id w0 actions) Any.
Proof.
  intros -> [d s txf txd objs tmp br ev clk ent]
         (Hf & Htx & Hdb & Hobj & new & Hbr & Hrows).
  cbn in *. subst.
  unfold db_commit, db_guard, emit, bind, get, modify, ret. cbn.
  split; [done|]. by exists new.
Qed.

Lemma hoare_upload_success (temp_path : string) :
  hoare (fun w => tx_failed w = false /\ tx_deleted w = [] /\ session w = db w0
                  /\ db w = db w0 /\ objects w = objects w0 /\ broker w = broker w0
                  /\ clock w = clock w0 /\ tmpfs w !! temp_path = Some content)
        (Files.upload_body temp_path user_id fid key filename content content_type
                           pipeline_actions)
        (fun r w => r = fid
                    /\ uploaded filename content content_type user_id w0
                                (requested pipeline_actions) w)
        Any.
Proof.
  unfold Files.upload_body. cbv zeta. apply hoare_store.
  eapply hoare_bind
    with (R := fun actions w =>
                 requested pipeline_actions
                 = (if truthy actions
                    then match Files.iterate actions with inr items => items | inl _ => [] end
                    else [])
                 /\ Uploading [] FileStatus.UPLOADED w).
  { unfold requested. destruct (opt_str_truthy pipeline_actions).
    - eapply hoare_conseq; [apply hoare_lift_eq|done| |done].
      intros a w [-> Hw]. done.
    - by apply hoare_ret. }
  intros actions. apply hoare_assume. intros Hreq.
  eapply hoare_bind
    with (R := fun _ w =>
                 Uploading (requested pipeline_actions)
                           (match requested pipeline_actions with
                            | [] => FileStatus.UPLOADED
                            | _ => FileStatus.PROCESSING
                            end) w).
  - destruct (truthy actions) eqn:Htruthy.
    + eapply hoare_bind; [apply hoare_lift_eq|]. intros steps. apply hoare_assume.
      intros Hsteps.
      eapply hoare_bind; [apply hoare_new_pipeline|]. intros pipeline.
      apply hoare_assume. intros Hpf.
      eapply hoare_bind; [apply hoare_lift_eq|]. intros items. apply hoare_assume.
      intros Hitems. rewrite Hitems in Hreq. rewrite Hreq.
      pose proof (truthy_iterate _ _ Htruthy Hitems) as Hne.
      eapply hoare_bind.
      * apply (hoare_for_each_acc
                 (fun done w =>
                    Uploading done FileStatus.UPLOADED w
                    /\ pipelines (session w) !! Pipeline.id pipeline = Some pipeline)).
        intros pre action. cbv zeta. by apply hoare_submit.
      * intros []. eapply hoare_conseq; [apply hoare_processing| | |done].
        -- by intros w [Hw _].
        -- cbn. intros _ w Hw. by destruct items.
    + rewrite Hreq. by apply hoare_ret.
  - intros [].
    eapply hoare_bind; [by apply hoare_commit_upload|]. intros [].
    by apply hoare_ret.
Qed.

Lemma uploaded_view (actions : list json) (w w' : World) :
  db w' = db w -> objects w' = objects w -> broker w' = broker w ->
  uploaded filename content content_type user_id w0 actions w ->
  uploaded filename content content_type user_id w0 actions w'.
Proof. unfold uploaded. by intros -> -> ->. Qed.

Lemma hoare_upload_result :
  hoare (fun w => w = w0)
        (Files.upload_file filename content content_type pipeline_actions user_id)
        (fun r w => r = fid
                    /\ uploaded filename content content_type user_id w0
                                (requested pipeline_actions) w)
        Any.
Proof.
  intros w ->. unfold Files.upload_file, Files.get_db, SessionLocal, db_close.
  unfold bind at 1, modify at 1. unfold try_finally at 1. unfold bind at 1, draw at 1.
  unfold bind at 1. rewrite NamedTemporaryFile_run. unfold bind at 1, write_file at 1, modify at 1.
  set (temp_path := tmp_path _ _). set (w1 := with_tmpfs _ _).
  unfold try_finally at 1.
  assert (entropy (reset_session w0) = entropy w0) as -> by by destruct w0.
  pose proof (hoare_upload_success temp_path w1) as Hbody.
  destruct (Files.upload_body _ _ _ _ _ _ _ _ w1) as [[r|e] w2].
  - destruct (remove_temp_run temp_path w2) as [t ->]. unfold modify. cbn.
    destruct Hbody as [-> Hup].
    { subst w1. destruct w0. cbn. repeat (split; [done|]). by rewrite lookup_insert_eq. }
    split; [done|]. revert Hup. apply uploaded_view; by destruct w2.
  - destruct (remove_temp_run temp_path w2) as [t ->]. by unfold modify.
Qed.
End UploadSuccess.

(** X7. A successful upload returns the id drawn for the File, and
    leaves: the content stored under the File's key in the bucket raw; the
    File row, UPLOADED when no action was requested and PROCESSING
    otherwise; every earlier row; and, for each requested action in order,
    one new QUEUED Job on the File, in a Pipeline of the File, with its
    envelope appended to the broker on the queue the router gives. *)
Theorem upload_file_result {PY : Python} (filename : string) (content : bytes)
    (content_type pipeline_actions : option string) (user_id : string) (w : World)
    (file_id : string) (w' : World) :
  Files.upload_file filename content content_type pipeline_actions user_id w
  = (Ret file_id, w') ->
  file_id = new_file_id w
  /\ uploaded filename content content_type user_id w (requested pipeline_actions) w'.
Proof.
  intros Hrun.
  pose proof (hoare_upload_result filename content content_type pipeline_actions user_id w
                w eq_refl) as H.
  by rewrite Hrun in H.
Qed.


Section UploadExamples2.
Import Demo.

(** An image uploaded with two actions. *)
Lemma upload_file_result_witness :
  let run :=
    Files.upload_file "cat.png" [x68; x69] (Some "image/png")
                      (Some (Scenario.actions_json ["thumbnail"; "ai_tag"])) "u1"
                      Demo.empty_world in
  run.1 = Ret "00000000-0000-4000-8000-0"
  /\ uploaded "cat.png" [x68; x69] (Some "image/png") "u1" Demo.empty_world
              [JStr "thumbnail"; JStr "ai_tag"] run.2.
Proof.
  cbv zeta.
  assert (requested (Some (Scenario.actions_json ["thumbnail"; "ai_tag"]))
          = [JStr "thumbnail"; JStr "ai_tag"]) as Hreq by by vm_compute.
  rewrite <- Hreq. split; [by vm_compute|].
  eapply upload_file_result. vm_compute. reflexivity.
Defined.

End UploadExamples2.

(** ** Actions and queues *)

Lemma JobType_of_inr {PY : Python} (action : json) (t : JobType.t) :
  Files.JobType_of action = inr t <-> action = JStr (JobType.value t).
Proof.
  split.
  - unfold Files.JobType_of. destruct action as [| | |s| |]; try done.
    destruct (JobType.of_value s) as [t'|] eqn:Hv; [|done].
    intros [= <-]. by apply of_value_Some in Hv as ->.
  - intros ->. unfold Files.JobType_of. by rewrite of_value_value.
Qed.

Lemma get_queue_for_job_type_cases (job_type : string) :
  RabbitMQService.get_queue_for_job_type job_type = "image_queue"
  \/ RabbitMQService.get_queue_for_job_type job_type = "video_queue"
  \/ RabbitMQService.get_queue_for_job_type job_type = "security_queue"
  \/ RabbitMQService.get_queue_for_job_type job_type = "ai_queue".
Proof.
  destruct (JobType.of_value job_type) as [t|] eqn:Hv.
  - apply of_value_Some in Hv as ->.
    destruct t; vm_compute; auto.
  - left. by apply get_queue_unknown.
Qed.

(** X9. Whatever the job type, known or not, the
    router answers with the queue of one of the four workers, and that
    queue is among those [_declare_queues] declares; nothing is ever
    routed to [metadata_queue] or [generic_queue]. *)
Theorem routed_queue_is_declared (job_type : string) :
  RabbitMQService.get_queue_for_job_type job_type
  ∈ ["image_queue"; "video_queue"; "security_queue"; "ai_queue"]
  /\ RabbitMQService.get_queue_for_job_type job_type ∈ RabbitMQQueues.queues.
Proof.
  assert (RabbitMQService.get_queue_for_job_type job_type
          ∈ ["image_queue"; "video_queue"; "security_queue"; "ai_queue"]) as Hin.
  { destruct (get_queue_for_job_type_cases job_type) as [-> | [-> | [-> | ->]]];
      repeat first [by left | right]. }
  split; [exact Hin|].
  unfold RabbitMQQueues.queues.
  repeat (apply elem_of_cons in Hin as [-> | Hin]; [repeat first [by left | right]|]).
  by apply elem_of_nil in Hin.
Qed.

(** ** An upload that names an unknown action *)

Lemma hoare_false {A} (m : M A) (Q : A -> World -> Prop) (E : World -> Prop) :
  hoare (fun _ => False) m Q E.
Proof. by intros w []. Qed.

Lemma hoare_bind_ret {A B} (P : World -> Prop) (a : A) (k : A -> M B)
    (Q : B -> World -> Prop) (E : World -> Prop) :
  hoare P (k a) Q E -> hoare P (bind (lift (inr a)) k) Q E.
Proof. intros Hk w Hw. by apply Hk. Qed.

(** A loop with an item on which the body always raises does not
    return. *)
Lemma hoare_for_each_raises {A} (I : World -> Prop) (l : list A) (body : A -> M unit)
    (E : World -> Prop) (bad : A) :
  bad ∈ l ->
  (forall x, hoare I (body x) (fun _ => I) E) ->
  hoare I (body bad) (fun _ _ => False) E ->
  hoare I (for_each l body) (fun _ _ => False) E.
Proof.
  intros Hin Hbody Hbad. induction l as [|x l IH]; [by apply elem_of_nil in Hin|].
  simpl. apply elem_of_cons in Hin as [<-|Hin].
  - eapply hoare_bind; [exact Hbad|]. intros []. apply hoare_false.
  - eapply hoare_bind; [apply Hbody|]. intros []. by apply IH.
Qed.

(** Leaves of computations that are not written with [modify]. *)
Ltac keeps_leaf := solve [intros ?; reflexivity].
Ltac keeps_all := repeat first [keeps_step | keeps_leaf].

Section UploadRejected.
Context {PY : Python}.

Lemma requested_elem (pipeline_actions : option string) (action : json) :
  action ∈ requested pipeline_actions ->
  opt_str_truthy pipeline_actions = true
  /\ exists actions items,
       json_loads (default "" pipeline_actions) = inr actions
       /\ truthy actions = true
       /\ Files.iterate actions = inr items
       /\ action ∈ items.
Proof.
  unfold requested. destruct (opt_str_truthy pipeline_actions); [|by intros ?%elem_of_nil].
  destruct (json_loads _) as [e|actions]; [by intros ?%elem_of_nil|].
  destruct (truthy actions) eqn:Ht; [|by intros ?%elem_of_nil].
  destruct (Files.iterate actions) as [e|items] eqn:Hi; [by intros ?%elem_of_nil|].
  intros Hin. split; [done|]. by exists actions, items.
Qed.

Let view (w : World) : DB * gmap (string * string) bytes := (db w, objects w).

Lemma keeps_add_file (f : File.t) : keeps view (Files.add_file f).
Proof.
  unfold Files.add_file, db_view, db_update, db_guard, db_fail. keeps_all.
Qed.

Lemma keeps_add_pipeline (file_id name : string) (steps : list json) :
  keeps view (Files.add_pipeline file_id name steps).
Proof.
  unfold Files.add_pipeline, draw, utcnow, db_view, db_update, db_guard, db_fail. keeps_all.
Qed.

Lemma keeps_add_job (file_id pipeline_id : string) (type : JobType.t) :
  keeps view (Files.add_job file_id pipeline_id type).
Proof.
  unfold Files.add_job, draw, utcnow, db_view, db_update, db_guard, db_fail. keeps_all.
Qed.

Lemma keeps_publish_job (queue : string) (m : Envelope) :
  keeps view (RabbitMQService.publish_job queue m).
Proof. unfold RabbitMQService.publish_job, emit. keeps_all. Qed.

Variables (filename : string) (content : bytes) (content_type : option string).
Variables (pipeline_actions : option string) (user_id : string).
Variable w0 : World.
Variables (bad : json) (e0 : PyExc).
Hypothesis Hbad : bad ∈ requested pipeline_actions.
Hypothesis Herr : Files.JobType_of bad = inl e0.

Local Abbreviation Kept :=
  (fun w : World =>
     db w = db w0
     /\ objects w !! ("raw", new_storage_key filename user_id w0) = Some content).

Lemma hoare_kept {A} (m : M A) : keeps view m -> hoare Kept m (fun _ => Kept) Kept.
Proof.
  intros Hk.
  apply (keeps_hoare view m
           (fun v => v.1 = db w0
                     /\ v.2 !! ("raw", new_storage_key filename user_id w0) = Some content)
           Hk).
Qed.

Lemma hoare_upload_rejected (temp_path : string) :
  hoare (fun w => db w = db w0 /\ tmpfs w !! temp_path = Some content)
        (Files.upload_body temp_path user_id (new_file_id w0)
                           (new_storage_key filename user_id w0) filename content
                           content_type pipeline_actions)
        (fun _ _ => False) Kept.
Proof.
  destruct (requested_elem _ _ Hbad) as (Hpa & actions & items & Hloads & Htruthy & Hiter & Hin).
  unfold Files.upload_body. cbv zeta. rewrite Hpa, Hloads.
  eapply hoare_bind with (R := fun _ => Kept).
  { intros [d s txf txd objs tmp br ev clk ent] [Hdb Htmp]. cbn in *.
    unfold MinIOService.upload_file, s3_upload_file, read_file, emit, bind, get, modify, ret.
    cbn. rewrite Htmp. cbn. split; [done|]. by rewrite lookup_insert_eq. }
  intros [].
  eapply hoare_bind; [apply hoare_kept; keeps_leaf|]. intros created.
  eapply hoare_bind; [apply hoare_kept, keeps_add_file|]. intros [].
  apply hoare_bind_ret.
  eapply hoare_bind with (R := fun _ _ => False); [|intros []; apply hoare_false].
  rewrite Htruthy, Hiter.
  apply hoare_bind_ret.
  eapply hoare_bind; [apply hoare_kept, keeps_add_pipeline|]. intros pipeline.
  apply hoare_bind_ret.
  eapply hoare_bind with (R := fun _ _ => False); [|intros []; apply hoare_false].
  apply hoare_for_each_raises with (bad := bad); [done| |].
  - intros action. apply hoare_kept.
    apply keeps_bind; [apply keeps_lift|]. intros type.
    apply keeps_bind; [apply keeps_add_job|]. intros job. apply keeps_publish_job.
  - rewrite Herr. intros w Hw. exact Hw.
Qed.
End UploadRejected.

(** X10. An upload whose action list
    names something that is not a job type fails as a whole: the request
    raises and commits nothing, so no File, Pipeline or Job row of it
    exists afterwards.  The content it had already stored in the bucket
    raw stays there. *)
Theorem upload_unknown_action_rejected {PY : Python} (filename : string) (content : bytes)
    (content_type pipeline_actions : option string) (user_id : string) (w : World)
    (action : json) (e0 : PyExc) :
  action ∈ requested pipeline_actions ->
  Files.JobType_of action = inl e0 ->
  exists e w',
    Files.upload_file filename content content_type pipeline_actions user_id w
    = (Raise e, w')
    /\ db w' = db w
    /\ objects w' !! ("raw", new_storage_key filename user_id w) = Some content.
Proof.
  intros Hin Herr.
  unfold Files.upload_file, Files.get_db, SessionLocal, db_close.
  unfold bind at 1, modify at 1. unfold try_finally at 1. unfold bind at 1, draw at 1.
  unfold bind at 1. rewrite NamedTemporaryFile_run.
  unfold bind at 1, write_file at 1, modify at 1.
  set (temp_path := tmp_path _ _). set (w1 := with_tmpfs _ _).
  unfold try_finally at 1.
  assert (entropy (reset_session w) = entropy w) as -> by by destruct w.
  pose proof (hoare_upload_rejected filename content content_type pipeline_actions user_id
                w action e0 Hin Herr temp_path w1) as Hbody.
  unfold new_file_id, new_storage_key in *.
  destruct (Files.upload_body _ _ _ _ _ _ _ _ w1) as [[r|e] w2].
  - destruct Hbody. subst w1. destruct w. cbn. split; [done|]. by rewrite lookup_insert_eq.
  - destruct (remove_temp_run temp_path w2) as [t ->]. unfold modify. cbn.
    destruct Hbody as [Hdb Hobj].
    { subst w1. destruct w. cbn. split; [done|]. by rewrite lookup_insert_eq. }
    exists e. eexists. split; [reflexivity|]. destruct w2; cbn in *. by split.
Qed.

Section UploadRejectedExamples.
Import Demo.

(** "shred" is not a job type. *)
Lemma upload_unknown_action_rejected_witness :
  exists e w',
    Files.upload_file "cat.png" [x68; x69] (Some "image/png")
                      (Some (Scenario.actions_json ["thumbnail"; "shred"])) "u1"
                      Demo.empty_world
    = (Raise e, w')
    /\ db w' = db Demo.empty_world
    /\ objects w' !! ("raw", new_storage_key "cat.png" "u1" Demo.empty_world)
       = Some [x68; x69].
Proof.
  apply (upload_unknown_action_rejected _ _ _ _ _ _ (JStr "shred")
           (Exc "ValueError" "'shred' is not a valid JobType")).
  - assert (requested (Some (Scenario.actions_json ["thumbnail"; "shred"]))
            = [JStr "thumbnail"; JStr "shred"]) as -> by by vm_compute.
    right. by left.
  - reflexivity.
Defined.
End UploadRejectedExamples.

(** ** The AI tagger *)

Lemma split_chars_length (sep : ascii) (cur l : list ascii) :
  0 < length (split_chars sep cur l).
Proof.
  revert cur. induction l as [|c l IH]; intros cur; cbn; [lia|].
  destruct (Ascii.eqb c sep); cbn; [lia|apply IH].
Qed.

(** X11. [analyze_image_with_gemini] never
    raises and changes nothing: it always returns a list of one to ten
    tags.  Without an API key these are the three mock tags; when reading
    the image or calling the model fails they are the two error tags. *)
Theorem analyze_image_with_gemini_tags {PY : Python} {GM : Gemini} (image_path : string)
    (w : World) :
  exists tags,
    AIWorker.analyze_image_with_gemini image_path w = (Ret tags, w)
    /\ 0 < length tags <= 10
    /\ (GEMINI_API_KEY = "" -> tags = ["sample"; "image"; "auto-tagged"])
    /\ (GEMINI_API_KEY <> "" ->
        (tmpfs w !! image_path = None
         \/ exists data e, tmpfs w !! image_path = Some data /\ generate_content data = inl e) ->
        tags = ["error"; "auto-tag-failed"]).
Proof.
  unfold AIWorker.analyze_image_with_gemini, str_truthy.
  destruct (String.eqb GEMINI_API_KEY "") eqn:Hkey; cbn [negb].
  - apply String.eqb_eq in Hkey. eexists. split; [reflexivity|]. cbn.
    split; [lia|]. split; [done|]. by intros [].
  - apply String.eqb_neq in Hkey.
    unfold try_except, read_file, bind, get, ret, raise.
    destruct (tmpfs w !! image_path) as [data|] eqn:Hfile.
    + destruct (generate_content data) as [e|text] eqn:Hgen; cbn.
      * eexists. split; [reflexivity|]. cbn. split; [lia|]. split; [done|done].
      * eexists. split; [reflexivity|]. rewrite length_take, length_map.
        pose proof (split_chars_length "," [] (chars (str_strip text))) as Hlen.
        unfold split. split; [lia|]. split; [done|].
        intros _ [Hnone|(data' & e & Hsome & Herr)]; [done|]. congruence.
    + cbn. eexists. split; [reflexivity|]. cbn. split; [lia|]. split; [done|done].
Qed.

(** ** Workers: when the input is not there *)

Section MissingInput.
Context {PY : Python} {PIL : Pillow} {FF : FFmpeg} {CL : ClamAV} {FN : Fernet}
  {ZP : Zipfile} {GM : Gemini}.

Lemma s3_download_file_missing (bucket key path : string) (w : World) :
  objects w !! (bucket, key) = None ->
  s3_download_file bucket key path w = (Raise no_such_key, w).
Proof. unfold s3_download_file, bind, get. cbn. by intros ->. Qed.

(** The first three statements of the image, security and AI workers
    when the object is missing: the job is RUNNING and committed, the
    temporary file is left behind, and the download raises. *)
Lemma prologue_missing {A} (e : Envelope) (job : Job.t) (w : World) (k : string -> M A) :
  jobs (db w) !! env_job_id e = Some job ->
  objects w !! (env_bucket e, env_key e) = None ->
  (Worker.update_job_status (env_job_id e) JobStatus.RUNNING None None ;;
   input_path <- NamedTemporaryFile (Path.suffix (env_key e)) ;;
   s3_download_file (env_bucket e) (env_key e) input_path ;;
   k input_path) (reset_session w)
  = (Raise no_such_key, started e job [] w).
Proof.
  intros Hj Ho. destruct w as [d s txf txd objs tmp br ev clk ent]. norm_in Hj. norm_in Ho.
  norm.
  step ltac:(eapply update_job_status_run; [split; reflexivity|exact Hj|discriminate]).
  norm.
  step ltac:(apply NamedTemporaryFile_run).
  norm.
  erewrite bind_raise; [|apply s3_download_file_missing; exact Ho].
  norm. by rewrite insert_insert_eq.
Qed.

Lemma failed_after (e : Envelope) (job : Job.t) (message : string) (w : World) :
  tx_ok w ->
  jobs (session w) !! env_job_id e = Some job ->
  str_truthy message = true ->
  exists w' job',
    Worker.update_job_status (env_job_id e) JobStatus.FAILED (Some message) None w
    = (Ret tt, w')
    /\ jobs (db w') !! env_job_id e = Some job'
    /\ Job.status job' = JobStatus.FAILED
    /\ Job.error_message job' = Some message
    /\ files (db w') = files (session w)
    /\ objects w' = objects w
    /\ broker w' = broker w
    /\ tx_ok w' /\ session w' = db w'.
Proof.
  intros Hok Hj Hm.
  rewrite (update_job_status_run _ _ _ _ job) by (done || discriminate).
  destruct w as [d s txf txd objs tmp br ev clk ent]. destruct Hok as [Hf Hd].
  cbn in Hf, Hd. subst. norm_in Hj. norm.
  eexists _, _. split; [reflexivity|]. norm.
  split; [apply lookup_insert_eq|]. unfold updated_job. cbn. rewrite Hm. cbn.
  by repeat split.
Qed.

Lemma started_facts (e : Envelope) (job : Job.t) (data : bytes) (w : World) :
  tx_ok (started e job data w)
  /\ session (started e job data w) = db (started e job data w)
  /\ jobs (db (started e job data w)) !! env_job_id e
     = Some (updated_job JobStatus.RUNNING None None (clock w) job)
  /\ files (db (started e job data w)) = files (db w)
  /\ objects (started e job data w) = objects w
  /\ broker (started e job data w) = broker w.
Proof.
  destruct w as [d s txf txd objs tmp br ev clk ent]. norm.
  split; [by split|]. split; [done|]. split; [apply lookup_insert_eq|done].
Qed.

Lemma video_prologue_missing {A} (e : Envelope) (job : Job.t) (file : File.t) (w : World)
    (k : File.t -> string -> M A) :
  jobs (db w) !! env_job_id e = Some job ->
  files (db w) !! env_file_id e = Some file ->
  objects w !! (env_bucket e, env_key e) = None ->
  (Worker.update_job_status (env_job_id e) JobStatus.RUNNING None None ;;
   file <- Worker.query_file (env_file_id e) ;;
   match file with
   | None => raise (Exc "Exception" ("File " +:+ env_file_id e +:+ " not found"))
   | Some file =>
       input_path <- NamedTemporaryFile (Path.suffix (env_key e)) ;;
       s3_download_file (env_bucket e) (env_key e) input_path ;;
       k file input_path
   end) (reset_session w)
  = (Raise no_such_key, started e job [] w).
Proof.
  intros Hj Hf Ho. destruct w as [d s txf txd objs tmp br ev clk ent].
  norm_in Hj. norm_in Hf. norm_in Ho. norm.
  step ltac:(eapply update_job_status_run; [split; reflexivity|exact Hj|discriminate]).
  norm.
  step ltac:(by apply query_file_run).
  norm. rewrite Hf.
  step ltac:(apply NamedTemporaryFile_run).
  norm.
  erewrite bind_raise; [|apply s3_download_file_missing; exact Ho].
  norm. by rewrite insert_insert_eq.
Qed.

Lemma no_such_key_truthy : str_truthy (exc_str no_such_key) = true.
Proof. done. Qed.
End MissingInput.

(** X12. When the object an envelope names
    is not in the store, each of the four workers returns and records the
    failure: the Job row ends FAILED with the text of the store's error in
    [error_message].  No File row, object or envelope is touched. *)
Theorem missing_object_fails_the_job {PY : Python} {PIL : Pillow} {FF : FFmpeg}
    {CL : ClamAV} {FN : Fernet} {ZP : Zipfile} {GM : Gemini}
    (e : Envelope) (w : World) (job : Job.t) (file : File.t) :
  jobs (db w) !! env_job_id e = Some job ->
  files (db w) !! env_file_id e = Some file ->
  objects w !! (env_bucket e, env_key e) = None ->
  job_failed_with (exc_str no_such_key) e w ImageWorker.process_image_job
  /\ job_failed_with (exc_str no_such_key) e w VideoWorker.process_video_job
  /\ job_failed_with (exc_str no_such_key) e w SecurityWorker.process_security_job
  /\ job_failed_with (exc_str no_such_key) e w AIWorker.process_ai_job.
Proof.
  intros Hj Hf Ho.
  destruct (started_facts e job [] w) as (Hok & Hs & Hjob & Hfiles & Hobj & Hbr).
  assert (forall w1 : World,
             tx_ok w1 -> session w1 = db w1 ->
             jobs (db w1) !! env_job_id e
             = Some (updated_job JobStatus.RUNNING None None (clock w) job) ->
             files (db w1) = files (db w) -> objects w1 = objects w ->
             broker w1 = broker w ->
             exists w' job',
               (Worker.update_job_status (env_job_id e) JobStatus.FAILED
                  (Some (exc_str no_such_key)) None w1).1 = Ret tt
               /\ (Worker.update_job_status (env_job_id e) JobStatus.FAILED
                     (Some (exc_str no_such_key)) None w1).2 = w'
               /\ jobs (db (reset_session w')) !! env_job_id e = Some job'
               /\ Job.status job' = JobStatus.FAILED
               /\ Job.error_message job' = Some (exc_str no_such_key)
               /\ files (db (reset_session w')) = files (db w)
               /\ objects (reset_session w') = objects w
               /\ broker (reset_session w') = broker w) as Hfail.
  { intros w1 Hok1 Hs1 Hj1 Hf1 Ho1 Hb1.
    destruct (failed_after e (updated_job JobStatus.RUNNING None None (clock w) job)
                (exc_str no_such_key) w1 Hok1) as
      (w' & job' & Hrun & Hj' & Hst & Hmsg & Hf' & Ho' & Hb' & _); [by rewrite Hs1|done|].
    exists w', job'. rewrite Hrun. destruct w'. cbn in *.
    repeat split; try done; congruence. }
  split; [|split; [|split]].
  - unfold job_failed_with, ImageWorker.process_image_job. cbv zeta.
    unfold bind at 1, SessionLocal at 1, modify at 1.
    unfold try_finally, try_except.
    unfold ImageWorker.update_job_status at 1.
    rewrite (prologue_missing e job w _ Hj Ho).
    unfold bind at 1, db_rollback at 1, modify at 1.
    unfold ImageWorker.update_job_status.
    destruct (Hfail (reset_session (started e job [] w))) as
      (w' & job' & Hr1 & Hr2 & Hrest).
    { apply tx_ok_reset. }
    all: try by destruct (started e job [] w).
    destruct (Worker.update_job_status _ _ _ _ _) as [r w2]. cbn in Hr1, Hr2. subst.
    unfold db_close, modify. by exists (reset_session w'), job'.
  - unfold job_failed_with, VideoWorker.process_video_job. cbv zeta.
    unfold bind at 1, SessionLocal at 1, modify at 1.
    unfold try_finally, try_except.
    unfold VideoWorker.update_job_status at 1.
    rewrite (video_prologue_missing e job file w _ Hj Hf Ho).
    unfold VideoWorker.update_job_status.
    destruct (Hfail (started e job [] w)) as (w' & job' & Hr1 & Hr2 & Hrest); try done.
    destruct (Worker.update_job_status _ _ _ _ _) as [r w2]. cbn in Hr1, Hr2. subst.
    unfold db_close, modify. by exists (reset_session w'), job'.
  - unfold job_failed_with, SecurityWorker.process_security_job. cbv zeta.
    unfold bind at 1, SessionLocal at 1, modify at 1.
    unfold try_finally, try_except.
    unfold SecurityWorker.update_job_status at 1.
    rewrite (prologue_missing e job w _ Hj Ho).
    unfold SecurityWorker.update_job_status.
    destruct (Hfail (started e job [] w)) as (w' & job' & Hr1 & Hr2 & Hrest); try done.
    destruct (Worker.update_job_status _ _ _ _ _) as [r w2]. cbn in Hr1, Hr2. subst.
    unfold db_close, modify. by exists (reset_session w'), job'.
  - unfold job_failed_with, AIWorker.process_ai_job. cbv zeta.
    unfold bind at 1, SessionLocal at 1, modify at 1.
    unfold try_finally, try_except.
    unfold AIWorker.update_job_status at 1.
    rewrite (prologue_missing e job w _ Hj Ho).
    unfold AIWorker.update_job_status.
    destruct (Hfail (started e job [] w)) as (w' & job' & Hr1 & Hr2 & Hrest); try done.
    destruct (Worker.update_job_status _ _ _ _ _) as [r w2]. cbn in Hr1, Hr2. subst.
    unfold db_close, modify. by exists (reset_session w'), job'.
Qed.

(** ** Workers: when the job has been deleted *)

Section VanishedJob.
Context {PY : Python}.

Lemma update_job_status_vanished (job_id : string) (status : JobStatus.t)
    (error_message result_file_id : option string) (w : World) :
  jobs (db w) !! job_id = None ->
  tx_failed w = false -> session w = db w ->
  Worker.update_job_status job_id status error_message result_file_id w = (Ret tt, w).
Proof. intros Hj Hf Hs. apply update_job_status_absent; [done|by rewrite Hs]. Qed.

End VanishedJob.


Section WorkerExamples.
Import Demo.

(** The thumbnail envelope of "cat.png" when the upload is not in the
    store. *)
Lemma missing_object_fails_the_job_witness :
  let e := Scenario.envelope "cat.png" JobType.THUMBNAIL in
  let w := with_objects ∅ (Scenario.world "cat.png" FileStatus.PROCESSING JobType.THUMBNAIL
                                          JobStatus.QUEUED []) in
  job_failed_with (exc_str no_such_key) e w ImageWorker.process_image_job
  /\ job_failed_with (exc_str no_such_key) e w VideoWorker.process_video_job
  /\ job_failed_with (exc_str no_such_key) e w SecurityWorker.process_security_job
  /\ job_failed_with (exc_str no_such_key) e w AIWorker.process_ai_job.
Proof.
  intros e w.
  apply (missing_object_fails_the_job e w (Scenario.job JobType.THUMBNAIL JobStatus.QUEUED)
           (Scenario.upload "cat.png" FileStatus.PROCESSING)).
  - by vm_compute.
  - by vm_compute.
  - by vm_compute.
Defined.

End WorkerExamples.

(** ** Workers: storing an output *)

Section StoreOutput.
Context {PY : Python}.

(** The statements between a handler and the cleanup, shared by the
    image, video and security workers: upload the output, insert its File
    row, complete the Job and mark the subject File READY. *)
Lemma store_output_run (job_id file_id output_path bucket key name mime : string)
    (job : Job.t) (parent : File.t) (out : bytes) (w : World) :
  tx_ok w ->
  jobs (session w) !! job_id = Some job ->
  files (session w) !! file_id = Some parent ->
  tmpfs w !! output_path = Some out ->
  forallb sql_literal_ok [uuid4 (entropy w); name; bucket; key; mime; file_id] = true ->
  str_truthy (uuid4 (entropy w)) = true ->
  files (session w) !! uuid4 (entropy w) = None ->
  exists w' job',
    (s3_upload_file output_path bucket key ;;
     output_size <- os_path_getsize output_path ;;
     n <- draw ;;
     Worker.insert_derived_file (uuid4 n) name bucket key output_size mime file_id ;;
     db_commit ;;
     Worker.update_job_status job_id JobStatus.COMPLETED None (Some (uuid4 n)) ;;
     Worker.mark_file_ready file_id) w
    = (Ret tt, w')
    /\ tx_ok w' /\ session w' = db w'
    /\ jobs (db w') = <[job_id := job']> (jobs (session w))
    /\ Job.status job' = JobStatus.COMPLETED
    /\ Job.result_file_id job' = Some (uuid4 (entropy w))
    /\ files (db w')
       = <[file_id := File.set_status FileStatus.READY parent]>
           (<[uuid4 (entropy w) :=
                derived_row (uuid4 (entropy w)) parent name bucket key (length out) mime
                            (clock w) file_id]> (files (session w)))
    /\ objects w' = <[(bucket, key) := out]> (objects w)
    /\ tmpfs w' = tmpfs w
    /\ broker w' = broker w
    /\ entropy w' = S (entropy w).
Proof.
  intros [Hf Hd] Hj Hp Hout Hq Hrid Hfresh.
  assert (Hne : uuid4 (entropy w) <> file_id) by congruence.
  destruct w as [d [sj sf sp sm] txf txd objs tmp br ev clk ent].
  cbn in Hf, Hd. subst. norm_in Hj. norm_in Hp. norm_in Hout. norm_in Hq. norm_in Hrid.
  norm_in Hfresh. norm_in Hne.
  eexists _, _. split.
  { step ltac:(apply s3_upload_file_run; exact Hout).
    norm.
    step ltac:(apply os_path_getsize_run; exact Hout).
    step ltac:(reflexivity).
    norm.
    step ltac:(eapply insert_derived_file_run; [reflexivity|exact Hq|exact Hp|exact Hfresh]).
    norm.
    step ltac:(apply db_commit_run; split; reflexivity).
    norm.
    step ltac:(eapply update_job_status_run;
               [split; reflexivity|exact Hj|intros _; eexists; apply lookup_insert_eq]).
    norm.
    eapply mark_file_ready_run;
      [split; reflexivity|norm; rewrite lookup_insert_ne by exact Hne; exact Hp]. }
  norm. split; [by split|]. split; [done|]. split; [reflexivity|].
  unfold updated_job. cbn [opt_str_truthy default from_option id]. rewrite Hrid.
  by repeat split.
Qed.
End StoreOutput.

(** ** The image worker: thumbnails *)

Section Thumbnail.
Context {PY : Python} {PIL : Pillow}.

Lemma parse_size_run (size a b : string) (width height : Z) (w : World) :
  split "x" size = [a; b] -> py_int a = inr width -> py_int b = inr height ->
  ImageWorker.parse_size size w = (Ret (width, height), w).
Proof. intros Hs Ha Hb. unfold ImageWorker.parse_size. by rewrite Hs, Ha, Hb. Qed.

Lemma create_thumbnail_run (input_path output_path : string) (size : Z * Z)
    (data out : bytes) (w : World) :
  tmpfs w !! input_path = Some data ->
  pil_thumbnail data size = inr out ->
  ImageWorker.create_thumbnail input_path output_path size w
  = (Ret tt, with_tmpfs (<[output_path := out]> (tmpfs w)) w).
Proof.
  intros Hin Hpil. unfold ImageWorker.create_thumbnail.
  step ltac:(by apply read_file_run).
  by rewrite Hpil.
Qed.
End Thumbnail.

(** The thumbnail job, with all that it leaves. *)
Lemma thumbnail_job_world {PY : Python} {PIL : Pillow} (e : Envelope) (w : World)
    (job : Job.t) (file : File.t) (data out : bytes) (size a b : string)
    (width height : Z) :
  let result_file_id := uuid4 (S (S (entropy w))) in
  let key := Path.stem (File.original_name file) +:+ "_thumb_" +:+ size +:+ ".jpg" in
  env_type e = "thumbnail" ->
  dict_get "size" (env_params e) (JStr "256x256") = JStr size ->
  split "x" size = [a; b] -> py_int a = inr width -> py_int b = inr height ->
  jobs (db w) !! env_job_id e = Some job ->
  files (db w) !! env_file_id e = Some file ->
  objects w !! (env_bucket e, env_key e) = Some data ->
  pil_thumbnail data (width, height) = inr out ->
  forallb sql_literal_ok [result_file_id; key; env_file_id e] = true ->
  str_truthy result_file_id = true ->
  files (db w) !! result_file_id = None ->
  exists w' job',
    ImageWorker.process_image_job e w = (Ret tt, w')
    /\ jobs (db w') = <[env_job_id e := job']> (jobs (db w))
    /\ Job.status job' = JobStatus.COMPLETED
    /\ Job.result_file_id job' = Some result_file_id
    /\ files (db w')
       = <[env_file_id e := File.set_status FileStatus.READY file]>
           (<[result_file_id :=
                derived_row result_file_id file key "thumbnails" key (length out) "image/jpeg"
                            (S (clock w)) (env_file_id e)]> (files (db w)))
    /\ objects w' = <[("thumbnails", key) := out]> (objects w)
    /\ entropy w' = S (S (S (entropy w))).
Proof.
  intros rid key Ht Hsize Hsplit Ha Hb Hj Hf Ho Hpil Hq Hrid Hfresh. subst rid.
  apply andb_prop in Hq as [Hq1 Hq]. apply andb_prop in Hq as [Hq2 Hq].
  apply andb_prop in Hq as [Hq3 _].
  assert (Hne : uuid4 (S (S (entropy w))) <> env_file_id e) by congruence.
  assert (Hkey : str_truthy key = true).
  { unfold key. by repeat apply str_truthy_app_r. }
  unfold ImageWorker.process_image_job.
  step ltac:(reflexivity).
  unfold try_finally, try_except.
  unfold ImageWorker.update_job_status at 1.
  rewrite (prologue_run e job data w _ Hj Ho).
  destruct w as [[dj df dp dm] s txf txd objs tmp br ev clk ent].
  norm_in Hj. norm_in Hf. norm_in Ho. norm_in Hfresh. norm_in Hne. norm_in Hq1.
  norm_in Hrid. norm.
  set (input_path := tmp_path ent (Path.suffix (env_key e))).
  set (rid := uuid4 (S (S ent))) in *.
  step ltac:(by apply query_file_run).
  norm. rewrite Hf. rewrite Ht.
  unfold ImageWorker.run_handler. cbn [String.eqb Ascii.eqb Bool.eqb].
  rewrite Hsize.
  rewrite !bind_bind.
  step ltac:(by eapply parse_size_run).
  step ltac:(apply mktemp_run).
  norm.
  set (output_path := tmp_path (S ent) ".jpg").
  rewrite !bind_bind.
  step ltac:(eapply create_thumbnail_run; [apply lookup_insert_eq|exact Hpil]).
  norm.
  rewrite bind_ret. fold key.
  unfold Worker.have_output, opt_str_truthy.
  unfold output_path at 1. rewrite tmp_path_truthy, Hkey.
  change (str_truthy "thumbnails") with true. cbn [andb default from_option id].
  unfold ImageWorker.update_job_status.
  lazymatch goal with
  | |- context [bind (bind (s3_upload_file output_path "thumbnails" key) _) _ ?W] =>
      destruct (store_output_run (env_job_id e) (env_file_id e) output_path "thumbnails"
                  key key "image/jpeg"
                  (updated_job JobStatus.RUNNING None None clk job) file out W)
        as (w' & job' & Hrun & Hok & Hs & Hjobs & Hst & Hres & Hfiles & Hobj & Htmp & Hbr
            & Hent);
      [| | | | | | |erewrite bind_run; [|exact Hrun]]
  end.
  - split; reflexivity.
  - norm. apply lookup_insert_eq.
  - norm. exact Hf.
  - norm. apply lookup_insert_eq.
  - norm. fold rid. cbn [forallb]. rewrite Hq1, Hq2, Hq3. reflexivity.
  - norm. exact Hrid.
  - norm. exact Hfresh.
  - destruct w' as [d' s' txf' txd' objs' tmp' br' ev' clk' ent'].
    norm_in Hjobs. norm_in Hres. norm_in Hfiles. norm_in Hobj. norm_in Htmp. norm_in Hent.
    fold rid in Hres, Hfiles. subst tmp' objs' ent'.
    rewrite cleanup_run.
    2:{ norm. destruct (decide (output_path = input_path)) as [->|Hp].
        - eexists. apply lookup_insert_eq.
        - rewrite lookup_insert_ne by exact Hp. eexists. apply lookup_insert_eq. }
    norm.
    eexists _, job'. split; [reflexivity|]. norm.
    rewrite Hjobs, Hfiles. rewrite insert_insert_eq.
    split; [reflexivity|]. split; [exact Hst|]. split; [exact Hres|].
    split; [reflexivity|]. split; reflexivity.
Qed.



Section ThumbnailExamples.
Import Demo.

End ThumbnailExamples.

(** ** The image worker always answers *)

Section JobFateRules.
Context {PY : Python}.
Variable job_id : string.

Local Abbreviation Present := (fun w => present job_id (db_part w)).
Local Abbreviation Decided := (fun w => decided job_id (db_part w)).

Lemma decided_present (w : World) : Decided w -> Present w.
Proof.
  destruct w as [d s txf txd objs tmp br ev clk ent]. cbn.
  intros (Hd & (j & Hj & _) & Hs). split; [done|]. split; [by eexists|].
  intros Hf. destruct (Hs Hf) as (j' & Hj' & _). by eexists.
Qed.

Lemma terminal_updated_job (s : JobStatus.t) (em rid : option string) (now : nat)
    (j : Job.t) :
  s = JobStatus.COMPLETED \/ s = JobStatus.FAILED -> terminal (updated_job s em rid now j).
Proof. unfold terminal. by rewrite status_updated_job. Qed.

Lemma hoare_present_keeps {A} (m : M A) :
  keeps db_part m -> hoare Present m (fun _ => Present) Present.
Proof. intros Hk. apply (keeps_hoare db_part m (present job_id) Hk). Qed.

Lemma hoare_decided_keeps {A} (m : M A) :
  keeps db_part m -> hoare Decided m (fun _ => Decided) Present.
Proof.
  intros Hk. eapply hoare_conseq;
    [apply (keeps_hoare db_part m (decided job_id) Hk)|done|done|apply decided_present].
Qed.

(** A status update keeps the row; one to COMPLETED or FAILED that
    returns has decided the job. *)
Lemma hoare_present_update (s : JobStatus.t) (em rid : option string) :
  hoare Present (Worker.update_job_status job_id s em rid)
        (fun _ w => Present w
                    /\ (s = JobStatus.COMPLETED \/ s = JobStatus.FAILED -> Decided w))
        Present.
Proof.
  intros w H.
  assert (Hd : tx_deleted w = []) by (destruct w; cbn in *; tauto).
  destruct (update_job_status_cases job_id s em rid w Hd)
    as [(Hf & e & ->)|[(Hf & Hj & ->)|(j & Hf & Hj & [[Hr [e ->]]| ->])]].
  - done.
  - destruct w as [d s0 txf txd objs tmp br ev clk ent]; cbn in *.
    destruct H as (_ & _ & Hs). destruct (Hs Hf) as [j Hj']. congruence.
  - destruct w as [d s0 txf txd objs tmp br ev clk ent]; cbn in *.
    destruct H as (_ & Hthere & _). done.
  - destruct w as [d s0 txf txd objs tmp br ev clk ent]; cbn in *. subst.
    split.
    + split; [done|]. rewrite lookup_insert_eq. by split; [eexists|intros _; eexists].
    + intros Hterm. split; [done|].
      assert (job_terminal job_id
                (with_jobs (<[job_id := updated_job s em rid clk j]> (jobs s0)) s0)) as Ht.
      { eexists. split; [apply lookup_insert_eq|]. by apply terminal_updated_job. }
      by split.
Qed.

Lemma hoare_present_insert (rid name bucket key : string) (size : nat)
    (mime file_id : string) :
  hoare Present (Worker.insert_derived_file rid name bucket key size mime file_id)
        (fun _ => Present) Present.
Proof.
  intros [d s txf txd objs tmp br ev clk ent] H. cbn in H.
  destruct H as (-> & Hthere & Hsess).
  unfold Worker.insert_derived_file, db_view, db_update, db_guard, db_fail, utcnow, bind,
    get, ret, raise, modify. cbn.
  destruct txf; cbn; [done|].
  destruct (sql_literal_ok rid && _); cbn; [|done].
  destruct (files s !! file_id); cbn; [|by auto].
  destruct (files s !! rid); cbn; [done|]. by auto.
Qed.

Lemma hoare_present_commit : hoare Present db_commit (fun _ => Present) Present.
Proof.
  intros [d s txf txd objs tmp br ev clk ent] H. cbn in H.
  destruct H as (-> & Hthere & Hsess).
  unfold db_commit, db_guard, emit, bind, get, ret, raise, modify. cbn.
  destruct txf; cbn; [done|]. by auto.
Qed.

Lemma hoare_decided_ready (file_id : string) :
  hoare Decided (Worker.mark_file_ready file_id) (fun _ => Decided) Present.
Proof.
  intros [d s txf txd objs tmp br ev clk ent] H.
  pose proof (decided_present _ H) as Hp. cbn in H, Hp.
  destruct H as (-> & Hterm & Hsess).
  unfold Worker.mark_file_ready, Worker.query_file, db_commit, db_view, db_update, db_guard,
    emit, bind, get, ret, raise, modify. cbn.
  destruct txf; cbn; [done|].
  destruct (files s !! file_id); cbn; by auto.
Qed.

(** After a rollback the failure can always be recorded. *)
Lemma record_failure_run (em : option string) (w : World) :
  exists w',
    (db_rollback ;; Worker.update_job_status job_id JobStatus.FAILED em None) w
    = (Ret tt, w')
    /\ (Present w -> Decided w').
Proof.
  unfold bind at 1, db_rollback at 1, modify at 1.
  destruct (update_job_status_cases job_id JobStatus.FAILED em None (reset_session w))
    as [(Hf & e & Hrun)|[(Hf & Hj & Hrun)|(j & Hf & Hj & [[Hr _]| Hrun])]];
    try by destruct w.
  - eexists. split; [exact Hrun|].
    destruct w as [d s txf txd objs tmp br ev clk ent]; cbn in *.
    intros (_ & [j Hj'] & _). congruence.
  - eexists. split; [exact Hrun|]. intros _.
    destruct w as [d s txf txd objs tmp br ev clk ent]; cbn in *.
    assert (job_terminal job_id
              (with_jobs (<[job_id := updated_job JobStatus.FAILED em None clk j]> (jobs d))
                         d)) as Ht.
    { eexists. split; [apply lookup_insert_eq|]. apply terminal_updated_job. by right. }
    by split.
Qed.

Lemma decided_reset (w : World) : Decided w -> Decided (reset_session w).
Proof. destruct w; cbn. tauto. Qed.
End JobFateRules.

Section ImageAnswers.
Context {PY : Python} {PIL : Pillow}.

(** The [try] block of [process_image_job]: if it returns, the job is
    decided; if it raises, the row is still there. *)
Lemma hoare_image_body (e : Envelope) (body : M unit) :
  body
  = (Worker.update_job_status (env_job_id e) JobStatus.RUNNING None None ;;
     input_path <- NamedTemporaryFile (Path.suffix (env_key e)) ;;
     s3_download_file (env_bucket e) (env_key e) input_path ;;
     file_obj <- Worker.query_file (env_file_id e) ;;
     out <- ImageWorker.run_handler (env_type e) (env_params e) input_path
              (Path.stem (match file_obj with
                          | Some f => File.original_name f
                          | None => "file"
                          end)) ;;
     let '(output_path, output_bucket, output_key) := out in
     (if Worker.have_output output_path output_bucket output_key then
        s3_upload_file (default "" output_path) (default "" output_bucket)
                       (default "" output_key) ;;
        output_size <- os_path_getsize (default "" output_path) ;;
        n <- draw ;;
        Worker.insert_derived_file (uuid4 n) (default "" output_key)
          (default "" output_bucket) (default "" output_key) output_size "image/jpeg"
          (env_file_id e) ;;
        db_commit ;;
        Worker.update_job_status (env_job_id e) JobStatus.COMPLETED None
                                 (Some (uuid4 n)) ;;
        Worker.mark_file_ready (env_file_id e)
      else
        Worker.update_job_status (env_job_id e) JobStatus.COMPLETED None None ;;
        Worker.mark_file_ready (env_file_id e)) ;;
     Worker.cleanup input_path output_path) ->
  hoare (fun w => present (env_job_id e) (db_part w)) body
        (fun _ w => decided (env_job_id e) (db_part w))
        (fun w => present (env_job_id e) (db_part w)).
Proof.
  intros ->.
  eapply hoare_bind with (R := fun _ w => present (env_job_id e) (db_part w)).
  { eapply hoare_conseq; [apply hoare_present_update|done| |done]. by intros [] w [H _]. }
  intros [].
  eapply hoare_bind; [apply hoare_present_keeps; auto with keeps|intros input_path].
  eapply hoare_bind; [apply hoare_present_keeps; auto with keeps|intros []].
  eapply hoare_bind; [apply hoare_present_keeps; auto with keeps|intros file_obj].
  eapply hoare_bind;
    [apply hoare_present_keeps; apply keeps_image_run_handler
    |intros [[output_path output_bucket] output_key]].
  eapply hoare_bind with (R := fun _ w => decided (env_job_id e) (db_part w));
    [|intros []; apply hoare_decided_keeps; auto with keeps].
  assert (forall rid,
             hoare (fun w => present (env_job_id e) (db_part w))
                   (Worker.update_job_status (env_job_id e) JobStatus.COMPLETED None rid ;;
                    Worker.mark_file_ready (env_file_id e))
                   (fun _ w => decided (env_job_id e) (db_part w))
                   (fun w => present (env_job_id e) (db_part w))) as Hfinish.
  { intros rid.
    eapply hoare_bind with (R := fun _ w => decided (env_job_id e) (db_part w));
      [|intros []; apply hoare_decided_ready].
    eapply hoare_conseq; [apply hoare_present_update|done| |done].
    intros [] w [_ H]. apply H. by left. }
  destruct (Worker.have_output _ _ _).
  - eapply hoare_bind; [apply hoare_present_keeps; auto with keeps|intros []].
    eapply hoare_bind; [apply hoare_present_keeps; auto with keeps|intros output_size].
    eapply hoare_bind; [apply hoare_present_keeps; auto with keeps|intros n].
    eapply hoare_bind; [apply hoare_present_insert|intros []].
    eapply hoare_bind; [apply hoare_present_commit|intros []].
    apply Hfinish.
  - apply Hfinish.
Qed.
End ImageAnswers.


(** ** What the workers leave alone *)

Lemma keeps_try_finally {A B} (view : World -> B) (body : M A) (c : M unit) :
  keeps view body -> keeps view c -> keeps view (try_finally body c).
Proof.
  intros Hb Hc w. specialize (Hb w). unfold try_finally.
  destruct (body w) as [r w']. specialize (Hc w').
  destruct (c w') as [[[]|e] w'']; cbn in *; congruence.
Qed.

Lemma hoare_top {A} (m : M A) : hoare (fun _ => True) m (fun _ _ => True) (fun _ => True).
Proof. intros w _. by destruct (m w) as [[a|e] w']. Qed.

(** A computation that keeps [view] and returns only values in [G]. *)
Lemma hoare_keeps_returns {A B} (view : World -> B) (P : B -> Prop) (G : A -> Prop)
    (m : M A) :
  keeps view m ->
  hoare (fun _ => True) m (fun a _ => G a) (fun _ => True) ->
  hoare (fun w => P (view w)) m (fun a w => P (view w) /\ G a) (fun w => P (view w)).
Proof.
  intros Hk Hg w Hw. specialize (Hk w). specialize (Hg w I).
  destruct (m w) as [[a|e] w']; cbn in Hk; rewrite Hk; by auto.
Qed.

Lemma hoare_assume_r {A} (phi : Prop) (P : World -> Prop) (m : M A)
    (Q : A -> World -> Prop) (E : World -> Prop) :
  (phi -> hoare P m Q E) -> hoare (fun w => P w /\ phi) m Q E.
Proof. intros H w [HP Hphi]. by apply H. Qed.

(** Split a computation down to what it returns. *)
Ltac returns_step :=
  lazymatch goal with
  | |- hoare _ (bind _ _) _ _ =>
      eapply hoare_bind with (R := fun _ _ => True); [apply hoare_top|intros ?]
  | |- hoare _ (ret _) _ _ => apply hoare_ret; intros ? _
  | |- hoare _ (raise _) _ _ => by apply hoare_raise
  | |- hoare _ (Worker.no_attribute _ _) _ _ => by apply hoare_raise
  | |- hoare _ (match ?x with _ => _ end) _ _ => destruct x
  end.

Section Outside.
Context {PY : Python}.

Ltac keeps_db_statement :=
  unfold Worker.update_job_status, Worker.insert_derived_file, Worker.mark_file_ready,
    Worker.query_file, Worker.cleanup, Worker.no_attribute, SecurityWorker.mark_file_failed,
    NamedTemporaryFile, mktemp, s3_download_file, os_path_getsize, os_unlink,
    os_path_exists, read_file, write_file, db_commit, db_view, db_update, db_guard,
    db_fail, db_rollback, db_close, SessionLocal, emit, draw, utcnow;
  keeps_all.

Lemma keeps_outside_update (job_id : string) (status : JobStatus.t)
    (error_message result_file_id : option string) :
  keeps outside (Worker.update_job_status job_id status error_message result_file_id).
Proof. keeps_db_statement. Qed.

Lemma keeps_outside_insert (rid name bucket key : string) (size : nat)
    (mime file_id : string) :
  keeps outside (Worker.insert_derived_file rid name bucket key size mime file_id).
Proof. keeps_db_statement. Qed.

Lemma keeps_outside_ready (file_id : string) : keeps outside (Worker.mark_file_ready file_id).
Proof. keeps_db_statement. Qed.

Lemma keeps_outside_query (file_id : string) : keeps outside (Worker.query_file file_id).
Proof. keeps_db_statement. Qed.

Lemma keeps_outside_cleanup (input_path : string) (output_path : option string) :
  keeps outside (Worker.cleanup input_path output_path).
Proof. keeps_db_statement. Qed.

Lemma keeps_outside_commit : keeps outside db_commit.
Proof. keeps_db_statement. Qed.

Lemma keeps_outside_reset : keeps outside (modify reset_session).
Proof. keeps_all. Qed.

Lemma keeps_outside_temp (suffix : string) : keeps outside (NamedTemporaryFile suffix).
Proof. keeps_db_statement. Qed.

Lemma keeps_outside_mktemp (suffix : string) : keeps outside (mktemp suffix).
Proof. keeps_db_statement. Qed.

Lemma keeps_outside_download (bucket key path : string) :
  keeps outside (s3_download_file bucket key path).
Proof. keeps_db_statement. Qed.

Lemma keeps_outside_getsize (path : string) : keeps outside (os_path_getsize path).
Proof. keeps_db_statement. Qed.

Lemma keeps_outside_unlink (path : string) : keeps outside (os_unlink path).
Proof. keeps_db_statement. Qed.

Lemma keeps_outside_draw : keeps outside draw.
Proof. keeps_all. Qed.

Lemma keeps_outside_read (path : string) : keeps outside (read_file path).
Proof. keeps_db_statement. Qed.

Lemma keeps_outside_write (path : string) (data : bytes) : keeps outside (write_file path data).
Proof. keeps_db_statement. Qed.

Lemma keeps_outside_failed (file_id : string) :
  keeps outside (SecurityWorker.mark_file_failed file_id).
Proof. keeps_db_statement. Qed.

Lemma keeps_outside_try_finally {A} (body : M A) (c : M unit) :
  keeps outside body -> keeps outside c -> keeps outside (try_finally body c).
Proof. apply keeps_try_finally. Qed.
End Outside.

Create HintDb outside discriminated.
#[export] Hint Resolve keeps_ret keeps_raise keeps_get keeps_lift keeps_when
  keeps_outside_update keeps_outside_insert keeps_outside_ready keeps_outside_query
  keeps_outside_cleanup keeps_outside_commit keeps_outside_reset keeps_outside_temp
  keeps_outside_mktemp keeps_outside_download keeps_outside_getsize keeps_outside_unlink
  keeps_outside_draw keeps_outside_read keeps_outside_write keeps_outside_failed : outside.

Ltac keeps_outside := repeat first [keeps_step | solve [auto with outside] | keeps_leaf].

Section Untouched.
Context {PY : Python}.
Variable w0 : World.

Lemma hoare_untouched {A} (m : M A) :
  keeps outside m -> hoare (untouched w0) m (fun _ => untouched w0) (untouched w0).
Proof.
  intros Hk.
  apply (keeps_hoare outside m
           (fun v => v.1 = broker w0
                     /\ (forall bucket key, is_Some (objects w0 !! (bucket, key)) ->
                                            is_Some (v.2 !! (bucket, key)))
                     /\ (forall bucket key, bucket ∉ output_buckets ->
                                            v.2 !! (bucket, key) = objects w0 !! (bucket, key)))
           Hk).
Qed.

Lemma hoare_untouched_returns {A} (G : A -> Prop) (m : M A) :
  keeps outside m ->
  hoare (fun _ => True) m (fun a _ => G a) (fun _ => True) ->
  hoare (untouched w0) m (fun a w => untouched w0 w /\ G a) (untouched w0).
Proof.
  intros Hk Hg.
  apply (hoare_keeps_returns outside
           (fun v => v.1 = broker w0
                     /\ (forall bucket key, is_Some (objects w0 !! (bucket, key)) ->
                                            is_Some (v.2 !! (bucket, key)))
                     /\ (forall bucket key, bucket ∉ output_buckets ->
                                            v.2 !! (bucket, key) = objects w0 !! (bucket, key)))
           G m Hk Hg).
Qed.

Lemma hoare_untouched_upload (path bucket key : string) :
  bucket ∈ output_buckets ->
  hoare (untouched w0) (s3_upload_file path bucket key) (fun _ => untouched w0)
        (untouched w0).
Proof.
  intros Hb [d s txf txd objs tmp br ev clk ent] (Hbr & Hkeep & Hsame). cbn in *.
  unfold s3_upload_file, read_file, emit, bind, get, modify, ret, raise. cbn.
  destruct (tmp !! path) as [data|]; cbn; [|done].
  unfold untouched, with_events, with_objects. cbn.
  split; [done|]. split.
  - intros b k Hsome. rewrite lookup_insert. case_decide; [by eexists|by apply Hkeep].
  - intros b k Hout. rewrite lookup_insert_ne; [by apply Hsame|].
    intros [= -> ->]. by apply Hout.
Qed.

(** The statements after a handler, for an output whose bucket is an
    output bucket. *)
Lemma hoare_untouched_store (job_id file_id name mime : string)
    (output_path output_bucket output_key : option string) (k : M unit) :
  names_output_bucket output_bucket ->
  keeps outside k ->
  hoare (untouched w0)
        (if Worker.have_output output_path output_bucket output_key then
           s3_upload_file (default "" output_path) (default "" output_bucket)
                          (default "" output_key) ;;
           output_size <- os_path_getsize (default "" output_path) ;;
           n <- draw ;;
           Worker.insert_derived_file (uuid4 n) name (default "" output_bucket)
             (default "" output_key) output_size mime file_id ;;
           db_commit ;;
           Worker.update_job_status job_id JobStatus.COMPLETED None (Some (uuid4 n)) ;;
           Worker.mark_file_ready file_id
         else k)
        (fun _ => untouched w0) (untouched w0).
Proof.
  intros Hbucket Hk.
  destruct (Worker.have_output _ _ _) eqn:Hhave; [|by apply hoare_untouched].
  destruct output_bucket as [bucket|];
    [|unfold Worker.have_output in Hhave; cbn in Hhave; by rewrite andb_false_r in Hhave].
  eapply hoare_bind; [apply hoare_untouched_upload; by apply Hbucket|intros []].
  apply hoare_untouched. keeps_outside.
Qed.
End Untouched.

Section WorkersOutside.
Context {PY : Python} {PIL : Pillow} {FF : FFmpeg} {CL : ClamAV} {FN : Fernet}
  {ZP : Zipfile} {GM : Gemini}.
Variable w0 : World.

Lemma keeps_outside_image_handler (job_type : string) (params : list (string * json))
    (input_path base_name : string) :
  keeps outside (ImageWorker.run_handler job_type params input_path base_name).
Proof.
  unfold ImageWorker.run_handler, ImageWorker.create_thumbnail, ImageWorker.convert_image,
    ImageWorker.compress_image, ImageWorker.parse_size.
  keeps_outside.
Qed.

Lemma image_handler_bucket (job_type : string) (params : list (string * json))
    (input_path base_name : string) :
  hoare (fun _ => True) (ImageWorker.run_handler job_type params input_path base_name)
        (fun out _ => names_output_bucket out.1.2) (fun _ => True).
Proof.
  unfold ImageWorker.run_handler.
  repeat returns_step; cbn; intros bucket [= <-]; unfold output_buckets;
    repeat first [by left | right].
Qed.

Lemma image_worker_untouched (e : Envelope) :
  hoare (untouched w0) (ImageWorker.process_image_job e) (fun _ => untouched w0)
        (untouched w0).
Proof.
  unfold ImageWorker.process_image_job, ImageWorker.update_job_status. cbv zeta.
  eapply hoare_bind; [apply hoare_untouched; auto with outside|intros []].
  eapply hoare_try_finally with (Q' := fun _ => untouched w0) (E' := untouched w0);
    [|intros []; apply hoare_untouched; auto with outside
     |apply hoare_untouched; auto with outside].
  eapply hoare_try_except with (E' := untouched w0);
    [|intros ex; apply hoare_untouched; keeps_outside].
  eapply hoare_bind; [apply hoare_untouched; auto with outside|intros []].
  eapply hoare_bind; [apply hoare_untouched; auto with outside|intros input_path].
  eapply hoare_bind; [apply hoare_untouched; auto with outside|intros []].
  eapply hoare_bind; [apply hoare_untouched; auto with outside|intros file_obj].
  eapply hoare_bind.
  { apply hoare_untouched_returns;
      [apply keeps_outside_image_handler|apply image_handler_bucket]. }
  intros [[output_path output_bucket] output_key]. apply hoare_assume_r. intros Hbucket.
  eapply hoare_bind with (R := fun _ => untouched w0);
    [|intros []; apply hoare_untouched; auto with outside].
  apply hoare_untouched_store; [exact Hbucket|keeps_outside].
Qed.

Lemma keeps_outside_video_handler (job_type : string) (params : list (string * json))
    (input_path file_id base_name : string) :
  keeps outside (VideoWorker.run_handler job_type params input_path file_id base_name).
Proof.
  unfold VideoWorker.run_handler, VideoWorker.create_video_thumbnail,
    VideoWorker.create_video_preview, VideoWorker.convert_video, VideoWorker.subprocess_run.
  keeps_outside.
Qed.

Lemma video_handler_bucket (job_type : string) (params : list (string * json))
    (input_path file_id base_name : string) :
  hoare (fun _ => True)
        (VideoWorker.run_handler job_type params input_path file_id base_name)
        (fun out _ => names_output_bucket out.1.1.2) (fun _ => True).
Proof.
  unfold VideoWorker.run_handler.
  repeat returns_step; cbn; intros bucket [= <-]; unfold output_buckets;
    repeat first [by left | right].
Qed.

Lemma video_worker_untouched (e : Envelope) :
  hoare (untouched w0) (VideoWorker.process_video_job e) (fun _ => untouched w0)
        (untouched w0).
Proof.
  unfold VideoWorker.process_video_job, VideoWorker.update_job_status. cbv zeta.
  eapply hoare_bind; [apply hoare_untouched; auto with outside|intros []].
  eapply hoare_try_finally with (Q' := fun _ => untouched w0) (E' := untouched w0);
    [|intros []; apply hoare_untouched; auto with outside
     |apply hoare_untouched; auto with outside].
  eapply hoare_try_except with (E' := untouched w0);
    [|intros ex; apply hoare_untouched; keeps_outside].
  eapply hoare_bind; [apply hoare_untouched; auto with outside|intros []].
  eapply hoare_bind; [apply hoare_untouched; auto with outside|intros [file|]];
    [|by apply hoare_raise].
  eapply hoare_bind; [apply hoare_untouched; auto with outside|intros input_path].
  eapply hoare_bind; [apply hoare_untouched; auto with outside|intros []].
  eapply hoare_bind.
  { apply hoare_untouched_returns;
      [apply keeps_outside_video_handler|apply video_handler_bucket]. }
  intros [[[output_path output_bucket] output_key] output_filename].
  apply hoare_assume_r. intros Hbucket.
  eapply hoare_bind with (R := fun _ => untouched w0);
    [|intros []; apply hoare_untouched; auto with outside].
  apply hoare_untouched_store; [exact Hbucket|keeps_outside].
Qed.

Lemma keeps_outside_security_handler (job_id file_id job_type : string)
    (params : list (string * json)) (input_path : string) :
  keeps outside (SecurityWorker.run_handler job_id file_id job_type params input_path).
Proof.
  unfold SecurityWorker.run_handler, SecurityWorker.update_job_status,
    SecurityWorker.scan_file_for_virus, SecurityWorker.encrypt_file,
    SecurityWorker.decrypt_file, SecurityWorker.original_name_of, SecurityWorker.encode.
  keeps_outside.
Qed.

Lemma security_handler_bucket (job_id file_id job_type : string)
    (params : list (string * json)) (input_path : string) :
  hoare (fun _ => True)
        (SecurityWorker.run_handler job_id file_id job_type params input_path)
        (fun out _ => names_output_bucket out.1.2) (fun _ => True).
Proof.
  unfold SecurityWorker.run_handler.
  repeat returns_step; cbn; intros bucket [= <-]; unfold output_buckets;
    repeat first [by left | right].
Qed.

Lemma security_worker_untouched (e : Envelope) :
  hoare (untouched w0) (SecurityWorker.process_security_job e) (fun _ => untouched w0)
        (untouched w0).
Proof.
  unfold SecurityWorker.process_security_job, SecurityWorker.update_job_status. cbv zeta.
  eapply hoare_bind; [apply hoare_untouched; auto with outside|intros []].
  eapply hoare_try_finally with (Q' := fun _ => untouched w0) (E' := untouched w0);
    [|intros []; apply hoare_untouched; auto with outside
     |apply hoare_untouched; auto with outside].
  eapply hoare_try_except with (E' := untouched w0);
    [|intros ex; apply hoare_untouched; keeps_outside].
  eapply hoare_bind; [apply hoare_untouched; auto with outside|intros []].
  eapply hoare_bind; [apply hoare_untouched; auto with outside|intros input_path].
  eapply hoare_bind; [apply hoare_untouched; auto with outside|intros []].
  eapply hoare_bind.
  { apply hoare_untouched_returns;
      [apply keeps_outside_security_handler|apply security_handler_bucket]. }
  intros [[output_path output_bucket] output_key]. apply hoare_assume_r. intros Hbucket.
  eapply hoare_bind with (R := fun _ => untouched w0);
    [|intros []; apply hoare_untouched; auto with outside].
  apply hoare_untouched_store; [exact Hbucket|keeps_outside].
Qed.

Lemma keeps_outside_ai_worker (e : Envelope) : keeps outside (AIWorker.process_ai_job e).
Proof.
  unfold AIWorker.process_ai_job, AIWorker.update_job_status,
    AIWorker.analyze_image_with_gemini, AIWorker.store_tags. cbv zeta.
  apply keeps_bind; [auto with outside|intros []].
  apply keeps_try_finally; [|auto with outside].
  unfold db_view, db_update, db_guard, db_fail, utcnow. keeps_outside.
Qed.
End WorkersOutside.

(** X16. No worker publishes, removes an
    object, or writes outside the buckets thumbnails, processed and
    encrypted: after any of the four has processed any envelope, the
    broker holds what it held, every object that existed still exists, and
    every object of another bucket (the uploads in raw among them) has its
    content unchanged.  The AI worker writes no object at all. *)
Theorem workers_leave_the_rest_alone {PY : Python} {PIL : Pillow} {FF : FFmpeg}
    {CL : ClamAV} {FN : Fernet} {ZP : Zipfile} {GM : Gemini} (e : Envelope) (w : World) :
  untouched w (ImageWorker.process_image_job e w).2
  /\ untouched w (VideoWorker.process_video_job e w).2
  /\ untouched w (SecurityWorker.process_security_job e w).2
  /\ untouched w (AIWorker.process_ai_job e w).2
  /\ objects (AIWorker.process_ai_job e w).2 = objects w.
Proof.
  assert (untouched w w) as Hw by done.
  split; [|split; [|split; [|split]]].
  - pose proof (image_worker_untouched w e w Hw) as H.
    by destruct (ImageWorker.process_image_job e w) as [[[]|ex] w'].
  - pose proof (video_worker_untouched w e w Hw) as H.
    by destruct (VideoWorker.process_video_job e w) as [[[]|ex] w'].
  - pose proof (security_worker_untouched w e w Hw) as H.
    by destruct (SecurityWorker.process_security_job e w) as [[[]|ex] w'].
  - pose proof (hoare_untouched w _ (keeps_outside_ai_worker e) w Hw) as H.
    by destruct (AIWorker.process_ai_job e w) as [[[]|ex] w'].
  - pose proof (keeps_outside_ai_worker e w) as H. by injection H.
Qed.

(** ** Workers: job types without a handler *)

Section NoHandler.
Context {PY : Python} {PIL : Pillow} {CL : ClamAV} {FN : Fernet} {ZP : Zipfile}
  {GM : Gemini}.

Lemma image_no_handler_run (job_type : string) (params : list (string * json))
    (input_path base_name : string) (w : World) :
  job_type <> "thumbnail" -> job_type <> "image_convert" -> job_type <> "image_compress" ->
  ImageWorker.run_handler job_type params input_path base_name w
  = (Ret (None, None, None), w).
Proof.
  intros H1 H2 H3. unfold ImageWorker.run_handler.
  apply String.eqb_neq in H1, H2, H3. by rewrite H1, H2, H3.
Qed.

Lemma security_no_handler_run (job_id file_id job_type : string)
    (params : list (string * json)) (input_path : string) (w : World) :
  job_type <> "virus_scan" -> job_type <> "encrypt" -> job_type <> "decrypt" ->
  job_type <> "compress" ->
  SecurityWorker.run_handler job_id file_id job_type params input_path w
  = (Ret (None, None, None), w).
Proof.
  intros H1 H2 H3 H4. unfold SecurityWorker.run_handler.
  apply String.eqb_neq in H1, H2, H3, H4. by rewrite H1, H2, H3, H4.
Qed.
End NoHandler.

(** X17. A job whose type the receiving worker
    has no branch for produces no output, and what becomes of it depends
    on the worker.  The image worker (the router sends it METADATA jobs)
    completes the job and sets the File READY.  The security worker and
    the AI worker return having done nothing more than set the job
    RUNNING: it is neither completed nor failed. *)
Theorem job_type_without_handler {PY : Python} {PIL : Pillow} {CL : ClamAV} {FN : Fernet}
    {ZP : Zipfile} {GM : Gemini} (e : Envelope) (w : World) (job : Job.t) (file : File.t)
    (data : bytes) :
  jobs (db w) !! env_job_id e = Some job ->
  files (db w) !! env_file_id e = Some file ->
  objects w !! (env_bucket e, env_key e) = Some data ->
  (env_type e <> "thumbnail" -> env_type e <> "image_convert" ->
   env_type e <> "image_compress" ->
   job_ends_without_output JobStatus.COMPLETED true e w ImageWorker.process_image_job)
  /\ (env_type e <> "virus_scan" -> env_type e <> "encrypt" -> env_type e <> "decrypt" ->
      env_type e <> "compress" ->
      job_ends_without_output JobStatus.RUNNING false e w
                              SecurityWorker.process_security_job)
  /\ (env_type e <> "ai_tag" ->
      job_ends_without_output JobStatus.RUNNING false e w AIWorker.process_ai_job).
Proof.
  intros Hj Hf Ho. split; [|split].
  - intros H1 H2 H3.
    unfold job_ends_without_output, ImageWorker.process_image_job.
    step ltac:(reflexivity).
    unfold try_finally, try_except.
    unfold ImageWorker.update_job_status at 1.
    rewrite (prologue_run e job data w _ Hj Ho).
    destruct w as [[dj df dp dm] s txf txd objs tmp br ev clk ent].
    norm_in Hj. norm_in Hf. norm_in Ho. norm.
    step ltac:(by apply query_file_run).
    norm. rewrite Hf.
    step ltac:(by apply image_no_handler_run).
    cbn [Worker.have_output opt_str_truthy andb].
    unfold ImageWorker.update_job_status.
    rewrite !bind_bind.
    step ltac:(eapply update_job_status_run;
               [split; reflexivity|apply lookup_insert_eq|discriminate]).
    norm.
    step ltac:(eapply mark_file_ready_run; [split; reflexivity|exact Hf]).
    norm.
    rewrite cleanup_run by (eexists; apply lookup_insert_eq).
    norm.
    eexists _, job, _. split; [reflexivity|]. norm.
    split; [exact Hj|]. split; [apply lookup_insert_eq|].
    split; [reflexivity|]. split; [reflexivity|]. split; [|reflexivity].
    apply map_eq. intros k. destruct (decide (k = env_file_id e)) as [->|Hk].
    + by rewrite lookup_insert_eq, lookup_alter_eq, Hf.
    + by rewrite lookup_insert_ne, lookup_alter_ne.
  - intros H1 H2 H3 H4.
    unfold job_ends_without_output, SecurityWorker.process_security_job.
    step ltac:(reflexivity).
    unfold try_finally, try_except.
    unfold SecurityWorker.update_job_status at 1.
    rewrite (prologue_run e job data w _ Hj Ho).
    destruct w as [[dj df dp dm] s txf txd objs tmp br ev clk ent].
    norm_in Hj. norm_in Hf. norm_in Ho. norm.
    step ltac:(by apply security_no_handler_run).
    cbn [Worker.have_output opt_str_truthy andb].
    rewrite bind_ret.
    rewrite cleanup_run by (eexists; apply lookup_insert_eq).
    norm.
    eexists _, job, _. split; [reflexivity|]. norm.
    split; [exact Hj|]. split; [apply lookup_insert_eq|]. done.
  - intros H1.
    unfold job_ends_without_output, AIWorker.process_ai_job.
    step ltac:(reflexivity).
    unfold try_finally, try_except.
    unfold AIWorker.update_job_status at 1.
    rewrite (prologue_run e job data w _ Hj Ho).
    destruct w as [[dj df dp dm] s txf txd objs tmp br ev clk ent].
    norm_in Hj. norm_in Hf. norm_in Ho. norm.
    apply String.eqb_neq in H1. rewrite H1.
    rewrite bind_ret.
    unfold os_unlink, bind, get, modify. norm. rewrite lookup_insert_eq.
    norm.
    eexists _, job, _. split; [reflexivity|]. norm.
    split; [exact Hj|]. split; [apply lookup_insert_eq|]. done.
Qed.

Section NoHandlerExamples.
Import Demo.

(** A METADATA envelope for "cat.png", delivered to each of the three
    workers. *)
Lemma job_type_without_handler_witness :
  let e := Scenario.envelope "cat.png" JobType.METADATA in
  let w := Scenario.world "cat.png" FileStatus.PROCESSING JobType.METADATA
                          JobStatus.QUEUED [x68; x69] in
  job_ends_without_output JobStatus.COMPLETED true e w ImageWorker.process_image_job
  /\ job_ends_without_output JobStatus.RUNNING false e w SecurityWorker.process_security_job
  /\ job_ends_without_output JobStatus.RUNNING false e w AIWorker.process_ai_job.
Proof.
  intros e w.
  destruct (job_type_without_handler e w (Scenario.job JobType.METADATA JobStatus.QUEUED)
              (Scenario.upload "cat.png" FileStatus.PROCESSING) [x68; x69])
    as (Himage & Hsecurity & Hai); [vm_compute; reflexivity..|].
  split; [apply Himage; discriminate|].
  split; [apply Hsecurity; discriminate|apply Hai; discriminate].
Defined.
End NoHandlerExamples.

(** ** The AI tagger: a tagging job *)

Section Tagging.
Context {PY : Python} {GM : Gemini}.

(** The tags depend on the content of the image file only. *)
Lemma analyze_image_with_gemini_data (data : bytes) :
  exists tags,
    0 < length tags
    /\ forall path w, tmpfs w !! path = Some data ->
                      AIWorker.analyze_image_with_gemini path w = (Ret tags, w).
Proof.
  unfold AIWorker.analyze_image_with_gemini.
  destruct (negb (str_truthy GEMINI_API_KEY)).
  { eexists. split; [|by intros path w _]. cbn. lia. }
  destruct (generate_content data) as [err|text] eqn:Hgen.
  - eexists. split; [|intros path w Hin].
    2: { unfold try_except, read_file, bind, get, ret, raise. rewrite Hin. cbn.
         rewrite Hgen. reflexivity. }
    cbn. lia.
  - eexists. split; [|intros path w Hin].
    2: { unfold try_except, read_file, bind, get, ret, raise. rewrite Hin. cbn.
         rewrite Hgen. reflexivity. }
    rewrite length_take, length_map.
    pose proof (split_chars_length "," [] (chars (str_strip text))) as Hlen.
    unfold split. lia.
Qed.

Lemma store_tags_run (file_id : string) (tags : list string) (file : File.t) (w : World) :
  tx_failed w = false ->
  files (session w) !! file_id = Some file ->
  exists dm clk ent metadata,
    AIWorker.store_tags file_id tags w
    = (Ret tt, with_session (with_file_metadata dm (session w))
                 (with_clock clk (with_entropy ent w)))
    /\ dm !! file_id = Some metadata
    /\ FileMetadata.ai_tags metadata = Some tags.
Proof.
  intros Hok Hfile. destruct w as [d [sj sf sp sm] txf txd objs tmp br ev clk ent].
  norm_in Hok. norm_in Hfile. subst txf.
  unfold AIWorker.store_tags.
  step ltac:(by apply db_view_run).
  norm. destruct (sm !! file_id) as [metadata|] eqn:Hm.
  - unfold utcnow, draw, db_update, db_guard, bind, get, modify, ret. norm.
    eexists _, _, _, _. split; [reflexivity|]. split; [apply lookup_insert_eq|done].
  - rewrite Hfile.
    unfold utcnow, draw, db_update, db_guard, bind, get, modify, ret. norm.
    eexists _, _, _, _. split; [reflexivity|]. split; [apply lookup_insert_eq|done].
Qed.
End Tagging.

(** X18. An [ai_tag] job whose Job row, File row and
    input object exist runs to the end: the tags found for the content of
    the object are stored in the File's metadata row (created when there
    is none, replaced otherwise), the File is READY and the Job is
    COMPLETED; no object and no other File row changes.  [get_file] by the
    owner then shows the status as "ready", with exactly these tags. *)
Theorem ai_tag_then_get_file {PY : Python} {GM : Gemini} (e : Envelope) (w : World)
    (job : Job.t) (file : File.t) (data : bytes) :
  env_type e = "ai_tag" ->
  jobs (db w) !! env_job_id e = Some job ->
  files (db w) !! env_file_id e = Some file ->
  objects w !! (env_bucket e, env_key e) = Some data ->
  exists w' tags job' metadata detail,
    AIWorker.process_ai_job e w = (Ret tt, w')
    /\ (forall path w0, tmpfs w0 !! path = Some data ->
                        AIWorker.analyze_image_with_gemini path w0 = (Ret tags, w0))
    /\ jobs (db w') !! env_job_id e = Some job'
    /\ Job.status job' = JobStatus.COMPLETED
    /\ file_metadata (db w') !! env_file_id e = Some metadata
    /\ FileMetadata.ai_tags metadata = Some tags
    /\ files (db w') = <[env_file_id e := File.set_status FileStatus.READY file]> (files (db w))
    /\ objects w' = objects w
    /\ (FileViews.get_file (env_file_id e) (File.owner_id file) w').1 = Ret detail
    /\ FileViews.fd_status detail = "ready"
    /\ FileViews.fd_ai_tags detail = tags.
Proof.
  intros Ht Hj Hf Ho.
  destruct (analyze_image_with_gemini_data data) as (tags & Hlen & Htags).
  unfold AIWorker.process_ai_job.
  step ltac:(reflexivity).
  unfold try_finally, try_except.
  unfold AIWorker.update_job_status at 1.
  rewrite (prologue_run e job data w _ Hj Ho).
  rewrite Ht. cbn [String.eqb Ascii.eqb Bool.eqb].
  destruct w as [[dj df dp dm] s txf txd objs tmp br ev clk ent].
  norm_in Hj. norm_in Hf. norm_in Ho. norm.
  rewrite !bind_bind.
  step ltac:(apply Htags; apply lookup_insert_eq).
  rewrite !bind_bind.
  lazymatch goal with
  | |- context [bind (AIWorker.store_tags _ _) _ ?W] =>
      destruct (store_tags_run (env_file_id e) tags file W eq_refl Hf)
        as (dm' & clk' & ent' & metadata & Hrun & Hm & Hmt)
  end.
  step ltac:(exact Hrun).
  norm.
  step ltac:(by apply query_file_run).
  norm. rewrite Hf.
  step ltac:(by apply db_update_run).
  norm.
  step ltac:(apply db_commit_run; split; reflexivity).
  norm.
  unfold AIWorker.update_job_status.
  step ltac:(eapply update_job_status_run;
             [split; reflexivity|apply lookup_insert_eq|discriminate]).
  norm.
  unfold os_unlink, bind, get, modify. norm. rewrite lookup_insert_eq.
  norm.
  eexists _, tags, _, metadata, _. split; [reflexivity|]. norm.
  split; [exact Htags|].
  split; [apply lookup_insert_eq|]. split; [reflexivity|].
  split; [exact Hm|]. split; [exact Hmt|].
  split; [reflexivity|]. split; [reflexivity|].
  unfold FileViews.get_file. rewrite get_db_query.
  2: { intros d w'. by destruct (FileViews.query_own_file d _ _). }
  norm. unfold FileViews.query_own_file. norm. rewrite lookup_insert_eq.
  rewrite bool_decide_eq_true_2 by by destruct file.
  norm. rewrite Hm, Hmt. split; [reflexivity|]. split; [reflexivity|].
  by destruct tags.
Qed.

Section TaggingExamples.
Import Demo.

(** The tagging job of "cat.png", then the owner's [get_file]. *)
Lemma ai_tag_then_get_file_witness :
  let e := Scenario.envelope "cat.png" JobType.AI_TAG in
  let w := Scenario.world "cat.png" FileStatus.PROCESSING JobType.AI_TAG
                          JobStatus.QUEUED [x68; x69] in
  exists w' detail,
    AIWorker.process_ai_job e w = (Ret tt, w')
    /\ (FileViews.get_file "f1" "u1" w').1 = Ret detail
    /\ FileViews.fd_status detail = "ready"
    /\ FileViews.fd_ai_tags detail = ["sample"; "image"; "auto-tagged"].
Proof.
  intros e w.
  destruct (ai_tag_then_get_file e w (Scenario.job JobType.AI_TAG JobStatus.QUEUED)
              (Scenario.upload "cat.png" FileStatus.PROCESSING) [x68; x69])
    as (w' & tags & job' & metadata & detail & Hrun & Htags & _ & _ & _ & _ & _ & _
        & Hget & Hstatus & Hdetail); [vm_compute; reflexivity..|].
  exists w', detail. split; [exact Hrun|]. split; [exact Hget|]. split; [exact Hstatus|].
  rewrite Hdetail.
  assert (AIWorker.analyze_image_with_gemini "p" (with_tmpfs (<["p" := [x68; x69]]> ∅) w)
          = (Ret ["sample"; "image"; "auto-tagged"], with_tmpfs (<["p" := [x68; x69]]> ∅) w))
    as Hmock by reflexivity.
  rewrite Htags in Hmock by apply lookup_insert_eq.
  by injection Hmock as ->.
Defined.
End TaggingExamples.

(** ** Workers: where an output goes *)

Section OutputStored.
Context {PY : Python}.

(** The end of a worker's run once a handler has left its output [out]
    at [output_path]. *)
Lemma output_stored (e : Envelope) (job : Job.t) (file : File.t) (out : bytes)
    (key name mime input_path output_path output_bucket : string) (w : World) :
  tx_ok w -> session w = db w ->
  jobs (db w) !! env_job_id e = Some job ->
  files (db w) !! env_file_id e = Some file ->
  is_Some (tmpfs w !! input_path) ->
  tmpfs w !! output_path = Some out ->
  forallb sql_literal_ok [uuid4 (entropy w); name; output_bucket; key; mime; env_file_id e]
  = true ->
  str_truthy (uuid4 (entropy w)) = true ->
  files (db w) !! uuid4 (entropy w) = None ->
  exists w' job' file',
    ((s3_upload_file output_path output_bucket key ;;
      output_size <- os_path_getsize output_path ;;
      n <- draw ;;
      Worker.insert_derived_file (uuid4 n) name output_bucket key output_size mime
                                 (env_file_id e) ;;
      db_commit ;;
      Worker.update_job_status (env_job_id e) JobStatus.COMPLETED None (Some (uuid4 n)) ;;
      Worker.mark_file_ready (env_file_id e)) ;;
     Worker.cleanup input_path (Some output_path)) w
    = (Ret tt, w')
    /\ jobs (db w') !! env_job_id e = Some job'
    /\ Job.status job' = JobStatus.COMPLETED
    /\ Job.result_file_id job' = Some (uuid4 (entropy w))
    /\ files (db w') !! uuid4 (entropy w)
       = Some (derived_row (uuid4 (entropy w)) file name output_bucket key (length out)
                           mime (clock w) (env_file_id e))
    /\ objects w' !! (output_bucket, key) = Some out
    /\ files (db w') !! env_file_id e = Some file'
    /\ File.status file' = FileStatus.READY.
Proof.
  intros Hok Hs Hj Hf Hin Hout Hq Hrid Hfresh.
  destruct (store_output_run (env_job_id e) (env_file_id e) output_path output_bucket key name
              mime job file out w)
    as (w' & job' & Hrun & Hok' & Hs' & Hjobs & Hst & Hres & Hfiles & Hobj & Htmp & Hbr).
  - exact Hok.
  - by rewrite Hs.
  - by rewrite Hs.
  - exact Hout.
  - exact Hq.
  - exact Hrid.
  - by rewrite Hs.
  - erewrite bind_run; [|exact Hrun].
    rewrite cleanup_run by (by rewrite Htmp).
    eexists _, job', _. split; [reflexivity|].
    destruct w' as [d' s' txf' txd' objs' tmp' br' ev' clk' ent'].
    rewrite Hs in Hjobs, Hfiles. unfold with_tmpfs. cbn [db objects] in *.
    rewrite Hjobs, Hfiles, Hobj.
    assert (Hne : uuid4 (entropy w) <> env_file_id e) by congruence.
    split; [apply lookup_insert_eq|]. split; [exact Hst|]. split; [exact Hres|].
    split; [rewrite lookup_insert_ne by congruence; apply lookup_insert_eq|].
    split; [apply lookup_insert_eq|].
    split; [apply lookup_insert_eq|done].
Qed.

End OutputStored.

(** [sql_literal_ok] of the fixed parts of an INSERT. *)
Lemma literals_ok {PY : Python} (result_file_id name bucket key mime file_id : string) :
  forallb sql_literal_ok [result_file_id; name; key; file_id] = true ->
  sql_literal_ok bucket = true -> sql_literal_ok mime = true ->
  forallb sql_literal_ok [result_file_id; name; bucket; key; mime; file_id] = true.
Proof.
  cbn [forallb]. intros Hq Hb Hm.
  apply andb_prop in Hq as [Hq1 Hq]. apply andb_prop in Hq as [Hq2 Hq].
  apply andb_prop in Hq as [Hq3 Hq]. apply andb_prop in Hq as [Hq4 _].
  by rewrite Hq1, Hq2, Hq3, Hq4, Hb, Hm.
Qed.

(** ** The security worker: ENCRYPT and COMPRESS *)

Section SecurityOutputs.
Context {PY : Python} {CL : ClamAV} {FN : Fernet} {ZP : Zipfile}.

Lemma encrypt_file_content (password : string) (data token : bytes)
    (input_path output_path : string) (w : World) :
  tmpfs w !! input_path = Some data ->
  fernet_encrypt (generate_key (entropy w)) (S (entropy w)) data = inr token ->
  SecurityWorker.encrypt_file input_path output_path (JStr password) w
  = (Ret tt,
     with_tmpfs (<[output_path := generate_key (entropy w) ++ [x0a] ++ token]> (tmpfs w))
                (with_entropy (S (S (entropy w))) w)).
Proof.
  intros Hin Henc.
  unfold SecurityWorker.encrypt_file, SecurityWorker.encode, bind, ret, draw, read_file,
    get, write_file, modify, lift.
  cbn. rewrite Hin. cbn. by rewrite Henc.
Qed.

End SecurityOutputs.


(** X20. A COMPRESS job whose rows and input exist
    ends COMPLETED.  The output is the ZIP archive with one member, the
    input under the File's name; it is stored in the bucket processed
    under [<file_id>_compressed.zip], a key that depends on the File's id
    only.  The derived File row carries that key, also as its name, and
    the type application/octet-stream. *)
Theorem compress_job_result {PY : Python} {CL : ClamAV} {FN : Fernet} {ZP : Zipfile}
    (e : Envelope) (w : World) (job : Job.t) (file : File.t) (data : bytes) :
  let result_file_id := uuid4 (S (S (entropy w))) in
  let key := env_file_id e +:+ "_compressed.zip" in
  let out := zip_deflated (File.original_name file) data in
  env_type e = "compress" ->
  jobs (db w) !! env_job_id e = Some job ->
  files (db w) !! env_file_id e = Some file ->
  objects w !! (env_bucket e, env_key e) = Some data ->
  forallb sql_literal_ok [result_file_id; key; env_file_id e] = true ->
  str_truthy result_file_id = true ->
  files (db w) !! result_file_id = None ->
  job_completed_with
    (derived_row result_file_id file key "processed" key (length out)
                 "application/octet-stream" (S (clock w)) (env_file_id e))
    out e w SecurityWorker.process_security_job.
Proof.
  intros rid key out Ht Hj Hf Ho Hq Hrid Hfresh. subst rid.
  assert (Hkey : str_truthy key = true).
  { unfold key. by apply str_truthy_app_r. }
  unfold job_completed_with, SecurityWorker.process_security_job.
  step ltac:(reflexivity).
  unfold try_finally, try_except.
  unfold SecurityWorker.update_job_status at 1.
  rewrite (prologue_run e job data w _ Hj Ho).
  destruct w as [[dj df dp dm] s txf txd objs tmp br ev clk ent].
  norm_in Hj. norm_in Hf. norm_in Ho. norm_in Hfresh. norm_in Hq. norm_in Hrid. norm.
  set (input_path := tmp_path ent (Path.suffix (env_key e))).
  set (rid := uuid4 (S (S ent))) in *.
  rewrite Ht.
  unfold SecurityWorker.run_handler. cbn [String.eqb Ascii.eqb Bool.eqb].
  rewrite !bind_bind.
  step ltac:(apply mktemp_run).
  norm.
  set (output_path := tmp_path (S ent) ".zip").
  step ltac:(by apply original_name_of_run).
  norm. rewrite Hf.
  step ltac:(apply read_file_run; apply lookup_insert_eq).
  step ltac:(reflexivity).
  norm.
  rewrite bind_ret. fold key. fold out.
  unfold Worker.have_output, opt_str_truthy.
  unfold output_path at 1. rewrite tmp_path_truthy, Hkey.
  change (str_truthy "processed") with true. cbn [andb default from_option id].
  unfold SecurityWorker.update_job_status.
  lazymatch goal with
  | |- context [bind (bind (s3_upload_file output_path "processed" key) _) _ ?W] =>
      destruct (output_stored e
                  (updated_job JobStatus.RUNNING None None clk job) file
                  out key key "application/octet-stream" input_path output_path
                  "processed" W)
        as (w' & job' & file' & Hrun & Hjob' & Hst & Hres & Hrow & Hobj & Hfile' & Hready);
      [| | | | | | | | |rewrite Hrun]
  end.
  - split; reflexivity.
  - reflexivity.
  - norm. apply lookup_insert_eq.
  - norm. exact Hf.
  - norm. destruct (decide (output_path = input_path)) as [->|Hp].
    + eexists. apply lookup_insert_eq.
    + rewrite lookup_insert_ne by exact Hp. eexists. apply lookup_insert_eq.
  - norm. apply lookup_insert_eq.
  - norm. apply literals_ok; [|reflexivity..].
    cbn [forallb] in *. apply andb_prop in Hq as [Hq1 Hq]. apply andb_prop in Hq as [Hq2 Hq].
    fold rid. by rewrite Hq1, Hq2, Hq.
  - norm. exact Hrid.
  - norm. exact Hfresh.
  - destruct w' as [d' s' txf' txd' objs' tmp' br' ev' clk' ent'].
    norm_in Hjob'. norm_in Hres. norm_in Hrow. norm_in Hobj. norm_in Hfile'. norm.
    fold rid in Hres, Hrow.
    eexists _, job', file'. split; [reflexivity|]. norm.
    split; [exact Hjob'|]. split; [exact Hst|]. split; [exact Hres|].
    split; [exact Hrow|]. split; [exact Hobj|]. split; [exact Hfile'|exact Hready].
Qed.

Section SecurityOutputExamples.
Import Demo.


(** The COMPRESS job of "report.pdf". *)
Lemma compress_job_result_witness :
  let e := Scenario.envelope "report.pdf" JobType.COMPRESS in
  let w := Scenario.world "report.pdf" FileStatus.PROCESSING JobType.COMPRESS
                          JobStatus.QUEUED [x68; x69] in
  job_completed_with
    (derived_row "00000000-0000-4000-8000-2" (Scenario.upload "report.pdf" FileStatus.PROCESSING)
                 "f1_compressed.zip" "processed" "f1_compressed.zip" 12
                 "application/octet-stream" 11 "f1")
    (zip_deflated "report.pdf" [x68; x69]) e w SecurityWorker.process_security_job.
Proof.
  intros e w.
  pose proof (compress_job_result e w (Scenario.job JobType.COMPRESS JobStatus.QUEUED)
                (Scenario.upload "report.pdf" FileStatus.PROCESSING) [x68; x69]) as H.
  cbv zeta in H.
  assert (uuid4 (S (S (entropy w))) = "00000000-0000-4000-8000-2") as Hid
    by (vm_compute; reflexivity).
  assert (clock w = 10) as Hclk by reflexivity.
  rewrite Hid, Hclk in H.
  apply H; vm_compute; reflexivity.
Defined.
End SecurityOutputExamples.

(** ** The image worker: conversion *)

Section Convert.
Context {PY : Python} {PIL : Pillow}.

Lemma convert_image_run (input_path output_path target_format : string) (quality : json)
    (data out : bytes) (w : World) :
  tmpfs w !! input_path = Some data ->
  pil_convert data target_format quality = inr out ->
  ImageWorker.convert_image input_path output_path target_format quality w
  = (Ret tt, with_tmpfs (<[output_path := out]> (tmpfs w)) w).
Proof.
  intros Hin Hpil. unfold ImageWorker.convert_image.
  step ltac:(by apply read_file_run).
  by rewrite Hpil.
Qed.
End Convert.


Section ConvertExamples.
Import Demo.

End ConvertExamples.

(** ** The video worker: conversion *)

Section VideoConvert.
Context {PY : Python} {FF : FFmpeg}.

Lemma subprocess_run_run (cmd : list json) (input_path output_path : string)
    (data out : bytes) (w : World) :
  tmpfs w !! input_path = Some data ->
  ffmpeg_run cmd data = inr out ->
  VideoWorker.subprocess_run cmd input_path output_path w
  = (Ret tt, with_tmpfs (<[output_path := out]> (tmpfs w)) w).
Proof.
  intros Hin Hff. unfold VideoWorker.subprocess_run.
  step ltac:(by apply read_file_run).
  by rewrite Hff.
Qed.
End VideoConvert.


Section VideoConvertExamples.
Import Demo.

End VideoConvertExamples.

(** ** [delete_file] only removes *)

Lemma rows_within_refl (d : DB) : rows_within d d.
Proof. by repeat split. Qed.

Section OnlyRemoved.
Context {PY : Python}.
Variable w0 : World.

Local Abbreviation Inv := (only_removed w0).
Local Abbreviation stays m := (hoare Inv m (fun _ => Inv) Inv).

Lemma stays_keeps {A} (m : M A) :
  keeps (fun w => (db w, session w, objects w, broker w)) m -> stays m.
Proof.
  intros Hk.
  apply (keeps_hoare (fun w => (db w, session w, objects w, broker w)) m
           (fun v => rows_within (db w0) v.1.1.1 /\ rows_within (db w0) v.1.1.2
                     /\ v.1.2 ⊆ objects w0 /\ v.2 = broker w0) Hk).
Qed.

Lemma stays_bind {A B} (m : M A) (k : A -> M B) :
  stays m -> (forall a, stays (k a)) -> stays (bind m k).
Proof. intros Hm Hk. eapply hoare_bind; [exact Hm|exact Hk]. Qed.

Lemma stays_try_except {A} (body : M A) (h : PyExc -> M A) :
  stays body -> (forall e, stays (h e)) -> stays (try_except body h).
Proof. intros Hb Hh. eapply hoare_try_except; [exact Hb|exact Hh]. Qed.

Lemma stays_for_each {A} (l : list A) (body : A -> M unit) :
  (forall x, stays (body x)) -> stays (for_each l body).
Proof. intros Hb. apply hoare_for_each. intros x _. apply Hb. Qed.

Lemma stays_modify (f : World -> World) :
  (forall w, Inv w -> Inv (f w)) -> stays (modify f).
Proof. intros Hf w Hw. by apply Hf. Qed.

Lemma stays_db_update (f : DB -> DB) :
  (forall d, rows_within (db w0) d -> rows_within (db w0) (f d)) -> stays (db_update f).
Proof.
  intros Hf. unfold db_update.
  apply stays_bind; [apply stays_keeps; unfold db_guard; keeps_all|intros []].
  apply stays_modify. intros [d s txf txd objs tmp br ev clk ent] (Hd & Hs & Ho & Hb).
  split; [exact Hd|]. split; [by apply Hf|]. by split.
Qed.

Lemma stays_db_commit : stays db_commit.
Proof.
  unfold db_commit.
  apply stays_bind; [apply stays_keeps; unfold db_guard; keeps_all|intros []].
  apply stays_bind; [apply stays_keeps; keeps_all|intros w].
  destruct (existsb _ _).
  - apply stays_keeps. unfold db_fail. keeps_all.
  - apply stays_bind; [|intros []; apply stays_keeps; unfold emit; keeps_all].
    apply stays_modify. intros [d s txf txd objs tmp br ev clk ent] (Hd & Hs & Ho & Hb).
    split; [exact Hs|]. split; [exact Hs|]. by split.
Qed.

Lemma stays_delete_object (bucket key : string) : stays (MinIOService.delete_file bucket key).
Proof.
  unfold MinIOService.delete_file, s3_delete_object.
  apply stays_bind; [|intros []; apply stays_keeps; unfold emit; keeps_all].
  apply stays_modify. intros [d s txf txd objs tmp br ev clk ent] (Hd & Hs & Ho & Hb).
  split; [exact Hd|]. split; [exact Hs|]. split; [|exact Hb].
  cbn in *. etrans; [apply delete_subseteq|exact Ho].
Qed.

Lemma stays_db_delete_job (job_id : string) : stays (Files.db_delete_job job_id).
Proof.
  apply stays_db_update. intros d (Hj & Hf & Hp & Hm).
  split; [|by repeat split]. cbn. etrans; [apply delete_subseteq|exact Hj].
Qed.

Lemma stays_db_delete_file (fid : string) : stays (Files.db_delete_file fid).
Proof.
  unfold Files.db_delete_file.
  apply stays_bind; [|intros []; apply stays_keeps; keeps_all].
  apply stays_db_update. intros d (Hj & Hf & Hp & Hm). repeat split; cbn.
  - etrans; [apply map_filter_subseteq|exact Hj].
  - etrans; [apply delete_subseteq|exact Hf].
  - etrans; [apply map_filter_subseteq|exact Hp].
  - etrans; [apply delete_subseteq|exact Hm].
Qed.

Lemma stays_db_delete_file_metadata (fid : string) :
  stays (Files.db_delete_file_metadata fid).
Proof.
  apply stays_db_update. intros d (Hj & Hf & Hp & Hm). repeat split; cbn; try done.
  etrans; [apply delete_subseteq|exact Hm].
Qed.

Lemma stays_db_view : stays db_view.
Proof. apply stays_keeps. unfold db_view, db_guard. keeps_all. Qed.

Lemma stays_reset : stays (modify reset_session).
Proof.
  apply stays_modify. intros [d s txf txd objs tmp br ev clk ent] (Hd & Hs & Ho & Hb).
  split; [exact Hd|]. split; [exact Hd|]. by split.
Qed.

Lemma stays_delete_file_body (file_id user_id : string) :
  stays (d <- db_view ;;
         match files d !! file_id with
         | Some file =>
             if bool_decide (File.owner_id file = user_id) then
               let processed_files :=
                 map_to_list (filter (fun kv => File.parent_file_id kv.2 = Some file_id)
                                     (files d)) in
               let processed_file_ids := processed_files.*1 in
               let jobs :=
                 map_to_list
                   (filter (fun kv => Files.job_selected file_id processed_file_ids kv.2 = true)
                           (jobs d)) in
               for_each jobs (fun job => Files.db_delete_job job.1) ;;
               db_commit ;;
               for_each processed_files (fun pf =>
                 try_except
                   (MinIOService.delete_file (File.storage_bucket pf.2)
                                             (File.storage_key pf.2))
                   (fun _ => ret tt) ;;
                 Files.db_delete_file pf.1) ;;
               db_commit ;;
               d <- db_view ;;
               match files d !! file_id with
               | Some file =>
                   try_except
                     (MinIOService.delete_file (File.storage_bucket file)
                                               (File.storage_key file))
                     (fun _ => ret tt) ;;
                   (if bool_decide (is_Some (file_metadata d !! file_id))
                    then Files.db_delete_file_metadata file_id else ret tt) ;;
                   Files.db_delete_file file_id ;;
                   db_commit
               | None =>
                   raise (Exc "ObjectDeletedError" "Instance has been deleted, or its row is otherwise not present.")
               end
             else raise Files.http_404
         | None => raise Files.http_404
         end).
Proof.
  apply stays_bind; [apply stays_db_view|intros d].
  destruct (files d !! file_id) as [file|]; [|by apply hoare_raise].
  destruct (bool_decide _); [|by apply hoare_raise].
  cbv zeta.
  apply stays_bind; [apply stays_for_each; intros x; apply stays_db_delete_job|intros []].
  apply stays_bind; [apply stays_db_commit|intros []].
  apply stays_bind.
  { apply stays_for_each. intros x.
    apply stays_bind; [|intros []; apply stays_db_delete_file].
    apply stays_try_except; [apply stays_delete_object|intros e; by apply hoare_ret]. }
  intros [].
  apply stays_bind; [apply stays_db_commit|intros []].
  apply stays_bind; [apply stays_db_view|intros d'].
  destruct (files d' !! file_id) as [file'|]; [|by apply hoare_raise].
  apply stays_bind.
  { apply stays_try_except; [apply stays_delete_object|intros e; by apply hoare_ret]. }
  intros [].
  apply stays_bind.
  { destruct (bool_decide _); [apply stays_db_delete_file_metadata|by apply hoare_ret]. }
  intros [].
  apply stays_bind; [apply stays_db_delete_file|intros []].
  apply stays_db_commit.
Qed.
End OnlyRemoved.

Lemma delete_file_shrinks {PY : Python} (file_id user_id : string) (w : World) :
  only_removed w (Files.delete_file file_id user_id w).2.
Proof.
  assert (hoare (fun w1 => w1 = w) (Files.delete_file file_id user_id)
                (fun _ => only_removed w) (only_removed w)) as H.
  { unfold Files.delete_file, Files.get_db.
    eapply hoare_bind with (R := fun _ => only_removed w).
    { intros w1 ->. destruct w. cbn. split; [apply rows_within_refl|].
      split; [apply rows_within_refl|done]. }
    intros [].
    eapply hoare_try_finally; [apply stays_delete_file_body|intros a; apply stays_reset
                              |apply stays_reset]. }
  specialize (H w eq_refl).
  by destruct (Files.delete_file file_id user_id w) as [[a|e] w'].
Qed.

(** X23. Whatever [delete_file] is asked and
    whether it returns or raises, it only removes: every committed row
    after the request is a row that was committed before it, unchanged;
    every object in the store was there before, with the same content;
    and nothing is published. *)
Theorem delete_file_only_removes {PY : Python} (file_id user_id : string) (w : World) :
  let w' := (Files.delete_file file_id user_id w).2 in
  rows_within (db w) (db w') /\ objects w' ⊆ objects w /\ broker w' = broker w.
Proof.
  cbv zeta. by destruct (delete_file_shrinks file_id user_id w) as (Hd & _ & Ho & Hb).
Qed.

(** ** Upload, then delete *)

Section UploadDelete.
Context {PY : Python}.
Variables (filename : string) (content : bytes) (content_type : option string).
Variables (user_id : string) (w0 : World).

Local Abbreviation fid := (new_file_id w0).

(** The rows after a successful upload allow the delete of the new
    File. *)
Lemma uploaded_deletable (actions : list json) (status : FileStatus.t) (d : DB)
    (new : list (string * Envelope)) :
  foreign_keys_hold (db w0) ->
  upload_rows filename content content_type user_id w0 actions status d new ->
  deletable fid d.
Proof.
  intros [Hfkj Hfkf] (Hfresh & Hfiles & Hjobs & Hold & Hsize & Hpipes & Hann). split.
  - intros k j Hk Hres. destruct (Hold k j Hk) as [Hin|(_ & _ & Hnone)]; [|congruence].
    destruct (Hfkj k j Hin) as [_ Hr]. destruct (Hr fid Hres) as [f Hf]. congruence.
  - intros c child Hc Hparent. rewrite Hfiles in Hc.
    apply lookup_insert_Some in Hc as [[<- <-]|[Hne Hc]]; [done|].
    destruct (Hfkf c child Hc fid Hparent) as [f Hf]. congruence.
Qed.
End UploadDelete.

(** X24. Deleting a File right after its upload
    succeeds (the foreign keys holding before the upload): the File row
    and the Jobs of the request are gone, its object is gone, and no
    other File or Job row has been added or changed.  The envelopes of
    the request, however, stay in the broker: each still names the
    deleted File, and neither its Job row nor its object exists any
    more. *)
Theorem upload_then_delete {PY : Python} (filename : string) (content : bytes)
    (content_type pipeline_actions : option string) (user_id : string) (w : World)
    (file_id : string) (w1 : World) :
  Files.upload_file filename content content_type pipeline_actions user_id w
  = (Ret file_id, w1) ->
  foreign_keys_hold (db w) ->
  exists w2 new,
    Files.delete_file file_id user_id w1 = (Ret tt, w2)
    /\ files (db w2) !! file_id = None
    /\ files (db w2) ⊆ files (db w)
    /\ jobs (db w2) ⊆ jobs (db w)
    /\ broker w2 = broker w ++ new
    /\ Forall2 (fun action qm =>
                  qm.1 = Files.queue_for action
                  /\ env_file_id qm.2 = file_id
                  /\ jobs (db w2) !! env_job_id qm.2 = None
                  /\ objects w2 !! (env_bucket qm.2, env_key qm.2) = None)
               (requested pipeline_actions) new.
Proof.
  intros Hrun Hfk.
  pose proof (hoare_upload_result filename content content_type pipeline_actions user_id w
                w eq_refl) as H.
  rewrite Hrun in H. destruct H as (-> & Hobj & new & Hbr & Hrows).
  pose proof (uploaded_deletable _ _ _ _ _ _ _ _ _ Hfk Hrows) as Hdel.
  destruct Hrows as (Hfresh & Hfiles & Hjobs & Hold & Hsize & Hpipes & Hann).
  set (fid := new_file_id w) in *.
  set (status := match requested pipeline_actions with
                 | [] => FileStatus.UPLOADED
                 | _ => FileStatus.PROCESSING
                 end) in *.
  set (file := uploaded_row fid user_id filename content content_type (clock w) status) in *.
  assert (files (db w1) !! fid = Some file) as Hfile by by rewrite Hfiles, lookup_insert_eq.
  pose proof (hoare_delete_file fid w1 file Hfile Hdel user_id eq_refl w1 eq_refl) as Hcas.
  pose proof (delete_file_shrinks fid user_id w1) as Hshr.
  destruct (Files.delete_file fid user_id w1) as [[[]|e] w2]; [|done].
  destruct Hcas as (d1 & d2 & _ & _ & _ & (Hgone & _ & Hnone) & _ & Hblob).
  destruct Hshr as ((Hsj & Hsf & _ & _) & _ & _ & Hbroker). cbn [snd] in *.
  assert (forall k j, jobs (db w2) !! k = Some j -> Job.file_id j <> fid) as Hnot.
  { intros k j Hk Hj. apply (Hgone k j Hk). by left. }
  exists w2, new. split; [done|]. split; [exact Hnone|]. split; [|split; [|split]].
  - apply map_subseteq_spec. intros k f Hk.
    pose proof (lookup_weaken _ _ _ _ Hk Hsf) as Hk1. rewrite Hfiles in Hk1.
    apply lookup_insert_Some in Hk1 as [[<- _]|[_ Hk1]]; [congruence|done].
  - apply map_subseteq_spec. intros k j Hk.
    pose proof (lookup_weaken _ _ _ _ Hk Hsj) as Hk1.
    destruct (Hold k j Hk1) as [Hin|(Hf & _)]; [done|]. by destruct (Hnot k j Hk).
  - by rewrite Hbroker, Hbr.
  - eapply Forall2_impl; [exact Hann|]. intros action qm
      (Hq & Hf & Hb & Hk & _ & job & pipeline & Hjob & _ & _ & _ & Hjf & _).
    split; [done|]. split; [done|]. split.
    + destruct (jobs (db w2) !! env_job_id qm.2) as [j|] eqn:Hj; [|done].
      pose proof (lookup_weaken _ _ _ _ Hj Hsj) as Hj1.
      assert (j = job) as -> by congruence. by destruct (Hnot _ _ Hj).
    + rewrite Hb, Hk. exact Hblob.
Qed.

Section UploadDeleteExamples.
Import Demo.

(** An image uploaded with two actions and deleted at once: both
    envelopes are still queued. *)
Lemma upload_then_delete_witness :
  let run :=
    Files.upload_file "cat.png" [x68; x69] (Some "image/png")
                      (Some (Scenario.actions_json ["thumbnail"; "ai_tag"])) "u1"
                      Demo.empty_world in
  exists w2 new,
    run.1 = Ret "00000000-0000-4000-8000-0"
    /\ Files.delete_file "00000000-0000-4000-8000-0" "u1" run.2 = (Ret tt, w2)
    /\ files (db w2) !! "00000000-0000-4000-8000-0" = None
    /\ broker w2 = new
    /\ length new = 2.
Proof.
  intros run.
  assert (run.1 = Ret "00000000-0000-4000-8000-0") as Hret by (vm_compute; reflexivity).
  assert (run = (Ret "00000000-0000-4000-8000-0", run.2)) as Hrun
    by (rewrite <- Hret; apply surjective_pairing).
  assert (length (requested (Some (Scenario.actions_json ["thumbnail"; "ai_tag"]))) = 2)
    as Hlen by (vm_compute; reflexivity).
  destruct (upload_then_delete _ _ _ _ _ _ _ _ Hrun)
    as (w2 & new & Hdel & Hnone & _ & _ & Hbr & Hnew).
  { split; apply map_Forall_empty. }
  exists w2, new. split; [exact Hret|]. split; [exact Hdel|]. split; [exact Hnone|].
  split; [exact Hbr|].
  apply Forall2_length in Hnew. by rewrite <- Hnew.
Defined.
End UploadDeleteExamples.

(** ** Thumbnails of Files with the same name *)


Section NamesakeExamples.
Import Demo.

End NamesakeExamples.

(** ** Downloading a thumbnail *)


Section DownloadExamples.
Import Demo.

End DownloadExamples.

(** ** Upload, then [get_file] *)

(** X27. After a successful upload (the foreign keys
    holding before it), [get_file] by the uploader returns the new File
    under its name and size, with the status value "uploaded" when no
    action was requested and "processing" otherwise, and without
    processed outputs.  Every Job it lists is on this File, QUEUED and
    without result, and for each requested action a Job of that type is
    listed. *)
Theorem upload_then_get_file {PY : Python} (filename : string) (content : bytes)
    (content_type pipeline_actions : option string) (user_id : string) (w : World)
    (file_id : string) (w1 : World) :
  Files.upload_file filename content content_type pipeline_actions user_id w
  = (Ret file_id, w1) ->
  foreign_keys_hold (db w) ->
  exists detail,
    (FileViews.get_file file_id user_id w1).1 = Ret detail
    /\ FileViews.fd_id detail = file_id
    /\ FileViews.fd_original_name detail = filename
    /\ FileViews.fd_size_bytes detail = length content
    /\ FileViews.fd_status detail
       = match requested pipeline_actions with [] => "uploaded" | _ => "processing" end
    /\ FileViews.fd_processed_outputs detail = []
    /\ Forall (fun jd => FileViews.jd_file_id jd = file_id
                         /\ FileViews.jd_status jd = "QUEUED"
                         /\ FileViews.jd_result_file_id jd = None)
              (FileViews.fd_jobs detail)
    /\ Forall (fun action =>
                 exists type jd,
                   Files.JobType_of action = inr type
                   /\ jd ∈ FileViews.fd_jobs detail
                   /\ FileViews.jd_type jd = JobType.value type)
              (requested pipeline_actions).
Proof.
  intros Hrun [Hfkj Hfkf].
  pose proof (hoare_upload_result filename content content_type pipeline_actions user_id w
                w eq_refl) as H.
  rewrite Hrun in H. destruct H as (-> & Hobj & new & Hbr & Hrows).
  destruct Hrows as (Hfresh & Hfiles & Hjobs & Hold & Hsize & Hpipes & Hann).
  set (fid := new_file_id w) in *.
  set (status := match requested pipeline_actions with
                 | [] => FileStatus.UPLOADED
                 | _ => FileStatus.PROCESSING
                 end) in *.
  set (file := uploaded_row fid user_id filename content content_type (clock w) status) in *.
  assert (files (db w1) !! fid = Some file) as Hfile by by rewrite Hfiles, lookup_insert_eq.
  unfold FileViews.get_file. rewrite get_db_query.
  2: { intros d w'. by destruct (FileViews.query_own_file d _ _). }
  cbn [fst].
  rewrite (proj2 (query_own_file_Some (db w1) fid user_id file)) by done.
  eexists. split; [reflexivity|]. cbn.
  split; [done|]. split; [done|]. split; [done|].
  split; [unfold status; by destruct (requested pipeline_actions)|].
  split; [|split].
  - destruct (filter _ (rows (files (db w1)))) as [|pf l] eqn:Hl; [done|].
    assert (pf ∈ filter (fun pf => File.parent_file_id pf = Some fid
                                   /\ File.is_processed_output pf = true)
                        (rows (files (db w1)))) as Hin by (rewrite Hl; left).
    apply list_elem_of_filter in Hin as [[Hparent _] Hin].
    apply elem_of_rows in Hin as [k Hk]. rewrite Hfiles in Hk.
    apply lookup_insert_Some in Hk as [[_ <-]|[_ Hk]]; [done|].
    destruct (Hfkf k pf Hk fid Hparent) as [f Hf]. congruence.
  - apply List.Forall_map. apply Forall_forall. intros job Hin.
    apply list_elem_of_filter in Hin as [Hjf Hin].
    apply elem_of_rows in Hin as [k Hk].
    destruct (Hold k job Hk) as [Hin|(_ & Hst & Hres)].
    + destruct (Hfkj k job Hin) as [[f Hf] _]. congruence.
    + cbn. by rewrite Hst, Hres.
  - apply Forall_forall. intros action Hin.
    apply list_elem_of_lookup in Hin as [i Hi].
    destruct (Forall2_lookup_l _ _ _ _ _ Hann Hi)
      as (qm & _ & _ & _ & _ & _ & _ & job & pipeline & Hjob & Hty & _ & _ & Hjf & _).
    exists (Job.type job), (FileViews.job_data job). split; [done|]. split; [|done].
    apply list_elem_of_In, List.in_map, list_elem_of_In.
    apply list_elem_of_filter. split; [done|]. apply elem_of_rows. by eexists.
Qed.

Section UploadGetExamples.
Import Demo.

(** An image uploaded with two actions, looked at before any worker has
    run. *)
Lemma upload_then_get_file_witness :
  let run :=
    Files.upload_file "cat.png" [x68; x69] (Some "image/png")
                      (Some (Scenario.actions_json ["thumbnail"; "ai_tag"])) "u1"
                      Demo.empty_world in
  exists detail,
    run.1 = Ret "00000000-0000-4000-8000-0"
    /\ (FileViews.get_file "00000000-0000-4000-8000-0" "u1" run.2).1 = Ret detail
    /\ FileViews.fd_status detail = "processing"
    /\ FileViews.fd_processed_outputs detail = []
    /\ Forall (fun jd => FileViews.jd_status jd = "QUEUED") (FileViews.fd_jobs detail).
Proof.
  intros run.
  assert (run.1 = Ret "00000000-0000-4000-8000-0") as Hret by (vm_compute; reflexivity).
  assert (run = (Ret "00000000-0000-4000-8000-0", run.2)) as Hrun
    by (rewrite <- Hret; apply surjective_pairing).
  assert (requested (Some (Scenario.actions_json ["thumbnail"; "ai_tag"]))
          = [JStr "thumbnail"; JStr "ai_tag"]) as Hreq by (vm_compute; reflexivity).
  destruct (upload_then_get_file _ _ _ _ _ _ _ _ Hrun)
    as (detail & Hget & _ & _ & _ & Hstatus & Hout & Hjobs & _).
  { split; apply map_Forall_empty. }
  rewrite Hreq in Hstatus.
  exists detail. split; [exact Hret|]. split; [exact Hget|]. split; [exact Hstatus|].
  split; [exact Hout|].
  eapply Forall_impl; [exact Hjobs|]. by intros jd (_ & Hq & _).
Defined.
End UploadGetExamples.
